(** * logparser.py: record extraction and critical-event query

    A shallow embedding of [LogParser] (src/logparser.py): the keyword
    pre-filter, the timestamp normaliser, the line splitter, the in-memory
    table [log] and the query held in [sql_query].

    Python [str] values are modelled as [string]; the library calls the
    program makes ([re.search], [re.sub], [re.split], [datetime.strptime],
    [str(datetime)], SQLite [LIKE], [UNION], [ORDER BY]) are modelled by
    executable definitions that follow the documented behaviour of CPython
    and SQLite.

    Extent of the model:
    - text is 7-bit: the classes [\d], [\w], [\s] and the folding of case
      are those of the ASCII range, and no text holds a NUL character;
    - [datetime.datetime.now().year] is a parameter [now_year], the same for
      all the lines of a run;
    - a log file is the list of its lines; the readers of hb_report and
      sosreport archives, which feed the same [parse_log_line], the logging
      calls and the writing of the output file are left out. *)

From Stdlib Require Import String Ascii List Bool Arith ZArith Lia.
From Stdlib Require Import Sorting.Sorted Sorting.Permutation.
Import ListNotations.
Local Open Scope string_scope.
Local Open Scope list_scope.
Local Open Scope nat_scope.

Set Implicit Arguments.

(** ** Outcomes of Python calls *)

(** What a call can do besides returning: [sys.exit()], or an exception
    that no handler of the program catches. *)
Inductive exn := IndexError | UnboundLocalError.

Inductive outcome (A : Type) : Type :=
| Returns (a : A)
| SysExit
| Raises (e : exn).
Arguments Returns {A} a.
Arguments SysExit {A}.
Arguments Raises {A} e.

Definition bind {A B} (m : outcome A) (f : A -> outcome B) : outcome B :=
  match m with
  | Returns a => f a
  | SysExit => SysExit
  | Raises e => Raises e
  end.

Notation "x <- m ;; k" := (bind m (fun x => k))
  (at level 61, m at next level, right associativity).

(** ** Characters and strings *)

Definition code (c : ascii) : nat := nat_of_ascii c.

Definition between (lo hi : nat) (c : ascii) : bool :=
  (lo <=? code c) && (code c <=? hi).

Definition is_digit (c : ascii) : bool := between 48 57 c.
Definition is_upper (c : ascii) : bool := between 65 90 c.
Definition is_lower (c : ascii) : bool := between 97 122 c.
Definition is_alnum (c : ascii) : bool := is_digit c || is_upper c || is_lower c.

(** [\s] on 7-bit text: TAB, LF, VT, FF, CR, FS, GS, RS, US and SPACE. *)
Definition is_space (c : ascii) : bool :=
  between 9 13 c || between 28 32 c.

(** [\w] on 7-bit text: letters, digits and the underscore. *)
Definition is_word (c : ascii) : bool := is_alnum c || (code c =? 95).

Definition lower (c : ascii) : ascii :=
  if is_upper c then ascii_of_nat (code c + 32) else c.

Definition eqb_nocase (a b : ascii) : bool := Ascii.eqb (lower a) (lower b).

Fixpoint take (n : nat) (s : string) : string :=
  match n, s with
  | S n', String c t => String c (take n' t)
  | _, _ => ""
  end.

(** What was read between [s] and its suffix [s']. *)
Definition consumed (s s' : string) : string :=
  take (String.length s - String.length s') s.

Fixpoint srev_app (s acc : string) : string :=
  match s with
  | "" => acc
  | String c t => srev_app t (String c acc)
  end.

Definition srev (s : string) : string := srev_app s "".

Fixpoint mem (c : ascii) (chars : string) : bool :=
  match chars with
  | "" => false
  | String d t => Ascii.eqb c d || mem c t
  end.

Fixpoint lstrip (chars s : string) : string :=
  match s with
  | "" => ""
  | String c t => if mem c chars then lstrip chars t else s
  end.

(** [s.strip(chars)]: characters of [chars] removed at both ends. *)
Definition strip (chars s : string) : string :=
  srev (lstrip chars (srev (lstrip chars s))).

(** [needle in s]. *)
Fixpoint starts_with (p s : string) : bool :=
  match p, s with
  | "", _ => true
  | String a p', String b s' => Ascii.eqb a b && starts_with p' s'
  | _, _ => false
  end.

Fixpoint contains (needle s : string) : bool :=
  starts_with needle s ||
  match s with
  | "" => false
  | String _ t => contains needle t
  end.

(** Byte-wise comparison, the order of Python [str] on 7-bit text and of
    SQLite's BINARY collation. *)
Fixpoint str_compare (a b : string) : comparison :=
  match a, b with
  | "", "" => Eq
  | "", String _ _ => Lt
  | String _ _, "" => Gt
  | String x a', String y b' =>
      match Nat.compare (code x) (code y) with
      | Eq => str_compare a' b'
      | o => o
      end
  end.

Definition str_ltb (a b : string) : bool :=
  match str_compare a b with Lt => true | _ => false end.

(** ** The part of [re] the program uses *)

Module Re.

Inductive cls := Digit | Word | Space.

(** Something that matches one character. *)
Inductive cset :=
| One (c : ascii)
| Class (k : cls)
| Range (lo hi : ascii).                        (* [lo-hi] *)

Inductive regex :=
| Eps
| Sym (a : cset)
| Cat (r1 r2 : regex)
| Alt (r1 r2 : regex)
| Rep (a : cset) (lo : nat) (hi : option nat)   (* greedy a{lo,hi} *)
| Grp (name : ascii) (r : regex).               (* (?P<name>r) *)

Definition in_cls (k : cls) (c : ascii) : bool :=
  match k with
  | Digit => is_digit c
  | Word => is_word c
  | Space => is_space c
  end.

(** [ic] is the IGNORECASE flag. *)
Definition accepts (ic : bool) (a : cset) (c : ascii) : bool :=
  match a with
  | One d => if ic then eqb_nocase d c else Ascii.eqb d c
  | Class k => in_cls k c
  | Range lo hi => between (code lo) (code hi) c
  end.

Definition groups := list (ascii * string).

Definition more (hi : option nat) : bool :=
  match hi with Some 0 => false | _ => true end.

Definition dec (hi : option nat) : option nat :=
  match hi with Some n => Some (pred n) | None => None end.

Section Matcher.
Variable ic : bool.
Variable A : Type.

(** Greedy repetition with backtracking: take one more character when
    allowed, and fall back to stopping here when the rest fails. *)
Fixpoint rep (a : cset) (lo : nat) (hi : option nat) (s : string)
         (k : string -> option A) : option A :=
  let stop := if lo =? 0 then k s else None in
  match s with
  | String c t =>
      if accepts ic a c && more hi then
        match rep a (pred lo) (dec hi) t k with
        | Some x => Some x
        | None => stop
        end
      else stop
  | "" => stop
  end.

(** Backtracking matcher in continuation-passing style: [k] receives the
    unread rest of the string and the groups captured so far; the first
    alternative for which [k] succeeds wins. *)
Fixpoint matchk (r : regex) (s : string) (g : groups)
         (k : string -> groups -> option A) : option A :=
  match r with
  | Eps => k s g
  | Sym a =>
      match s with
      | String c t => if accepts ic a c then k t g else None
      | "" => None
      end
  | Cat r1 r2 => matchk r1 s g (fun s' g' => matchk r2 s' g' k)
  | Alt r1 r2 =>
      match matchk r1 s g k with
      | Some x => Some x
      | None => matchk r2 s g k
      end
  | Rep a lo hi => rep a lo hi s (fun s' => k s' g)
  | Grp name r1 =>
      matchk r1 s g (fun s' g' =>
        k s' ((name, consumed s s') :: g'))
  end.
End Matcher.

(** A match: the text before it, the matched text ([group()]), the text
    after it and the named groups. *)
Record mtch := { pre : string; group : string; post : string; named : groups }.

(** [re.match]: a match at the start of [s]. *)
Definition match_at (ic : bool) (r : regex) (before s : string) : option mtch :=
  matchk ic r s []
    (fun s' g => Some {| pre := before; group := consumed s s';
                         post := s'; named := g |}).

Fixpoint search_from (ic : bool) (r : regex) (before_rev s : string) : option mtch :=
  match match_at ic r (srev before_rev) s with
  | Some m => Some m
  | None =>
      match s with
      | "" => None
      | String c t => search_from ic r (String c before_rev) t
      end
  end.

(** [re.search]: the leftmost match. *)
Definition search_re (ic : bool) (r : regex) (s : string) : option mtch :=
  search_from ic r "" s.

(** *** Pattern syntax *)

(** The reader covers the syntax of the patterns in logparser.py: literal
    characters, [\d] [\w] [\s], escaped punctuation, [|] at top level and
    the postfix [*], [+], [{n}] after a one-character item.  Anything else
    is not read ([None]). *)

Inductive pstate := Normal | Escaped | Counting (n : option nat).

Definition special (c : ascii) : bool := mem c ".^$*+?{}[]\|()".

Definition requantify (lo : nat) (hi : option nat) (cur : list regex)
  : option (list regex) :=
  match cur with
  | Sym a :: rest => Some (Rep a lo hi :: rest)
  | _ => None
  end.

Definition seq_of (items_rev : list regex) : regex :=
  fold_left (fun acc r => match acc with Eps => r | _ => Cat r acc end) items_rev Eps.

Definition alt_of (branches_rev : list regex) : option regex :=
  match branches_rev with
  | [] => None
  | b :: bs => Some (fold_left (fun acc r => Alt r acc) bs b)
  end.

Fixpoint read (p : string) (st : pstate) (cur : list regex) (done : list regex)
  : option regex :=
  match p with
  | "" =>
      match st with
      | Normal => alt_of (seq_of cur :: done)
      | _ => None
      end
  | String c t =>
      match st with
      | Normal =>
          if Ascii.eqb c "\" then read t Escaped cur done
          else if Ascii.eqb c "|" then read t Normal [] (seq_of cur :: done)
          else if Ascii.eqb c "*" then
            match requantify 0 None cur with
            | Some cur' => read t Normal cur' done
            | None => None
            end
          else if Ascii.eqb c "+" then
            match requantify 1 None cur with
            | Some cur' => read t Normal cur' done
            | None => None
            end
          else if Ascii.eqb c "{" then read t (Counting None) cur done
          else if special c then None
          else read t Normal (Sym (One c) :: cur) done
      | Escaped =>
          if Ascii.eqb c "d" then read t Normal (Sym (Class Digit) :: cur) done
          else if Ascii.eqb c "w" then read t Normal (Sym (Class Word) :: cur) done
          else if Ascii.eqb c "s" then read t Normal (Sym (Class Space) :: cur) done
          else if is_alnum c then None
          else read t Normal (Sym (One c) :: cur) done
      | Counting n =>
          if is_digit c then
            read t (Counting (Some (10 * match n with Some v => v | None => 0 end
                                    + (code c - 48)))) cur done
          else if Ascii.eqb c "}" then
            match n with
            | Some v =>
                match requantify v (Some v) cur with
                | Some cur' => read t Normal cur' done
                | None => None
                end
            | None => None
            end
          else None
      end
  end.

(** [re.compile(pattern)]. *)
Definition compile (pattern : string) : option regex := read pattern Normal [] [].

(** [re.search(pattern, s)]. *)
Definition search (pattern s : string) : option mtch :=
  match compile pattern with
  | Some r => search_re false r s
  | None => None
  end.

(** [re.sub(pattern, '', s, 1)]: the leftmost match removed. *)
Definition sub1_empty (pattern s : string) : string :=
  match search pattern s with
  | Some m => (pre m ++ post m)%string
  | None => s
  end.

(** [re.split(pattern, s, maxsplit)] for a pattern that matches no empty
    string. *)
Fixpoint split (pattern s : string) (maxsplit : nat) : list string :=
  match maxsplit with
  | 0 => [s]
  | S n =>
      match search pattern s with
      | Some m => pre m :: split pattern (post m) n
      | None => [s]
      end
  end.

(** *** Keyword patterns *)

(** The text of an expression that is a plain run of characters. *)
Fixpoint lit_of (r : regex) : option string :=
  match r with
  | Eps => Some ""
  | Sym (One c) => Some (String c "")
  | Cat (Sym (One c)) r2 =>
      match lit_of r2 with
      | Some l => Some (String c l)
      | None => None
      end
  | _ => None
  end.

(** The cues of an expression that is an alternation of plain texts. *)
Fixpoint cues_of (r : regex) : option (list string) :=
  match r with
  | Alt r1 r2 =>
      match lit_of r1, cues_of r2 with
      | Some l, Some ls => Some (l :: ls)
      | _, _ => None
      end
  | _ =>
      match lit_of r with
      | Some l => Some [l]
      | None => None
      end
  end.

Definition cues (pattern : string) : list string :=
  match compile pattern with
  | Some r => match cues_of r with Some ls => ls | None => [] end
  | None => []
  end.

End Re.

(** ** [datetime] *)

Local Open Scope Z_scope.

Module Datetime.

Record datetime := mk
  { year : Z; month : Z; day : Z; hour : Z; minute : Z; second : Z }.

Definition is_leap (y : Z) : bool :=
  (y mod 4 =? 0) && (negb (y mod 100 =? 0) || (y mod 400 =? 0)).

Definition days_in_month (y m : Z) : Z :=
  if m =? 2 then (if is_leap y then 29 else 28)
  else if (m =? 4) || (m =? 6) || (m =? 9) || (m =? 11) then 30
  else 31.

Definition within (lo hi x : Z) : bool := (lo <=? x) && (x <=? hi).

(** What the constructor checks before it builds a value. *)
Definition in_range (y m d hh mi ss : Z) : bool :=
  within 1 9999 y && within 1 12 m && within 1 (days_in_month y m) d &&
  within 0 23 hh && within 0 59 mi && within 0 59 ss.

(** [datetime(y, m, d, hh, mi, ss)]; [None] stands for [ValueError]. *)
Definition new (y m d hh mi ss : Z) : option datetime :=
  if in_range y m d hh mi ss then Some (mk y m d hh mi ss) else None.

Definition valid (t : datetime) : Prop :=
  in_range (year t) (month t) (day t) (hour t) (minute t) (second t) = true.

Definition digit_char (d : Z) : ascii := ascii_of_nat (48 + Z.to_nat d).

Definition pad2 (n : Z) : string :=
  String (digit_char (n / 10 mod 10)) (String (digit_char (n mod 10)) "").

Definition pad4 (n : Z) : string :=
  String (digit_char (n / 1000 mod 10))
    (String (digit_char (n / 100 mod 10)) (pad2 n)).

(** [str(t)] of a value without microseconds: [YYYY-MM-DD HH:MM:SS]. *)
Definition str (t : datetime) : string :=
  (pad4 (year t) ++ "-" ++ pad2 (month t) ++ "-" ++ pad2 (day t) ++ " " ++
   pad2 (hour t) ++ ":" ++ pad2 (minute t) ++ ":" ++ pad2 (second t))%string.

Definition and_then (c d : comparison) : comparison :=
  match c with Eq => d | _ => c end.

(** Chronological order: the fields compared most significant first. *)
Definition compare (a b : datetime) : comparison :=
  and_then (year a ?= year b)
 (and_then (month a ?= month b)
 (and_then (day a ?= day b)
 (and_then (hour a ?= hour b)
 (and_then (minute a ?= minute b) (second a ?= second b))))).

Definition lt (a b : datetime) : Prop := compare a b = Lt.
Definition le (a b : datetime) : Prop := compare a b <> Gt.

(** [str(n)] of an [int]. *)
Fixpoint str_digits (fuel : nat) (n : Z) (acc : string) : string :=
  match fuel with
  | O => acc
  | S f =>
      let acc' := String (digit_char (n mod 10)) acc in
      if n / 10 =? 0 then acc' else str_digits f (n / 10) acc'
  end.

Definition str_int (n : Z) : string :=
  if n <? 0 then String "-" (str_digits (S (Z.to_nat (Z.log2 (- n)))) (- n) "")
  else str_digits (S (Z.to_nat (Z.log2 n))) n "".

(** [int(s)] of decimal text, blanks around it ignored; [None] stands for
    [ValueError]. *)
Fixpoint int_digits (s : string) (acc : Z) : option Z :=
  match s with
  | "" => Some acc
  | String c t =>
      if is_digit c then int_digits t (10 * acc + (Z.of_nat (code c) - 48))
      else None
  end.

Definition is_blank (c : ascii) : bool := is_space c.

Fixpoint skip_blanks (s : string) : string :=
  match s with
  | String c t => if is_blank c then skip_blanks t else s
  | "" => ""
  end.

Definition int (s : string) : option Z :=
  match srev (skip_blanks (srev (skip_blanks s))) with
  | "" => None
  | d => int_digits d 0
  end.

(** *** [strptime] *)

Import Re.

Definition ch (c : ascii) : regex := Sym (One c).
Definition rng (lo hi : ascii) : regex := Sym (Range lo hi).
Definition d_ : regex := Sym (Class Digit).

Fixpoint lit (s : string) : regex :=
  match s with
  | "" => Eps
  | String c "" => ch c
  | String c t => Cat (ch c) (lit t)
  end.

Fixpoint alts (rs : list regex) : regex :=
  match rs with
  | [] => Eps
  | [r] => r
  | r :: rest => Alt r (alts rest)
  end.

(** [locale_time.a_month[1:]] of the C locale, lower-cased. *)
Definition a_month : list string :=
  ["jan"; "feb"; "mar"; "apr"; "may"; "jun";
   "jul"; "aug"; "sep"; "oct"; "nov"; "dec"]%string.

(** The regular expression of a directive (the table of [TimeRE]). *)
Definition directive (d : ascii) : option regex :=
  if Ascii.eqb d "d" then
    (* (?P<d>3[0-1]|[1-2]\d|0[1-9]|[1-9]| [1-9]) *)
    Some (Grp "d" (alts [Cat (ch "3") (rng "0" "1"); Cat (rng "1" "2") d_;
                         Cat (ch "0") (rng "1" "9"); rng "1" "9";
                         Cat (ch " ") (rng "1" "9")]))
  else if Ascii.eqb d "H" then
    (* (?P<H>2[0-3]|[0-1]\d|\d) *)
    Some (Grp "H" (alts [Cat (ch "2") (rng "0" "3"); Cat (rng "0" "1") d_; d_]))
  else if Ascii.eqb d "m" then
    (* (?P<m>1[0-2]|0[1-9]|[1-9]) *)
    Some (Grp "m" (alts [Cat (ch "1") (rng "0" "2"); Cat (ch "0") (rng "1" "9");
                         rng "1" "9"]))
  else if Ascii.eqb d "M" then
    (* (?P<M>[0-5]\d|\d) *)
    Some (Grp "M" (alts [Cat (rng "0" "5") d_; d_]))
  else if Ascii.eqb d "S" then
    (* (?P<S>6[0-1]|[0-5]\d|\d) *)
    Some (Grp "S" (alts [Cat (ch "6") (rng "0" "1"); Cat (rng "0" "5") d_; d_]))
  else if Ascii.eqb d "Y" then
    (* (?P<Y>\d\d\d\d) *)
    Some (Grp "Y" (Cat d_ (Cat d_ (Cat d_ d_))))
  else if Ascii.eqb d "b" then
    (* (?P<b>jan|feb|...|dec) *)
    Some (Grp "b" (alts (map lit a_month)))
  else None.

(** [TimeRE.pattern(format)]: a directive becomes its expression, a blank
    becomes [\s+] (the formats of the program have no two blanks in a
    row), any other character stands for itself. *)
Fixpoint pattern (fmt : string) : option regex :=
  match fmt with
  | "" => Some Eps
  | String c t =>
      if Ascii.eqb c "%" then
        match t with
        | String d t' =>
            match directive d, pattern t' with
            | Some r, Some r' => Some (Cat r r')
            | _, _ => None
            end
        | "" => None
        end
      else
        match pattern t with
        | Some r' =>
            Some (Cat (if is_space c then Rep (Class Space) 1 None else ch c) r')
        | None => None
        end
  end.

Fixpoint lookup (name : ascii) (g : groups) : option string :=
  match g with
  | [] => None
  | (n, v) :: rest => if Ascii.eqb n name then Some v else lookup name rest
  end.

Fixpoint index_of (x : string) (l : list string) (i : Z) : option Z :=
  match l with
  | [] => None
  | y :: rest => if String.eqb x y then Some i else index_of x rest (i + 1)
  end.

Fixpoint lower_str (s : string) : string :=
  match s with
  | "" => ""
  | String c t => String (lower c) (lower_str t)
  end.

(** A numeric group; a directive absent from the format gives [dflt]. *)
Definition field (name : ascii) (dflt : Z) (g : groups) : option Z :=
  match lookup name g with
  | Some v => int v
  | None => Some dflt
  end.

(** The month: [%m] as a number, [%b] by its place in [a_month]. *)
Definition month_of (g : groups) : option Z :=
  match lookup "b" g with
  | Some v => index_of (lower_str v) a_month 1
  | None => field "m" 1 g
  end.

(** [datetime.strptime(data, fmt)]; [None] stands for [ValueError]: the
    text does not match the format, text is left over, or the values do
    not make a date. *)
Definition strptime (data fmt : string) : option datetime :=
  match pattern fmt with
  | None => None
  | Some r =>
      match match_at true r "" data with
      | None => None
      | Some found =>
          match post found with
          | "" =>
              let g := named found in
              match field "Y" 1900 g, month_of g, field "d" 1 g,
                    field "H" 0 g, field "M" 0 g, field "S" 0 g with
              | Some y, Some m, Some d, Some hh, Some mi, Some ss =>
                  new y m d hh mi ss
              | _, _, _, _, _, _ => None
              end
          | _ => None
          end
      end
  end.

End Datetime.

(** ** The in-memory table [log] *)

Module Sqlite.

(** A row of [CREATE TABLE log (TIME TEXT, NODE TEXT, COMPONENT TEXT,
    PAYLOAD TEXT)] with the rowid SQLite gives it. *)
Record row := mkrow
  { rowid : Z; TIME : string; NODE : string; COMPONENT : string; PAYLOAD : string }.

Definition table := list row.

Definition max_rowid (t : table) : Z :=
  fold_right (fun r m => Z.max (rowid r) m) 0 t.

(** [INSERT INTO log VALUES (?,?,?,?)]: the new row gets the largest rowid
    in use plus one. *)
Definition insert_into (t : table) (v : string * string * string * string) : table :=
  let '(time, node, component, payload) := v in
  t ++ [mkrow (max_rowid t + 1) time node component payload].

Definition row_eq_dec (a b : row) : {a = b} + {a <> b}.
Proof. decide equality; (apply string_dec || apply Z.eq_dec). Defined.

(** *** [LIKE] *)

Inductive ltok := Any | AnyOne | Lit (c : ascii) | Dangling.

Definition is_escape (esc : option ascii) (c : ascii) : bool :=
  match esc with Some e => Ascii.eqb e c | None => false end.

(** [%] is any text, [_] any one character, a character after the escape
    character stands for itself. *)
Fixpoint like_tokens (esc : option ascii) (p : string) : list ltok :=
  match p with
  | "" => []
  | String c t =>
      if is_escape esc c then
        match t with
        | String d t' => Lit d :: like_tokens esc t'
        | "" => [Dangling]
        end
      else if Ascii.eqb c "%" then Any :: like_tokens esc t
      else if Ascii.eqb c "_" then AnyOne :: like_tokens esc t
      else Lit c :: like_tokens esc t
  end.

(** Letters of the 7-bit range match without regard to case. *)
Fixpoint like_match (toks : list ltok) (s : string) : bool :=
  match toks with
  | [] => match s with "" => true | _ => false end
  | Any :: ts =>
      (fix any (s : string) : bool :=
         if like_match ts s then true
         else match s with
              | "" => false
              | String _ t => any t
              end) s
  | AnyOne :: ts =>
      match s with String _ t => like_match ts t | "" => false end
  | Lit c :: ts =>
      match s with
      | String d t => if eqb_nocase c d then like_match ts t else false
      | "" => false
      end
  | Dangling :: _ => false
  end.

(** [x LIKE p] and [x LIKE p ESCAPE e]. *)
Definition LIKE (x p : string) : bool := like_match (like_tokens None p) x.
Definition LIKE_ESCAPE (x p : string) (e : ascii) : bool :=
  like_match (like_tokens (Some e) p) x.

(** [x IN (v1, ..., vn)]. *)
Definition IN (x : string) (vs : list string) : bool :=
  existsb (String.eqb x) vs.

(** [SELECT ... FROM t WHERE p]. *)
Definition select_where (p : row -> bool) (t : table) : list row := filter p t.

(** [q1 UNION q2 UNION ...]: the rows of all the queries, each distinct row
    once. *)
Definition union (qs : list (list row)) : list row :=
  nodup row_eq_dec (concat qs).

(** [ORDER BY TIME, rowid]: text order on TIME, then the rowid. *)
Definition row_leb (a b : row) : bool :=
  match str_compare (TIME a) (TIME b) with
  | Lt => true
  | Eq => rowid a <=? rowid b
  | Gt => false
  end.

Fixpoint place (x : row) (l : list row) : list row :=
  match l with
  | [] => [x]
  | y :: t => if row_leb x y then x :: l else y :: place x t
  end.

Fixpoint order_by (l : list row) : list row :=
  match l with
  | [] => []
  | x :: t => place x (order_by t)
  end.

(** [SELECT TIME, NODE, COMPONENT, PAYLOAD FROM (...)]. *)
Definition columns (r : row) : string * string * string * string :=
  (TIME r, NODE r, COMPONENT r, PAYLOAD r).

End Sqlite.

(** ** [LogParser] *)

Module LogParser.

Import Sqlite.
Import Datetime.

Definition pacemaker_log_keywords : string :=
  ("LogAction|LogNodeActions|stonith-ng|pacemaker-fenced|crit:|check_migration_threshold|corosync|Result"
   ++ " of|reboot|cannot run anywhere|attrd_peer_update|High CPU load detected|cli-ban|cli-prefer"
   ++ "cib-bootstrap-options-maintenance-mode|-is-managed|-maintenance|-standby")%string.

Definition system_log_keywords : string :=
  ("SAPHana\(|SAPHanaController\(|SAPHanaTopology\(|SAPInstance\(|gcp-vpc-move-vip|gcp:alias|gcp:stonith|fence_gce|corosync\[|Result"
   ++ " of|reboot")%string.

(** *** The query *)

(** Fencing actions and results, stonith timeout. *)
Definition R1 (r : row) : bool :=
  LIKE_ESCAPE (PAYLOAD r) "%$*%FENCE%" "$"
  || LIKE (PAYLOAD r) "%remote_op_done%Operation%"
  || LIKE (PAYLOAD r) "%monitor%Timer%expired%".

(** Pacemaker actions for resources, CRMD critical logs, high CPU load. *)
Definition R2 (r : row) : bool :=
  LIKE (PAYLOAD r) "%notice%LogAction%"
  || LIKE (PAYLOAD r) "%(LogAction)%"
  || LIKE (PAYLOAD r) "%crit:%"
  || LIKE (PAYLOAD r) "%Forcing%away%"
  || LIKE (PAYLOAD r) "%cannot%run%anywhere%"
  || LIKE (PAYLOAD r) "%attrd_peer_update%INFINITY%"
  || LIKE (PAYLOAD r) "%CPU%detected%".

(** Corosync error or membership change. *)
Definition R3 (r : row) : bool :=
  LIKE (PAYLOAD r) "%TOTEM%"
  && (LIKE (PAYLOAD r) "%failed%"
      || LIKE (PAYLOAD r) "%membership%"
      || LIKE (PAYLOAD r) "%Retransmit%").

(** Failed resource operations. *)
Definition R4 (r : row) : bool :=
  LIKE (PAYLOAD r) "%Result%of%operation%"
  && negb (LIKE (PAYLOAD r) "%ok%")
  && negb (LIKE (PAYLOAD r) "%Cancelled%")
  && negb (LIKE (PAYLOAD r) "%probe%").

(** SAPInstance, gcp:stonith, gcp:alias, gcp-vpc-move-vip, fence_gce error. *)
Definition R5 (r : row) : bool :=
  (LIKE (COMPONENT r) "SAPInstance%"
   || IN (COMPONENT r)
        ["stonith-ng"; "gcp:stonith"; "gcp:alias"; "gcp-vpc-move-vip"; "fence_gce"]%string)
  && (LIKE (PAYLOAD r) "%ERROR%" || LIKE (PAYLOAD r) "%Failed%").

(** SAPHana error or warning. *)
Definition R6 (r : row) : bool :=
  LIKE (COMPONENT r) "SAPHana%"
  && (LIKE (PAYLOAD r) "%ERROR:%"
      || LIKE (PAYLOAD r) "%WARNING:%"
      || LIKE (PAYLOAD r) "%ACT%SFAIL%").

(** Cluster/node/resource maintenance, standby, manage mode change. *)
Definition R7 (r : row) : bool :=
  LIKE (PAYLOAD r) "%cib-bootstrap-options-maintenance-mode%value%"
  || LIKE (PAYLOAD r) "%cib_perform_op%nodes-%-maintenance%"
  || LIKE (PAYLOAD r) "%cib_perform_op%nodes-%-standby%"
  || LIKE (PAYLOAD r) "%cib_perform_op%meta_attributes-%".

(** Location constraint cli-ban or cli-prefer. *)
Definition R8 (r : row) : bool :=
  LIKE (PAYLOAD r) "%cli-ban%" || LIKE (PAYLOAD r) "%cli-prefer%".

Definition rules : list (row -> bool) := [R1; R2; R3; R4; R5; R6; R7; R8].

(** The string [time] built in [__init__], as a predicate on TIME:
    [WHERE TIME > 'begin' AND TIME < 'end'], either part left out when its
    bound is not given. *)
Definition time (date_begin date_end : option datetime) : option (row -> bool) :=
  match date_begin with
  | Some b =>
      match date_end with
      | Some e => Some (fun r => str_ltb (str b) (TIME r) && str_ltb (TIME r) (str e))
      | None => Some (fun r => str_ltb (str b) (TIME r))
      end
  | None =>
      match date_end with
      | Some e => Some (fun r => str_ltb (TIME r) (str e))
      | None => None
      end
  end.

(** The table the rules read: [data] (the rows of [log] that pass [time])
    when a bound is given, [log] itself otherwise. *)
Definition data (date_begin date_end : option datetime) (log : table) : table :=
  match time date_begin date_end with
  | Some p => select_where p log
  | None => log
  end.

(** The rows of the inner compound query, with their rowid:
    [SELECT rowid, ... WHERE R1 UNION ... UNION SELECT rowid, ... WHERE R8
    ORDER BY TIME, rowid]. *)
Definition matches (date_begin date_end : option datetime) (log : table) : list row :=
  order_by
    (union (map (fun rule => select_where rule (data date_begin date_end log)) rules)).

(** What executing [sql_query] gives. *)
Definition sql_query (date_begin date_end : option datetime) (log : table)
  : list (string * string * string * string) :=
  map columns (matches date_begin date_end log).

(** *** Properties of rows used to state what the query returns *)

(** The row carries the timestamp [t]. *)
Definition stamped (r : row) (t : datetime) : Prop := valid t /\ TIME r = str t.

(** [t] is later than the begin bound, when there is one. *)
Definition after (date_begin : option datetime) (t : datetime) : Prop :=
  match date_begin with Some b => lt b t | None => True end.

(** [t] is earlier than the end bound, when there is one. *)
Definition before (date_end : option datetime) (t : datetime) : Prop :=
  match date_end with Some e => lt t e | None => True end.

Definition bound_valid (bound : option datetime) : Prop :=
  match bound with Some t => valid t | None => True end.

(** The row passes the filter [time] (every row does when no bound is
    given). *)
Definition in_window (date_begin date_end : option datetime) (r : row) : bool :=
  match time date_begin date_end with
  | Some p => p r
  | None => true
  end.

(** The order of the report: earlier TIME first, and for the same TIME the
    smaller rowid first. *)
Definition row_before (x y : row) : Prop :=
  str_compare (TIME x) (TIME y) = Lt \/ (TIME x = TIME y /\ rowid x < rowid y).

Definition columns_eq_dec (u v : string * string * string * string)
  : {u = v} + {u <> v}.
Proof. repeat decide equality. Defined.

(** One of the eight rules holds of the row. *)
Definition critical (r : row) : bool := existsb (fun rule => rule r) rules.

(** The tables that a run can build: [log] after any number of inserts of
    records whose TIME is the text of a timestamp. *)
Inductive stored : table -> Prop :=
| stored_empty : stored []
| stored_insert conn t node component payload :
    stored conn -> valid t ->
    stored (insert_into conn (str t, node, component, payload)).

(** *** Ingestion *)

(* time format Nov 22 00:00:00 *)
Definition time_format1 : string * string :=
  ("\w{3}\s+\d+\s\d\d:\d\d:\d\d", "%Y %b %d %H:%M:%S")%string.

(* time format 2020-11-22T00:00:00 *)
Definition time_format2 : string * string :=
  ("\d{4}-\d\d-\d\dT\d\d:\d\d:\d\d", "%Y-%m-%dT%H:%M:%S")%string.

(** [format_timestamp_from_logline]; [now_year] is
    [datetime.datetime.now().year]. *)
Definition format_timestamp_from_logline (now_year : Z) (line : string)
  : outcome (option (datetime * Z)) :=
  let ts1 := Re.search (fst time_format1) line in
  let ts2 := Re.search (fst time_format2) line in
  match ts1 with
  | Some m1 =>
      match strptime (str_int now_year ++ " " ++ Re.group m1) (snd time_format1) with
      | Some t => Returns (Some (t, 1))
      | None => SysExit              (* except ValueError: sys.exit() *)
      end
  | None =>
      match ts2 with
      | Some m2 =>
          match strptime (Re.group m2) (snd time_format2) with
          | Some t => Returns (Some (t, 2))
          | None => SysExit          (* except ValueError: sys.exit() *)
          end
      | None => Returns None
      end
  end.

(** [format_timestamp_from_timeinput]: the first accepted shape the text
    contains decides the format; a text that then fails to parse, or that
    has neither shape, ends the run. *)
Definition format_timestamp_from_timeinput (time : string) : outcome datetime :=
  (* accepted timestamp format YYYY-MM-DD-HH:MM or YYYY-MM-DD *)
  let pattern_format_list :=
    [("\d{4}-\d\d-\d\d-\d\d:\d\d", "%Y-%m-%d-%H:%M");
     ("\d{4}-\d\d-\d\d", "%Y-%m-%d")]%string in
  (fix loop (pairs : list (string * string)) : outcome datetime :=
     match pairs with
     | [] => SysExit
     | pf :: rest =>
         match Re.search (fst pf) time with
         | Some _ =>
             match strptime time (snd pf) with
             | Some t => Returns t
             | None => SysExit
             end
         | None => loop rest
         end
     end) pattern_format_list.

(** [l[i]]. *)
Definition item (l : list string) (i : nat) : outcome string :=
  match nth_error l i with
  | Some x => Returns x
  | None => Raises IndexError
  end.

(** [parse_log_line]; [conn] is the table [log]. *)
Definition parse_log_line (now_year : Z) (logline logtype : string) (conn : table)
  : outcome table :=
  pattern <- (if String.eqb logtype "s" then Returns system_log_keywords
              else if String.eqb logtype "p" then Returns pacemaker_log_keywords
              else SysExit) ;;
  match Re.search pattern logline with
  | Some _ =>
      (* Remove '[number]' *)
      let logline := Re.sub1_empty "\[\d*\]" logline in
      timestamp <- format_timestamp_from_logline now_year logline ;;
      match timestamp with
      | Some (t, kind) =>
          record <-
            (if kind =? 1 then
               let newline := Re.split "\s+" logline 5 in
               node <- item newline 3 ;;
               component <- item newline 4 ;;
               payload <- item newline 5 ;;
               Returns (str t, node, strip "/" (strip ":" component), payload)
             else if kind =? 2 then
               let newline := Re.split "\s+" logline 3 in
               node <- item newline 1 ;;
               component <- item newline 2 ;;
               payload <- item newline 3 ;;
               Returns (str t, node, strip "/" (strip ":" component), payload)
             else Raises UnboundLocalError) ;;
          Returns (insert_into conn record)
      | None => Returns conn
      end
  | None => Returns conn
  end.

(** The loop over the lines of one file. *)
Fixpoint parse_lines (now_year : Z) (lines : list string) (logtype : string)
         (conn : table) : outcome table :=
  match lines with
  | [] => Returns conn
  | line :: rest =>
      conn' <- parse_log_line now_year line logtype conn ;;
      parse_lines now_year rest logtype conn'
  end.

(** [logfile_parser]: a file is the list of its lines, or [None] when it
    cannot be opened ([OSError], logged and passed over). *)
Fixpoint logfile_parser (now_year : Z) (files : list (option (list string)))
         (log_type : string) (conn : table) : outcome table :=
  match files with
  | [] => Returns conn
  | Some lines :: rest =>
      conn' <- parse_lines now_year lines log_type conn ;;
      logfile_parser now_year rest log_type conn'
  | None :: rest => logfile_parser now_year rest log_type conn
  end.

(** [logparser] for plain log files: the system logs, then the pacemaker
    logs, then the rows [generate_output] writes. *)
Definition logparser (now_year : Z) (system_log pacemaker_log : list (option (list string)))
           (date_begin date_end : option datetime)
  : outcome (list (string * string * string * string)) :=
  conn <- logfile_parser now_year system_log "s" [] ;;
  conn <- logfile_parser now_year pacemaker_log "p" conn ;;
  Returns (sql_query date_begin date_end conn).

End LogParser.

Import Re Sqlite Datetime LogParser.

(** ** Orders and predicates used in the statements *)

(** The order [ORDER BY] sorts with, and the order of rowids. *)
Definition row_le (a b : row) : Prop := row_leb a b = true.

Definition rowid_lt (a b : row) : Prop := rowid a < rowid b.

(** The choice of pattern at the head of [parse_log_line]. *)
Definition keywords (logtype : string) : outcome string :=
  if String.eqb logtype "s" then Returns system_log_keywords
  else if String.eqb logtype "p" then Returns pacemaker_log_keywords
  else SysExit.

Definition is_none {A} (o : option A) : bool :=
  match o with Some _ => false | None => true end.

(** One of the two grammars finds a timestamp in the line and [strptime]
    rejects what it found. *)
Definition grammar_matched_unparsed (now_year : Z) (line : string) : bool :=
  match Re.search (fst time_format1) line with
  | Some m1 =>
      is_none (strptime (str_int now_year ++ " " ++ Re.group m1) (snd time_format1))
  | None =>
      match Re.search (fst time_format2) line with
      | Some m2 => is_none (strptime (Re.group m2) (snd time_format2))
      | None => false
      end
  end.

(** The names an expression binds. *)
Fixpoint binds (r : regex) (n : ascii) : bool :=
  match r with
  | Eps | Sym _ | Rep _ _ _ => false
  | Cat r1 r2 | Alt r1 r2 => binds r1 n || binds r2 n
  | Grp m r1 => Ascii.eqb m n || binds r1 n
  end.

(** The expression of [%Y], the expression of the rest of the first format,
    and the compiled syslog grammar. *)
Definition year_re : regex := Grp "Y" (Cat d_ (Cat d_ (Cat d_ d_))).

Definition after_year_re : regex :=
  Eval cbv in
    match pattern " %b %d %H:%M:%S" with Some r => r | None => Eps end.

Definition format1_re : regex :=
  Eval cbv in match compile (fst time_format1) with Some r => r | None => Eps end.

(** ** Sample timestamps, rows and lines *)

Definition t_2021_01_01 : datetime := mk 2021 1 1 0 0 0.

Definition t_2021_01_01_noon : datetime := mk 2021 1 1 12 0 0.

Definition t_2021_01_02 : datetime := mk 2021 1 2 0 0 0.

Definition row_noon : row :=
  mkrow 1 (str t_2021_01_01_noon) "node1" "stonith-ng" "reboot".

Definition row_begin : row :=
  mkrow 1 (str t_2021_01_01) "node1" "stonith-ng" "reboot".

(** Two inserts of the same four values; the payload satisfies R1 and R2. *)
Definition table_twins : table :=
  insert_into
    (insert_into [] (str t_2021_01_01_noon, "node1", "pacemaker-fenced",
                     "notice: remote_op_done: Operation reboot crit: failed"))
    (str t_2021_01_01_noon, "node1", "pacemaker-fenced",
     "notice: remote_op_done: Operation reboot crit: failed").

Definition twin1 : row :=
  mkrow 1 (str t_2021_01_01_noon) "node1" "pacemaker-fenced"
        "notice: remote_op_done: Operation reboot crit: failed".

Definition twin2 : row :=
  mkrow 2 (str t_2021_01_01_noon) "node1" "pacemaker-fenced"
        "notice: remote_op_done: Operation reboot crit: failed".

Definition nl : string := String (ascii_of_nat 10) "".

Definition line_remote_op_done : string :=
  "Jan 5 10:00:00 node1 stonith-ng: notice: remote_op_done: Operation 'reboot' targeting node2 by node1 for ...: OK".

Definition payload_remote_op_done : string :=
  "notice: remote_op_done: Operation 'reboot' targeting node2 by node1 for ...: OK".

Definition line_cli_prefer : string :=
  "Jan 5 10:00:00 node1 crm_resource: cli-prefer-rsc_ip created".

(** A last line cut short, and a short line that ends in a newline. *)
Definition line_truncated : string := "Jan  5 10:00:00 node1 reboot".

Definition line_short : string := "2021-01-05T10:00:00 reboot" ++ nl.

Definition line_hour_25 : string := "Jan  5 25:00:00 node1 stonith-ng: notice: fencing".

Definition line_month_13 : string := "2021-13-05T10:00:00 node1 stonith-ng: notice: fencing".

Definition line_good : string :=
  "2021-01-05T10:00:01 node1 pacemaker-fenced: notice: remote_op_done: Operation reboot".

Definition line_nov_22 : string :=
  "Nov 22 00:00:00 node1 corosync[1234]: [TOTEM ] Retransmit List: 1f".

(** ** The syslog timestamp as text *)

(** [calendar.month_abbr] of the C locale. *)
Definition month_abbr (m : Z) : string :=
  match m with
  | 1 => "Jan" | 2 => "Feb" | 3 => "Mar" | 4 => "Apr" | 5 => "May" | 6 => "Jun"
  | 7 => "Jul" | 8 => "Aug" | 9 => "Sep" | 10 => "Oct" | 11 => "Nov" | 12 => "Dec"
  | _ => ""
  end.

(** The day of the month in two columns: a day under 10 is written after
    the padding character [pad], a blank in syslog ([Jan  5]) or a zero
    ([Jan 05]). *)
Definition day_text (pad : ascii) (d : Z) : string :=
  if d <? 10 then String pad (String (digit_char d) "") else pad2 d.

(** The text [Mmm dd hh:mm:ss]. *)
Definition syslog_stamp (pad : ascii) (m d hh mi ss : Z) : string :=
  month_abbr m ++ " " ++ day_text pad d ++ " " ++
  pad2 hh ++ ":" ++ pad2 mi ++ ":" ++ pad2 ss.

(** The expressions of the directives of the first format. *)
Definition sp_re : regex := Rep (Class Space) 1 None.

Definition b_re : regex :=
  Eval cbv in match directive "b" with Some r => r | None => Eps end.

Definition d_re : regex :=
  Eval cbv in match directive "d" with Some r => r | None => Eps end.

Definition H_re : regex :=
  Eval cbv in match directive "H" with Some r => r | None => Eps end.

Definition M_re : regex :=
  Eval cbv in match directive "M" with Some r => r | None => Eps end.

Definition S_re : regex :=
  Eval cbv in match directive "S" with Some r => r | None => Eps end.

Definition line_jan_5 : string := "Jan  5 10:00:00 node1 corosync[1234]: [TOTEM ] Retransmit List: 1f".

Definition line_feb_29 : string := "Feb 29 00:00:00 node1 corosync[1234]: [TOTEM ] Retransmit List: 1f".

(** What is read after the day: the time, to the end of the text. *)
Definition time_re : regex :=
  Cat sp_re (Cat H_re (Cat (ch ":") (Cat M_re (Cat (ch ":") (Cat S_re Eps))))).

(** ** Definitions for the further facts *)

(** The lines of the files that can be opened, in reading order. *)
Definition lines_of (files : list (option (list string))) : list string :=
  concat (map (fun f => match f with Some lines => lines | None => [] end) files).

(** The row with another payload. *)
Definition with_payload (r : row) (payload : string) : row :=
  mkrow (rowid r) (TIME r) (NODE r) (COMPONENT r) payload.

(** ** Characters of a text *)

Fixpoint any_char (f : ascii -> bool) (s : string) : bool :=
  match s with
  | "" => false
  | String c t => f c || any_char f t
  end.

Definition has_digit (s : string) : bool := any_char is_digit s.

Definition has_space (s : string) : bool := any_char is_space s.

Definition first_char (s : string) : option ascii :=
  match s with
  | String c _ => Some c
  | "" => None
  end.

Definition last_char (s : string) : option ascii := first_char (srev s).

(** The expression cannot match without reading a digit. *)
Fixpoint must_digit (r : regex) : bool :=
  match r with
  | Eps => false
  | Sym (Class Digit) => true
  | Sym _ => false
  | Cat r1 r2 => must_digit r1 || must_digit r2
  | Alt r1 r2 => must_digit r1 && must_digit r2
  | Rep (Class Digit) lo _ => (1 <=? lo)%nat
  | Rep _ _ _ => false
  | Grp _ r1 => must_digit r1
  end.

(** The begin bound [wide] is not later than the begin bound [narrow]; no
    bound is the earliest begin. *)
Definition begin_le (wide narrow : option datetime) : Prop :=
  match wide, narrow with
  | None, _ => True
  | Some _, None => False
  | Some x, Some y => le x y
  end.

(** The end bound [narrow] is not later than the end bound [wide]; no bound
    is the latest end. *)
Definition end_le (narrow wide : option datetime) : Prop :=
  match narrow, wide with
  | _, None => True
  | None, Some _ => False
  | Some x, Some y => le x y
  end.

(** The fields a line of the kind splits into, and how many it needs. *)
Definition fields_of (kind : Z) (logline : string) : list string :=
  if kind =? 1 then Re.split "\s+" logline 5 else Re.split "\s+" logline 3.

Definition fields_needed (kind : Z) : nat := if kind =? 1 then 6%nat else 4%nat.

(** The record of a line of kind 1 or 2: made when the line has the fields
    the kind needs, [IndexError] otherwise. *)
Definition record_of (kind : Z) (t : datetime) (logline : string)
  : outcome (string * string * string * string) :=
  if kind =? 1 then
    let newline := Re.split "\s+" logline 5 in
    node <- item newline 3 ;;
    component <- item newline 4 ;;
    payload <- item newline 5 ;;
    Returns (str t, node, strip "/" (strip ":" component), payload)
  else if kind =? 2 then
    let newline := Re.split "\s+" logline 3 in
    node <- item newline 1 ;;
    component <- item newline 2 ;;
    payload <- item newline 3 ;;
    Returns (str t, node, strip "/" (strip ":" component), payload)
  else Raises UnboundLocalError.

(** ** [__init__]: the checks on the arguments *)

Module Init.

(** The parsed command line: [s], [p], [hb], [sos] are [None] or the list of
    file names given, [b] and [e] are [None] or the one text given. *)
Record variables := mk_variables
  { s : option (list string); p : option (list string);
    hb : option (list string); sos : option (list string);
    b : option string; e : option string }.

(** The attributes [__init__] sets. *)
Record config := mk_config
  { date_begin : option datetime; date_end : option datetime;
    system_log : option (list string); pacemaker_log : option (list string);
    hb_report : option (list string); SOSREPORT : option (list string);
    conn : table }.

Definition missing {A} (o : option A) : bool :=
  match o with Some _ => false | None => true end.

(** [if variables.x: self.date_x = self.format_timestamp_from_timeinput(variables.x[0])]. *)
Definition bound (text : option string) : outcome (option datetime) :=
  match text with
  | Some x => t <- format_timestamp_from_timeinput x ;; Returns (Some t)
  | None => Returns None
  end.

(** [if variables.x: if len(variables.x) > 2: sys.exit()]. *)
Definition at_most_two (files : option (list string)) : outcome unit :=
  match files with
  | Some l => if (2 <? List.length l)%nat then SysExit else Returns tt
  | None => Returns tt
  end.

Definition init (v : variables) : outcome config :=
  if missing (s v) && missing (p v) && missing (hb v) && missing (sos v) then SysExit
  else
    begin_ <- bound (b v) ;;
    end_ <- bound (e v) ;;
    _ <- match begin_, end_ with
         | Some tb, Some te =>
             (* if self.date_end <= self.date_begin: sys.exit() *)
             match Datetime.compare te tb with
             | Gt => Returns tt
             | _ => SysExit
             end
         | _, _ => Returns tt
         end ;;
    _ <- at_most_two (s v) ;;
    _ <- at_most_two (p v) ;;
    _ <- at_most_two (hb v) ;;
    _ <- at_most_two (sos v) ;;
    Returns (mk_config begin_ end_ (s v) (p v) (hb v) (sos v) []).

End Init.

(** The list has at most two names. *)
Definition short_list (files : option (list string)) : Prop :=
  match files with
  | Some l => (List.length l <= 2)%nat
  | None => True
  end.

(** The bounds, when both are given, are in order. *)
Definition in_order (date_begin date_end : option datetime) : Prop :=
  match date_begin, date_end with
  | Some tb, Some te => lt tb te
  | _, _ => True
  end.

(** ** [logparser]: the four kinds of source *)

Module Run.
Section Readers.

(** The readers of archives are not modelled: each is any function that
    changes the table or ends the run. *)
Variable hb_report_parser : string -> table -> outcome table.
Variable sosreport_parser : list string -> table -> outcome table.

(** [logparser] as it calls the readers one after the other: each source
    that was given, in the order system logs, pacemaker logs, hb_report,
    sosreport, then the rows [generate_output] writes.  [hb_report] and
    [SOSREPORT] are [None] or the list of names given. *)
Definition logparser (now_year : Z)
           (system_log pacemaker_log : list (option (list string)))
           (hb_report SOSREPORT : option (list string))
           (date_begin date_end : option datetime)
  : outcome (list (string * string * string * string)) :=
  conn <- match system_log with
          | [] => Returns []
          | _ => logfile_parser now_year system_log "s" []
          end ;;
  conn <- match pacemaker_log with
          | [] => Returns conn
          | _ => logfile_parser now_year pacemaker_log "p" conn
          end ;;
  conn <- match hb_report with
          | Some (file :: _) => hb_report_parser file conn
          | _ => Returns conn
          end ;;
  conn <- match SOSREPORT with
          | Some (file :: files) => sosreport_parser (file :: files) conn
          | _ => Returns conn
          end ;;
  Returns (sql_query date_begin date_end conn).

End Readers.
End Run.

(** ** Further samples *)

Definition sample_variables : Init.variables :=
  Init.mk_variables (Some ["messages"]%string) (Some ["pacemaker.log"; "pacemaker2.log"]%string)
    None None (Some "2021-01-01"%string) (Some "2021-01-02"%string).

Definition sample_config : Init.config :=
  Init.mk_config (Some t_2021_01_01) (Some t_2021_01_02)
    (Some ["messages"]%string) (Some ["pacemaker.log"; "pacemaker2.log"]%string)
    None None [].

Definition line_no_digit : string := "Last reboot of node: stonith-ng reports corosync down".

Definition line_system : string :=
  "2021-01-05T10:00:01 node1 fence_gce: ERROR reboot of node2 failed".

Definition row_system : row :=
  mkrow 1 "2021-01-05 10:00:01" "node1" "fence_gce" "ERROR reboot of node2 failed".

Definition row_pacemaker : row :=
  mkrow 2 "2021-01-05 10:00:01" "node1" "pacemaker-fenced"
        "notice: remote_op_done: Operation reboot".

(** * Facts *)

Lemma code_digit_char d :
  0 <= d < 10 -> code (digit_char d) = (48 + Z.to_nat d)%nat.
Proof.
  intros H. unfold code, digit_char.
  apply nat_ascii_embedding. lia.
Qed.

Lemma digit_compare a b :
  0 <= a < 10 -> 0 <= b < 10 ->
  Nat.compare (code (digit_char a)) (code (digit_char b)) = (a ?= b).
Proof.
  intros Ha Hb. rewrite !code_digit_char by assumption.
  destruct (Z.compare_spec a b) as [E | L | G].
  - subst. apply Nat.compare_refl.
  - apply Nat.compare_lt_iff. lia.
  - apply Nat.compare_gt_iff. lia.
Qed.

Lemma two_digits_compare h l h' l' :
  0 <= l < 10 -> 0 <= l' < 10 ->
  and_then (h ?= h') (l ?= l') = (10 * h + l ?= 10 * h' + l').
Proof.
  intros Hl Hl'.
  destruct (Z.compare_spec h h') as [E1 | L1 | G1];
    destruct (Z.compare_spec l l') as [E2 | L2 | G2]; cbn [and_then]; symmetry;
    solve [ apply Z.compare_eq_iff; lia
          | apply Z.compare_lt_iff; lia
          | apply Z.compare_gt_iff; lia ].
Qed.

Lemma and_then_assoc c d e : and_then (and_then c d) e = and_then c (and_then d e).
Proof. destruct c; reflexivity. Qed.

Lemma str_compare_cons x y a b :
  str_compare (String x a) (String y b)
  = and_then (Nat.compare (code x) (code y)) (str_compare a b).
Proof. cbn [str_compare]. destruct (Nat.compare (code x) (code y)); reflexivity. Qed.

Lemma pad2_compare a b r r' :
  0 <= a < 100 -> 0 <= b < 100 ->
  str_compare (pad2 a ++ r) (pad2 b ++ r') = and_then (a ?= b) (str_compare r r').
Proof.
  intros Ha Hb. unfold pad2.
  cbn [append]. rewrite !str_compare_cons.
  rewrite !digit_compare by (apply Z.mod_pos_bound; lia).
  rewrite <- and_then_assoc.
  rewrite two_digits_compare by (apply Z.mod_pos_bound; lia).
  replace (10 * (a / 10 mod 10) + a mod 10) with a by (Z.div_mod_to_equations; lia).
  replace (10 * (b / 10 mod 10) + b mod 10) with b by (Z.div_mod_to_equations; lia).
  reflexivity.
Qed.

Lemma pad4_compare a b r r' :
  0 <= a < 10000 -> 0 <= b < 10000 ->
  str_compare (pad4 a ++ r) (pad4 b ++ r') = and_then (a ?= b) (str_compare r r').
Proof.
  intros Ha Hb. unfold pad4, pad2.
  cbn [append]. rewrite !str_compare_cons.
  rewrite !digit_compare by (apply Z.mod_pos_bound; lia).
  rewrite <- !and_then_assoc.
  rewrite !two_digits_compare by (apply Z.mod_pos_bound; lia).
  replace (10 * (10 * (10 * (a / 1000 mod 10) + a / 100 mod 10) + a / 10 mod 10) + a mod 10)
    with a by (Z.div_mod_to_equations; lia).
  replace (10 * (10 * (10 * (b / 1000 mod 10) + b / 100 mod 10) + b / 10 mod 10) + b mod 10)
    with b by (Z.div_mod_to_equations; lia).
  reflexivity.
Qed.

Lemma within_spec lo hi x : within lo hi x = true <-> lo <= x <= hi.
Proof. unfold within. rewrite andb_true_iff, !Z.leb_le. tauto. Qed.

Lemma days_in_month_le y m : days_in_month y m <= 31.
Proof.
  unfold days_in_month.
  destruct (m =? 2); [destruct (is_leap y); lia |].
  destruct ((m =? 4) || (m =? 6) || (m =? 9) || (m =? 11))%bool; lia.
Qed.

(** The ranges of the fields of a value the constructor accepts. *)
Lemma valid_ranges t :
  valid t ->
  1 <= year t <= 9999 /\ 1 <= month t <= 12 /\ 1 <= day t <= 31 /\
  0 <= hour t <= 23 /\ 0 <= minute t <= 59 /\ 0 <= second t <= 59.
Proof.
  unfold valid, in_range. rewrite !andb_true_iff, !within_spec.
  pose proof (days_in_month_le (year t) (month t)). lia.
Qed.

Lemma str_compare_sep c a b :
  str_compare (String c a) (String c b) = str_compare a b.
Proof. rewrite str_compare_cons, Nat.compare_refl. reflexivity. Qed.

(** Printed timestamps compare as text the way the timestamps compare in
    time. *)
Lemma str_compare_str a b :
  valid a -> valid b -> str_compare (str a) (str b) = Datetime.compare a b.
Proof.
  intros Va Vb.
  apply valid_ranges in Va. apply valid_ranges in Vb.
  unfold str, Datetime.compare.
  rewrite pad4_compare by lia.
  cbn [append]. rewrite str_compare_sep.
  rewrite pad2_compare by lia. cbn [append]. rewrite str_compare_sep.
  rewrite pad2_compare by lia. cbn [append]. rewrite str_compare_sep.
  rewrite pad2_compare by lia. cbn [append]. rewrite str_compare_sep.
  rewrite pad2_compare by lia. cbn [append]. rewrite str_compare_sep.
  replace (pad2 (second a)) with (pad2 (second a) ++ "")%string by reflexivity.
  replace (pad2 (second b)) with (pad2 (second b) ++ "")%string by reflexivity.
  rewrite pad2_compare by lia.
  cbn [str_compare].
  destruct (second a ?= second b); reflexivity.
Qed.

Lemma str_ltb_str a b :
  valid a -> valid b -> (str_ltb (str a) (str b) = true <-> lt a b).
Proof.
  intros Va Vb. unfold str_ltb, lt. rewrite str_compare_str by assumption.
  destruct (Datetime.compare a b); split; congruence.
Qed.

Lemma and_then_Eq c d : and_then c d = Eq <-> c = Eq /\ d = Eq.
Proof. destruct c, d; simpl; split; (intros [? ?] || intro); try congruence; auto. Qed.

Lemma compare_refl t : Datetime.compare t t = Eq.
Proof. unfold Datetime.compare. rewrite !Z.compare_refl. reflexivity. Qed.

Lemma lt_irrefl t : ~ lt t t.
Proof. unfold lt. rewrite compare_refl. discriminate. Qed.

Lemma compare_eq a b : Datetime.compare a b = Eq -> a = b.
Proof.
  unfold Datetime.compare. rewrite !and_then_Eq, !Z.compare_eq_iff.
  destruct a, b; simpl. intuition congruence.
Qed.

(** Printing is one-to-one on the values the constructor accepts. *)
Lemma str_inj a b : valid a -> valid b -> str a = str b -> a = b.
Proof.
  intros Va Vb E. apply compare_eq.
  rewrite <- str_compare_str by assumption. rewrite E.
  clear. induction (str b) as [| c s IH]; [reflexivity |].
  rewrite str_compare_sep. exact IH.
Qed.

(** ** Text order *)

Lemma str_compare_eq a : forall b, str_compare a b = Eq <-> a = b.
Proof.
  induction a as [| x a IH]; intros [| y b]; simpl; try (split; congruence).
  destruct (Nat.compare_spec (code x) (code y)) as [E | L | G].
  - rewrite IH. unfold code in E.
    assert (x = y) by (rewrite <- (ascii_nat_embedding x), <- (ascii_nat_embedding y); congruence).
    subst. split; congruence.
  - split; [discriminate | intros [= -> _]; lia].
  - split; [discriminate | intros [= -> _]; lia].
Qed.

Lemma str_compare_refl a : str_compare a a = Eq.
Proof. apply str_compare_eq. reflexivity. Qed.

Lemma str_compare_antisym a : forall b, str_compare b a = CompOpp (str_compare a b).
Proof.
  induction a as [| x a IH]; intros [| y b]; simpl; try reflexivity.
  rewrite (Nat.compare_antisym (code x) (code y)).
  destruct (Nat.compare (code x) (code y)); simpl; auto.
Qed.

Lemma str_compare_trans a : forall b c,
  str_compare a b = Lt -> str_compare b c = Lt -> str_compare a c = Lt.
Proof.
  induction a as [| x a IH]; intros [| y b] [| z c]; simpl; try congruence.
  destruct (Nat.compare_spec (code x) (code y)) as [E1 | L1 | G1]; try discriminate;
    destruct (Nat.compare_spec (code y) (code z)) as [E2 | L2 | G2]; try discriminate;
    intros H1 H2.
  - rewrite E1, E2, Nat.compare_refl. eauto.
  - rewrite E1. apply Nat.compare_lt_iff in L2. rewrite L2. reflexivity.
  - rewrite <- E2. apply Nat.compare_lt_iff in L1. rewrite L1. reflexivity.
  - assert (L : (code x < code z)%nat) by lia.
    apply Nat.compare_lt_iff in L. rewrite L. reflexivity.
Qed.

(** ** [ORDER BY] *)

Lemma row_leb_total a b : row_leb a b = false -> row_leb b a = true.
Proof.
  unfold row_leb. rewrite (str_compare_antisym (TIME a) (TIME b)).
  destruct (str_compare (TIME a) (TIME b)); simpl; try congruence.
  intros H. apply Z.leb_gt in H. apply Z.leb_le. lia.
Qed.

Lemma row_leb_trans a b c :
  row_leb a b = true -> row_leb b c = true -> row_leb a c = true.
Proof.
  unfold row_leb.
  destruct (str_compare (TIME a) (TIME b)) eqn:E1; try discriminate;
    destruct (str_compare (TIME b) (TIME c)) eqn:E2; try discriminate.
  - apply str_compare_eq in E1. apply str_compare_eq in E2.
    rewrite E1, E2, str_compare_refl, !Z.leb_le. lia.
  - apply str_compare_eq in E1. rewrite E1, E2. auto.
  - apply str_compare_eq in E2. rewrite <- E2, E1. auto.
  - rewrite (str_compare_trans _ _ _ E1 E2). auto.
Qed.

Lemma place_perm x l : Permutation (place x l) (x :: l).
Proof.
  induction l as [| y t IH]; simpl; [reflexivity |].
  destruct (row_leb x y); [reflexivity |].
  rewrite IH. apply perm_swap.
Qed.

Lemma order_by_perm l : Permutation (order_by l) l.
Proof.
  induction l as [| x t IH]; simpl; [reflexivity |].
  rewrite place_perm. constructor. exact IH.
Qed.

Lemma place_sorted x l :
  StronglySorted row_le l -> StronglySorted row_le (place x l).
Proof.
  induction 1 as [| y t St IH Hy]; simpl.
  - constructor; constructor.
  - destruct (row_leb x y) eqn:E.
    + constructor; [constructor; assumption |].
      constructor; [exact E |].
      eapply Forall_impl; [| exact Hy].
      intros z Hz. eapply row_leb_trans; eassumption.
    + constructor; [exact IH |].
      eapply Permutation_Forall; [symmetry; apply place_perm |].
      constructor; [apply row_leb_total; exact E | exact Hy].
Qed.

Lemma order_by_sorted l : StronglySorted row_le (order_by l).
Proof.
  induction l as [| x t IH]; simpl; [constructor | apply place_sorted; exact IH].
Qed.

(** ** [UNION] *)

Lemma In_union r qs : In r (union qs) <-> exists q, In q qs /\ In r q.
Proof.
  unfold union. rewrite nodup_In, in_concat. reflexivity.
Qed.

Lemma NoDup_union qs : NoDup (union qs).
Proof. apply NoDup_nodup. Qed.

(** ** The query *)

Lemma data_filter b e log : data b e log = filter (in_window b e) log.
Proof.
  unfold data, in_window, select_where.
  destruct (time b e); [reflexivity |].
  induction log as [| r t IH]; simpl; congruence.
Qed.

Lemma critical_spec r : critical r = true <-> exists rule, In rule rules /\ rule r = true.
Proof. unfold critical. apply existsb_exists. Qed.

(** The rows of the compound query: the rows the rules read that satisfy
    some rule. *)
Lemma In_matches b e log r :
  In r (matches b e log) <-> In r log /\ in_window b e r = true /\ critical r = true.
Proof.
  unfold matches.
  split.
  - intros H. apply (Permutation_in _ (order_by_perm _)) in H.
    apply In_union in H. destruct H as (q & Hq & Hr).
    apply in_map_iff in Hq. destruct Hq as (rule & <- & Hrule).
    unfold select_where in Hr. apply filter_In in Hr. destruct Hr as [Hd Ht].
    rewrite data_filter in Hd. apply filter_In in Hd.
    repeat split; try tauto. apply critical_spec. eauto.
  - intros (Hl & Hw & Hc). apply critical_spec in Hc. destruct Hc as (rule & Hrule & Ht).
    apply (Permutation_in _ (Permutation_sym (order_by_perm _))).
    apply In_union. exists (select_where rule (data b e log)). split.
    + apply in_map_iff. eauto.
    + apply filter_In. split; [| exact Ht].
      rewrite data_filter. apply filter_In. auto.
Qed.

Lemma NoDup_matches b e log : NoDup (matches b e log).
Proof.
  unfold matches. eapply Permutation_NoDup; [symmetry; apply order_by_perm |].
  apply NoDup_union.
Qed.

(** ** Tables built by inserts *)

Lemma max_rowid_cons x t : max_rowid (x :: t) = Z.max (rowid x) (max_rowid t).
Proof. reflexivity. Qed.

Lemma max_rowid_bound t r : In r t -> rowid r <= max_rowid t.
Proof.
  induction t as [| x t IH]; [intros [] |].
  rewrite max_rowid_cons. intros [-> | H]; [lia | specialize (IH H); lia].
Qed.

Lemma StronglySorted_snoc (R : row -> row -> Prop) l x :
  StronglySorted R l -> Forall (fun y => R y x) l -> StronglySorted R (l ++ [x]).
Proof.
  induction 1 as [| y t St IH Hy]; simpl; intros F.
  - constructor; constructor.
  - inversion F; subst. constructor; [auto |].
    apply Forall_app. split; [assumption | constructor; [assumption | constructor]].
Qed.

(** Rowids grow along a table built by inserts. *)
Lemma stored_rowids conn : stored conn -> StronglySorted rowid_lt conn.
Proof.
  induction 1 as [| conn t n c p St IH Vt]; [constructor |].
  unfold insert_into. apply StronglySorted_snoc; [exact IH |].
  apply Forall_forall. intros y Hy. unfold rowid_lt. simpl.
  pose proof (max_rowid_bound _ _ Hy). lia.
Qed.

Lemma stored_stamped conn : stored conn -> forall r, In r conn -> exists t, stamped r t.
Proof.
  induction 1 as [| conn t n c p St IH Vt]; [intros r [] |].
  intros r Hr. unfold insert_into in Hr. apply in_app_or in Hr.
  destruct Hr as [Hr | [<- | []]]; [auto |].
  exists t. split; [assumption | reflexivity].
Qed.

Lemma sorted_app_inv (R : row -> row -> Prop) l1 x l2 :
  StronglySorted R (l1 ++ x :: l2) -> Forall (R x) l2.
Proof.
  induction l1 as [| y l1 IH]; simpl; intros H; inversion H; subst; auto.
Qed.

Lemma inserted_before conn l1 x l2 y l3 :
  stored conn -> conn = l1 ++ x :: l2 ++ y :: l3 -> rowid x < rowid y.
Proof.
  intros St ->. apply stored_rowids in St. apply sorted_app_inv in St.
  rewrite Forall_forall in St. apply St. apply in_or_app. right. left. reflexivity.
Qed.

Lemma sorted_NoDup l : StronglySorted rowid_lt l -> NoDup l.
Proof.
  induction 1 as [| x t St IH Hx]; constructor; [| exact IH].
  intros Hin. rewrite Forall_forall in Hx. specialize (Hx _ Hin).
  unfold rowid_lt in Hx. lia.
Qed.

Lemma stored_NoDup conn : stored conn -> NoDup conn.
Proof. intros H. apply sorted_NoDup, stored_rowids, H. Qed.

(** Two different rows of a table have different rowids. *)
Lemma stored_rowid_inj conn x y :
  stored conn -> In x conn -> In y conn -> rowid x = rowid y -> x = y.
Proof.
  intros St. apply stored_rowids in St.
  induction St as [| z t St IH Hz]; [intros [] |].
  rewrite Forall_forall in Hz. unfold rowid_lt in Hz.
  intros [-> | Hx] [-> | Hy] E; auto.
  - specialize (Hz _ Hy). lia.
  - specialize (Hz _ Hx). lia.
Qed.

(** ** The time window *)

Lemma in_window_spec b e r t :
  bound_valid b -> bound_valid e -> stamped r t ->
  (in_window b e r = true <-> after b t /\ before e t).
Proof.
  intros Vb Ve [Vt Et]. unfold in_window, time, after, before.
  destruct b as [b |], e as [e |]; simpl in Vb, Ve; rewrite ?Et;
    rewrite ?andb_true_iff, ?str_ltb_str by assumption; tauto.
Qed.

(** C1. The window of the classification query is open at both ends: with a
    begin bound only rows whose timestamp is later than it are read by the
    rules, with an end bound only rows whose timestamp is earlier than it; a
    row stamped exactly [begin] or exactly [end] is left out, and without
    bounds every stored row is read. *)
Theorem window_open_at_both_ends :
  forall date_begin date_end conn r t,
    bound_valid date_begin -> bound_valid date_end ->
    In r conn -> stamped r t ->
    (In r (data date_begin date_end conn) <-> after date_begin t /\ before date_end t)
    /\ (In r (matches date_begin date_end conn)
        <-> after date_begin t /\ before date_end t /\ critical r = true)
    /\ ~ In r (data (Some t) date_end conn)
    /\ ~ In r (data date_begin (Some t) conn)
    /\ In r (data None None conn).
Proof.
  intros b e conn r t Vb Ve Hr St.
  assert (D : forall b' e', bound_valid b' -> bound_valid e' ->
                (In r (data b' e' conn) <-> after b' t /\ before e' t)).
  { intros b' e' Vb' Ve'. pose proof (in_window_spec b' e' Vb' Ve' St) as W.
    rewrite data_filter, filter_In. tauto. }
  pose proof (proj1 St) as Vt.
  split; [apply D; assumption |]. split.
  { rewrite In_matches. pose proof (in_window_spec b e Vb Ve St). tauto. }
  repeat split.
  - intros H. apply D in H; [| exact Vt | exact Ve]. destruct H as [H _]. exact (lt_irrefl H).
  - intros H. apply D in H; [| exact Vb | exact Vt]. destruct H as [_ H]. exact (lt_irrefl H).
  - apply D; simpl; auto.
Qed.

Lemma window_open_at_both_ends_witness :
  (In row_noon (data (Some t_2021_01_01) (Some t_2021_01_02) [row_noon])
   <-> after (Some t_2021_01_01) t_2021_01_01_noon
       /\ before (Some t_2021_01_02) t_2021_01_01_noon)
  /\ (In row_noon (matches (Some t_2021_01_01) (Some t_2021_01_02) [row_noon])
      <-> after (Some t_2021_01_01) t_2021_01_01_noon
          /\ before (Some t_2021_01_02) t_2021_01_01_noon /\ critical row_noon = true)
  /\ ~ In row_noon (data (Some t_2021_01_01_noon) (Some t_2021_01_02) [row_noon])
  /\ ~ In row_noon (data (Some t_2021_01_01) (Some t_2021_01_01_noon) [row_noon])
  /\ In row_noon (data None None [row_noon]).
Proof.
  apply (@window_open_at_both_ends (Some t_2021_01_01) (Some t_2021_01_02) [row_noon]
           row_noon t_2021_01_01_noon).
  - reflexivity.
  - reflexivity.
  - simpl. left. reflexivity.
  - split; reflexivity.
Defined.

(** ** The range filter *)

(** C9 (as amended). The filter on TIME returns the stored rows whose
    timestamp lies strictly between the bounds, [begin < timestamp < end],
    either bound omissible: the window is open at the begin bound too. *)
Theorem data_strictly_between :
  forall date_begin date_end conn,
    bound_valid date_begin -> bound_valid date_end -> stored conn ->
    forall r,
      In r (data date_begin date_end conn)
      <-> In r conn /\ exists t, stamped r t /\ after date_begin t /\ before date_end t.
Proof.
  intros b e conn Vb Ve St r. rewrite data_filter, filter_In. split.
  - intros [Hr W]. split; [exact Hr |].
    destruct (stored_stamped St _ Hr) as [t Ht]. exists t. split; [exact Ht |].
    apply (in_window_spec b e Vb Ve Ht). exact W.
  - intros [Hr (t & Ht & HA)]. split; [exact Hr |].
    apply (in_window_spec b e Vb Ve Ht). exact HA.
Qed.

Lemma data_strictly_between_witness :
  In row_noon (data (Some t_2021_01_01) (Some t_2021_01_02) [row_noon])
  <-> In row_noon [row_noon]
      /\ exists t, stamped row_noon t /\ after (Some t_2021_01_01) t
                   /\ before (Some t_2021_01_02) t.
Proof.
  apply (@data_strictly_between (Some t_2021_01_01) (Some t_2021_01_02) [row_noon]).
  - reflexivity.
  - reflexivity.
  - exact (stored_insert "node1" "stonith-ng" "reboot" stored_empty
             (eq_refl : valid t_2021_01_01_noon)).
Defined.

(** A row stamped exactly [begin] satisfies [begin <= timestamp < end] and is
    not returned. *)
Lemma closed_begin_counterexample :
  In row_begin [row_begin] /\ stamped row_begin t_2021_01_01
  /\ le t_2021_01_01 t_2021_01_01 /\ lt t_2021_01_01 t_2021_01_02
  /\ ~ In row_begin (data (Some t_2021_01_01) (Some t_2021_01_02) [row_begin]).
Proof.
  repeat split.
  - left. reflexivity.
  - discriminate.
  - intros [].
Qed.

(** ** Union over record identity *)

Lemma count_occ_map_filter (q : row -> bool) v l :
  count_occ columns_eq_dec (map columns (filter q l)) v
  = length (filter (fun r => q r && if columns_eq_dec (columns r) v then true else false) l).
Proof.
  induction l as [| r t IH]; [reflexivity |].
  cbn [filter]. destruct (q r); cbn [andb map]; [| exact IH].
  cbn [count_occ]. destruct (columns_eq_dec (columns r) v); cbn [length]; congruence.
Qed.

Lemma matches_perm b e conn :
  NoDup conn ->
  Permutation (matches b e conn) (filter (fun r => in_window b e r && critical r) conn).
Proof.
  intros ND. apply NoDup_Permutation.
  - apply NoDup_matches.
  - apply NoDup_filter. exact ND.
  - intros r. rewrite In_matches, filter_In, andb_true_iff. tauto.
Qed.

(** C2. A row that satisfies one, two or more of the rules R1..R8 is in the
    result of the compound query exactly once (and a row outside the window
    or satisfying no rule is not in it); the report has one line per such
    row, so two different rows with the same four field values give two
    lines. *)
Theorem union_over_record_identity :
  forall date_begin date_end conn,
    stored conn ->
    (forall r, In r conn ->
       count_occ row_eq_dec (matches date_begin date_end conn) r
       = if in_window date_begin date_end r && critical r then 1%nat else 0%nat)
    /\ (forall v,
          count_occ columns_eq_dec (sql_query date_begin date_end conn) v
          = length (filter (fun r => in_window date_begin date_end r && critical r
                                     && if columns_eq_dec (columns r) v then true else false)
                      conn)).
Proof.
  intros b e conn St. split.
  - intros r Hr.
    pose proof (NoDup_matches b e conn) as ND.
    rewrite (NoDup_count_occ row_eq_dec) in ND. specialize (ND r).
    destruct (in_window b e r && critical r) eqn:Q.
    + apply andb_true_iff in Q.
      assert (H : In r (matches b e conn)) by (apply In_matches; tauto).
      apply (count_occ_In row_eq_dec) in H. lia.
    + apply count_occ_not_In. rewrite In_matches. intros (_ & W & C).
      rewrite W, C in Q. discriminate.
  - intros v. unfold sql_query.
    rewrite <- count_occ_map_filter.
    apply Permutation_count_occ. apply Permutation_map.
    apply matches_perm. apply stored_NoDup. exact St.
Qed.

Lemma stored_twins : stored table_twins.
Proof.
  exact (stored_insert "node1" "pacemaker-fenced"
           "notice: remote_op_done: Operation reboot crit: failed"
           (stored_insert "node1" "pacemaker-fenced"
              "notice: remote_op_done: Operation reboot crit: failed"
              stored_empty (eq_refl : valid t_2021_01_01_noon))
           (eq_refl : valid t_2021_01_01_noon)).
Defined.

Lemma union_over_record_identity_witness :
  R1 twin1 = true /\ R2 twin1 = true
  /\ count_occ row_eq_dec (matches None None table_twins) twin1 = 1%nat
  /\ count_occ columns_eq_dec (sql_query None None table_twins) (columns twin1) = 2%nat.
Proof.
  destruct (@union_over_record_identity None None table_twins stored_twins) as [A B].
  split; [reflexivity |]. split; [reflexivity |]. split.
  - exact (A twin1 (or_introl eq_refl)).
  - exact (B (columns twin1)).
Defined.

(** ** Order of the report *)

Lemma row_le_before x y :
  row_le x y -> rowid x <> rowid y -> row_before x y.
Proof.
  unfold row_le, row_leb, row_before.
  destruct (str_compare (TIME x) (TIME y)) eqn:E; try discriminate.
  - intros H N. apply Z.leb_le in H. apply str_compare_eq in E. right. split; [exact E | lia].
  - intros _ _. left. reflexivity.
Qed.

Lemma StronglySorted_weaken (R Q : row -> row -> Prop) l :
  StronglySorted R l ->
  (forall l1 x l2 y l3, l = l1 ++ x :: l2 ++ y :: l3 -> R x y -> Q x y) ->
  StronglySorted Q l.
Proof.
  induction 1 as [| x t St IH Hx]; intros W; constructor.
  - apply IH. intros l1 a l2 c l3 E. apply (W (x :: l1) a l2 c l3). rewrite E. reflexivity.
  - rewrite Forall_forall in *. intros y Hy.
    destruct (in_split _ _ Hy) as (l2 & l3 & E).
    apply (W [] x l2 y l3); [rewrite E; reflexivity | auto].
Qed.

Lemma NoDup_split_neq (l1 : list row) x l2 y l3 :
  NoDup (l1 ++ x :: l2 ++ y :: l3) -> x <> y.
Proof.
  intros ND E. subst y. apply NoDup_remove_2 in ND. apply ND.
  apply in_or_app. right. apply in_or_app. right. left. reflexivity.
Qed.

(** The compound query lists its rows by strictly growing (TIME, rowid). *)
Lemma matches_sorted b e conn :
  stored conn -> StronglySorted row_before (matches b e conn).
Proof.
  intros St.
  apply StronglySorted_weaken with (R := row_le).
  - unfold matches. apply order_by_sorted.
  - intros l1 x l2 y l3 E Hle. apply row_le_before; [exact Hle |].
    intros Hid.
    assert (Hx : In x (matches b e conn)).
    { rewrite E. apply in_or_app. right. left. reflexivity. }
    assert (Hy : In y (matches b e conn)).
    { rewrite E. apply in_or_app. right. right. apply in_or_app. right. left. reflexivity. }
    apply In_matches in Hx. apply In_matches in Hy.
    assert (x = y) by (eapply stored_rowid_inj; (eassumption || tauto)).
    pose proof (NoDup_matches b e conn) as ND. rewrite E in ND.
    exact (@NoDup_split_neq _ _ _ _ _ ND H).
Qed.

Lemma row_before_irrefl x : ~ row_before x x.
Proof.
  unfold row_before. rewrite str_compare_refl. intros [H | [_ H]]; [discriminate | lia].
Qed.

Lemma row_before_asym x y : row_before x y -> row_before y x -> False.
Proof.
  unfold row_before. intros [H1 | [E1 L1]] [H2 | [E2 L2]].
  - rewrite (str_compare_antisym (TIME x) (TIME y)), H1 in H2. discriminate.
  - rewrite E2, str_compare_refl in H1. discriminate.
  - rewrite E1, str_compare_refl in H2. discriminate.
  - lia.
Qed.

(** Of two different members of a list one comes first. *)
Lemma in_two_split (l : list row) x y :
  In x l -> In y l -> x <> y ->
  (exists l1 l2 l3, l = l1 ++ x :: l2 ++ y :: l3)
  \/ (exists l1 l2 l3, l = l1 ++ y :: l2 ++ x :: l3).
Proof.
  induction l as [| z t IH]; [intros [] |].
  intros [-> | Hx] [-> | Hy] N.
  - congruence.
  - left. destruct (in_split _ _ Hy) as (l2 & l3 & ->). exists [], l2, l3. reflexivity.
  - right. destruct (in_split _ _ Hx) as (l2 & l3 & ->). exists [], l2, l3. reflexivity.
  - destruct (IH Hx Hy N) as [(l1 & l2 & l3 & ->) | (l1 & l2 & l3 & ->)];
      [left | right]; exists (z :: l1), l2, l3; reflexivity.
Qed.

Lemma sorted_split_rel (R : row -> row -> Prop) l1 x l2 y l3 :
  StronglySorted R (l1 ++ x :: l2 ++ y :: l3) -> R x y.
Proof.
  intros H. apply sorted_app_inv in H. rewrite Forall_forall in H. apply H.
  apply in_or_app. right. left. reflexivity.
Qed.

(** The order on rows read on their timestamps. *)
Lemma row_before_chronological x y tx ty :
  stamped x tx -> stamped y ty -> row_before x y ->
  lt tx ty \/ (tx = ty /\ rowid x < rowid y).
Proof.
  intros [Vx Ex] [Vy Ey] [H | [E L]].
  - left. unfold lt. rewrite <- str_compare_str by assumption. congruence.
  - right. split; [| exact L]. apply str_inj; congruence.
Qed.

(** C3. The rows of the report come by ascending (timestamp, insertion
    sequence): every row is before every later row of the result in that
    order, read on TIME as text and, for stamped rows, on the timestamps
    themselves; the rowid grows with the order of insertion; and of two rows
    with the same timestamp, both in the result, the one inserted first is
    listed first. *)
Theorem report_order :
  forall date_begin date_end conn,
    stored conn ->
    StronglySorted row_before (matches date_begin date_end conn)
    /\ sql_query date_begin date_end conn = map columns (matches date_begin date_end conn)
    /\ (forall m1 x m2 y m3 tx ty,
          matches date_begin date_end conn = m1 ++ x :: m2 ++ y :: m3 ->
          stamped x tx -> stamped y ty ->
          lt tx ty \/ (tx = ty /\ rowid x < rowid y))
    /\ (forall l1 x l2 y l3,
          conn = l1 ++ x :: l2 ++ y :: l3 ->
          rowid x < rowid y
          /\ (TIME x = TIME y ->
              In x (matches date_begin date_end conn) ->
              In y (matches date_begin date_end conn) ->
              exists m1 m2 m3,
                matches date_begin date_end conn = m1 ++ x :: m2 ++ y :: m3
                /\ sql_query date_begin date_end conn
                   = map columns m1 ++ columns x :: map columns m2
                     ++ columns y :: map columns m3)).
Proof.
  intros b e conn St.
  pose proof (matches_sorted b e St) as Srt.
  split; [exact Srt |]. split; [reflexivity |]. split.
  - intros m1 x m2 y m3 tx ty E Sx Sy.
    apply (row_before_chronological Sx Sy).
    rewrite E in Srt. exact (@sorted_split_rel _ _ _ _ _ _ Srt).
  - intros l1 x l2 y l3 E.
    pose proof (@inserted_before _ _ _ _ _ _ St E) as L.
    split; [exact L |]. intros ET Hx Hy.
    assert (N : x <> y) by (intros ->; lia).
    destruct (@in_two_split _ _ _ Hx Hy N) as [(m1 & m2 & m3 & Em) | (m1 & m2 & m3 & Em)].
    + exists m1, m2, m3. split; [exact Em |].
      unfold sql_query. rewrite Em.
      rewrite map_app. cbn [map]. rewrite map_app. reflexivity.
    + exfalso. rewrite Em in Srt. apply sorted_split_rel in Srt.
      destruct Srt as [H | [_ H]]; [| lia].
      rewrite ET, str_compare_refl in H. discriminate.
Qed.

Lemma report_order_witness :
  StronglySorted row_before (matches None None table_twins)
  /\ sql_query None None table_twins = map columns (matches None None table_twins)
  /\ (lt t_2021_01_01_noon t_2021_01_01_noon
      \/ (t_2021_01_01_noon = t_2021_01_01_noon /\ rowid twin1 < rowid twin2))
  /\ rowid twin1 < rowid twin2
  /\ exists m1 m2 m3,
       matches None None table_twins = m1 ++ twin1 :: m2 ++ twin2 :: m3
       /\ sql_query None None table_twins
          = map columns m1 ++ columns twin1 :: map columns m2
            ++ columns twin2 :: map columns m3.
Proof.
  destruct (@report_order None None table_twins stored_twins) as (S & Q & C & I).
  split; [exact S |]. split; [exact Q |]. split.
  - apply (C [] twin1 [] twin2 [] t_2021_01_01_noon t_2021_01_01_noon).
    + reflexivity.
    + split; reflexivity.
    + split; reflexivity.
  - destruct (I [] twin1 [] twin2 [] eq_refl) as [L E].
    split; [exact L |]. apply E.
    + reflexivity.
    + vm_compute. left. reflexivity.
    + vm_compute. right. left. reflexivity.
Defined.

(** ** Keyword patterns *)

Lemma starts_with_cons c l s :
  starts_with (String c l) s = true <-> exists t, s = String c t /\ starts_with l t = true.
Proof.
  destruct s as [| d t]; simpl.
  - split; [discriminate | intros (t & E & _); discriminate].
  - rewrite andb_true_iff, Ascii.eqb_eq. split.
    + intros [-> H]. eauto.
    + intros (t' & [= -> ->] & H). auto.
Qed.

(** A plain text matches only at the start of a string that begins with it. *)
Lemma lit_of_sound A r : forall l s g (k : string -> groups -> option A) x,
  lit_of r = Some l -> matchk false r s g k = Some x -> starts_with l s = true.
Proof.
  induction r as [| a | r1 IH1 r2 IH2 | | |]; intros l s g k x L M; try discriminate.
  - injection L as <-. reflexivity.
  - destruct a as [c | |]; try discriminate. injection L as <-.
    simpl in M. destruct s as [| d t]; [discriminate |].
    simpl in M. destruct (Ascii.eqb c d) eqn:E; [| discriminate].
    apply Ascii.eqb_eq in E. subst d. simpl. rewrite Ascii.eqb_refl. reflexivity.
  - simpl in L. destruct r1 as [| [c | |] | | | |]; try discriminate.
    destruct (lit_of r2) as [l2 |] eqn:L2; [| discriminate]. injection L as <-.
    simpl in M. destruct s as [| d t]; [discriminate |].
    simpl in M. destruct (Ascii.eqb c d) eqn:E; [| discriminate].
    apply Ascii.eqb_eq in E. subst d. simpl. rewrite Ascii.eqb_refl. simpl.
    eapply IH2; [reflexivity | exact M].
Qed.

Lemma cues_of_sound A r : forall ls s g (k : string -> groups -> option A) x,
  cues_of r = Some ls -> matchk false r s g k = Some x ->
  exists l, In l ls /\ starts_with l s = true.
Proof.
  assert (Base : forall r ls s g (k : string -> groups -> option A) x,
             match lit_of r with Some l => Some [l] | None => None end = Some ls ->
             matchk false r s g k = Some x ->
             exists l, In l ls /\ starts_with l s = true).
  { intros r0 ls s g k x C M. destruct (lit_of r0) as [l |] eqn:L; [| discriminate].
    injection C as <-. exists l. split; [left; reflexivity |].
    eapply lit_of_sound; eassumption. }
  induction r as [| a | q1 _ q2 _ | r1 IH1 r2 IH2 | a lo hi | n q _]; intros ls s g k x C M.
  1, 2, 3, 5, 6:
    match type of C with cues_of ?r = _ => exact (Base r ls s g k x C M) end.
  simpl in C. destruct (lit_of r1) as [l1 |] eqn:L1; [| discriminate].
  destruct (cues_of r2) as [ls2 |] eqn:C2; [| discriminate]. injection C as <-.
  simpl in M. destruct (matchk false r1 s g k) as [y |] eqn:M1.
  - exists l1. split; [left; reflexivity |]. eapply lit_of_sound; eassumption.
  - destruct (IH2 _ _ _ _ _ eq_refl M) as (l & Hl & Hs).
    exists l. split; [right; exact Hl | exact Hs].
Qed.

Lemma contains_here l s : starts_with l s = true -> contains l s = true.
Proof. intros H. destruct s; simpl in *; rewrite H; reflexivity. Qed.

Lemma contains_later l c s : contains l s = true -> contains l (String c s) = true.
Proof. intros H. cbn [contains]. rewrite H. apply orb_true_r. Qed.

Lemma search_from_cue r ls : cues_of r = Some ls ->
  forall s before m, search_from false r before s = Some m ->
  exists l, In l ls /\ contains l s = true.
Proof.
  intros C. induction s as [| c t IH]; intros before m H; simpl in H.
  - destruct (match_at false r (srev before) "") as [y |] eqn:M; [| discriminate].
    unfold match_at in M.
    destruct (cues_of_sound _ _ _ _ C M) as (l & Hl & Hs).
    exists l. split; [exact Hl | apply contains_here; exact Hs].
  - destruct (match_at false r (srev before) (String c t)) as [y |] eqn:M.
    + unfold match_at in M.
      destruct (cues_of_sound _ _ _ _ C M) as (l & Hl & Hs).
      exists l. split; [exact Hl | apply contains_here; exact Hs].
    + destruct (IH _ _ H) as (l & Hl & Hs).
      exists l. split; [exact Hl | apply contains_later; exact Hs].
Qed.

(** A line that contains none of the cues of a keyword pattern is not found
    by it. *)
Lemma search_no_cue pattern s :
  cues pattern <> [] ->
  existsb (fun cue => contains cue s) (cues pattern) = false ->
  search pattern s = None.
Proof.
  unfold cues, search. intros NE H.
  destruct (compile pattern) as [r |]; [| reflexivity].
  destruct (cues_of r) as [ls |] eqn:C; [| congruence].
  destruct (search_re false r s) as [m |] eqn:S; [| reflexivity].
  unfold search_re in S. destruct (search_from_cue _ C _ _ S) as (l & Hl & Hs).
  assert (E : existsb (fun cue => contains cue s) ls = true).
  { apply existsb_exists. eauto. }
  congruence.
Qed.

(** The cues of the pacemaker pattern: where the source joins two literals
    without a [|], [cli-prefer] and [cib-bootstrap-options-maintenance-mode]
    make one cue. *)
Lemma pacemaker_cues :
  cues pacemaker_log_keywords =
  ["LogAction"; "LogNodeActions"; "stonith-ng"; "pacemaker-fenced"; "crit:";
   "check_migration_threshold"; "corosync"; "Result of"; "reboot";
   "cannot run anywhere"; "attrd_peer_update"; "High CPU load detected"; "cli-ban";
   "cli-prefercib-bootstrap-options-maintenance-mode"; "-is-managed"; "-maintenance";
   "-standby"]%string.
Proof. vm_compute. reflexivity. Qed.

Lemma system_cues :
  cues system_log_keywords =
  ["SAPHana("; "SAPHanaController("; "SAPHanaTopology("; "SAPInstance(";
   "gcp-vpc-move-vip"; "gcp:alias"; "gcp:stonith"; "fence_gce"; "corosync[";
   "Result of"; "reboot"]%string.
Proof. vm_compute. reflexivity. Qed.

Lemma parse_log_line_no_cue now_year line conn :
  existsb (fun cue => contains cue line) (cues pacemaker_log_keywords) = false ->
  parse_log_line now_year line "p" conn = Returns conn.
Proof.
  intros H. unfold parse_log_line. cbn [String.eqb Ascii.eqb Bool.eqb bind].
  rewrite search_no_cue; [reflexivity | | exact H].
  rewrite pacemaker_cues. discriminate.
Qed.

(** C10. A pacemaker line that contains [cli-prefer] and none of the cues of
    the pacemaker pattern (of which [cli-prefer] alone is not one, being
    joined to the next literal) is rejected by the keyword filter: no row is
    stored, and the report of a run on that line is empty, so the cli-prefer
    branch of R8 has nothing to match. *)
Theorem cli_prefer_line_rejected :
  forall now_year line conn date_begin date_end,
    contains "cli-prefer" line = true ->
    existsb (fun cue => contains cue line) (cues pacemaker_log_keywords) = false ->
    ~ In "cli-prefer"%string (cues pacemaker_log_keywords)
    /\ In "cli-prefercib-bootstrap-options-maintenance-mode"%string
          (cues pacemaker_log_keywords)
    /\ Re.search pacemaker_log_keywords line = None
    /\ parse_log_line now_year line "p" conn = Returns conn
    /\ logparser now_year [] [Some [line]] date_begin date_end = Returns [].
Proof.
  intros now line conn b e Hc H.
  split.
  { rewrite pacemaker_cues. simpl. intuition discriminate. }
  split.
  { rewrite pacemaker_cues. simpl. tauto. }
  split.
  { apply search_no_cue; [rewrite pacemaker_cues; discriminate | exact H]. }
  split.
  { apply parse_log_line_no_cue. exact H. }
  unfold logparser. cbn [logfile_parser parse_lines bind].
  rewrite parse_log_line_no_cue by exact H. cbn [bind].
  destruct b, e; reflexivity.
Qed.

Lemma cli_prefer_line_rejected_witness :
  LIKE line_cli_prefer "%cli-prefer%" = true
  /\ ~ In "cli-prefer"%string (cues pacemaker_log_keywords)
  /\ In "cli-prefercib-bootstrap-options-maintenance-mode"%string
        (cues pacemaker_log_keywords)
  /\ Re.search pacemaker_log_keywords line_cli_prefer = None
  /\ parse_log_line 2026 line_cli_prefer "p" [] = Returns []
  /\ logparser 2026 [] [Some [line_cli_prefer]] None None = Returns [].
Proof.
  split; [vm_compute; reflexivity |].
  apply (@cli_prefer_line_rejected 2026 line_cli_prefer [] None None).
  - vm_compute. reflexivity.
  - vm_compute. reflexivity.
Defined.

(** ** The year put in front of a syslog timestamp *)

Lemma is_digit_digit_char d : 0 <= d < 10 -> is_digit (digit_char d) = true.
Proof.
  intros H. unfold is_digit, between. rewrite code_digit_char by exact H.
  apply andb_true_iff. split; apply Nat.leb_le; lia.
Qed.

Lemma digit_not_space c : is_digit c = true -> is_space c = false.
Proof.
  unfold is_digit, is_space, between.
  rewrite andb_true_iff, !Nat.leb_le. intros [H1 H2].
  apply orb_false_iff. split; apply andb_false_iff.
  - right. apply Nat.leb_gt. lia.
  - right. apply Nat.leb_gt. lia.
Qed.

Lemma str_digits_year f y :
  1000 <= y <= 9999 -> str_digits (S (S (S (S f)))) y "" = pad4 y.
Proof.
  intros H. cbn [str_digits].
  assert (E1 : (y / 10 =? 0) = false) by (apply Z.eqb_neq; Z.div_mod_to_equations; lia).
  assert (E2 : (y / 10 / 10 =? 0) = false) by (apply Z.eqb_neq; Z.div_mod_to_equations; lia).
  assert (E3 : (y / 10 / 10 / 10 =? 0) = false)
    by (apply Z.eqb_neq; Z.div_mod_to_equations; lia).
  assert (E4 : (y / 10 / 10 / 10 / 10 =? 0) = true)
    by (apply Z.eqb_eq; Z.div_mod_to_equations; lia).
  rewrite E1, E2, E3, E4. unfold pad4, pad2.
  replace (y / 10 / 10 / 10 mod 10) with (y / 1000 mod 10)
    by (Z.div_mod_to_equations; lia).
  replace (y / 10 / 10 mod 10) with (y / 100 mod 10) by (Z.div_mod_to_equations; lia).
  reflexivity.
Qed.

(** [str(year)] of a four-digit year is its four digits. *)
Lemma str_int_year y : 1000 <= y <= 9999 -> str_int y = pad4 y.
Proof.
  intros H. unfold str_int.
  replace (y <? 0) with false by (symmetry; apply Z.ltb_ge; lia).
  assert (L : 9 <= Z.log2 y).
  { change 9 with (Z.log2 512). apply Z.log2_le_mono. lia. }
  destruct (Z.to_nat (Z.log2 y)) as [| [| [| f]]] eqn:E; try lia.
  apply str_digits_year. exact H.
Qed.

Lemma take_app p r : take (String.length p) (p ++ r) = p.
Proof. induction p as [| c p IH]; simpl; [destruct r; reflexivity | congruence]. Qed.

Lemma length_app p r : String.length (p ++ r) = (String.length p + String.length r)%nat.
Proof. induction p as [| c p IH]; simpl; congruence. Qed.

Lemma consumed_app p r : consumed (p ++ r) r = p.
Proof.
  unfold consumed. rewrite length_app, Nat.add_sub. apply take_app.
Qed.

Lemma matchk_year A y rest g (k : string -> groups -> option A) :
  0 <= y ->
  matchk true year_re (pad4 y ++ rest) g k = k rest (("Y"%char, pad4 y) :: g).
Proof.
  intros H.
  assert (D : forall d, is_digit (digit_char (d mod 10)) = true).
  { intros d. apply is_digit_digit_char. apply Z.mod_pos_bound. lia. }
  unfold year_re, d_. cbn [matchk].
  rewrite <- (consumed_app (pad4 y) rest) at 2.
  unfold pad4, pad2. cbn [append accepts in_cls].
  rewrite !D. reflexivity.
Qed.

Lemma int_pad4 y : 0 <= y <= 9999 -> int (pad4 y) = Some y.
Proof.
  intros H.
  assert (D : forall d, is_digit (digit_char (d mod 10)) = true).
  { intros d. apply is_digit_digit_char. apply Z.mod_pos_bound. lia. }
  assert (B : forall d, is_blank (digit_char (d mod 10)) = false).
  { intros d. apply digit_not_space, D. }
  assert (V : forall d, Z.of_nat (code (digit_char (d mod 10))) - 48 = d mod 10).
  { intros d. rewrite code_digit_char by (apply Z.mod_pos_bound; lia).
    pose proof (Z.mod_pos_bound d 10). lia. }
  unfold int, pad4, pad2.
  cbn [skip_blanks]. rewrite B.
  cbn [srev srev_app skip_blanks]. rewrite B.
  cbn [srev srev_app int_digits]. rewrite !D, !V.
  f_equal. Z.div_mod_to_equations. lia.
Qed.

Lemma pattern_format1 : pattern (snd time_format1) = Some (Cat year_re after_year_re).
Proof. vm_compute. reflexivity. Qed.

Lemma new_in_year y m d hh mi ss :
  1 <= y <= 9999 -> in_range 2001 m d hh mi ss = true -> m <> 2 ->
  new y m d hh mi ss = Some (mk y m d hh mi ss).
Proof.
  intros Hy R M. unfold new, in_range in *.
  rewrite !andb_true_iff in R. destruct R as (((((_ & R2) & R3) & R4) & R5) & R6).
  rewrite (proj2 (within_spec 1 9999 y)) by lia.
  rewrite R2, R4, R5, R6.
  replace (days_in_month y m) with (days_in_month 2001 m).
  - rewrite R3. reflexivity.
  - unfold days_in_month. apply Z.eqb_neq in M. rewrite M. reflexivity.
Qed.

(** What [strptime] makes of a year followed by a date that does not depend
    on the year: the fields after the year are found as they are after any
    other year. *)
Ltac strptime_after_year :=
  match goal with
  | H : 1000 <= ?y <= 9999 |- strptime (str_int ?y ++ _) _ = _ =>
      unfold strptime; rewrite pattern_format1; unfold match_at;
      rewrite (str_int_year H);
      change (matchk true (Cat year_re after_year_re) ?s ?g ?k)
        with (matchk true year_re s g (fun s' g' => matchk true after_year_re s' g' k));
      rewrite matchk_year by lia;
      cbv - [int new pad4];
      rewrite int_pad4 by lia;
      cbv - [new];
      apply new_in_year; [lia | reflexivity | discriminate]
  end.

Lemma rep_continues ic A a : forall s lo hi (k : string -> option A) x,
  rep ic a lo hi s k = Some x -> exists s', k s' = Some x.
Proof.
  induction s as [| c t IH]; intros lo hi k x H; cbn [rep] in H.
  - destruct (lo =? 0)%nat; [eauto | discriminate].
  - destruct (accepts ic a c && more hi).
    + destruct (rep ic a (pred lo) (dec hi) t k) as [y |] eqn:E.
      * injection H as <-. eapply IH. exact E.
      * destruct (lo =? 0)%nat; [eauto | discriminate].
    + destruct (lo =? 0)%nat; [eauto | discriminate].
Qed.

Lemma matchk_keeps ic A r : forall s g (k : string -> groups -> option A) x,
  matchk ic r s g k = Some x ->
  exists s' g', k s' g' = Some x
                /\ forall n, binds r n = false -> lookup n g' = lookup n g.
Proof.
  induction r as [| a | r1 IH1 r2 IH2 | r1 IH1 r2 IH2 | a lo hi | m r1 IH1];
    intros s g k x H; cbn [matchk] in H.
  - eauto.
  - destruct s as [| c t]; [discriminate |].
    destruct (accepts ic a c); [eauto | discriminate].
  - destruct (IH1 _ _ _ _ H) as (s1 & g1 & H1 & K1).
    destruct (IH2 _ _ _ _ H1) as (s2 & g2 & H2 & K2).
    exists s2, g2. split; [exact H2 |].
    intros n B. cbn [binds] in B. apply orb_false_iff in B. destruct B as [B1 B2].
    rewrite K2, K1 by assumption. reflexivity.
  - destruct (matchk ic r1 s g k) as [y |] eqn:E.
    + injection H as <-. destruct (IH1 _ _ _ _ E) as (s1 & g1 & H1 & K1).
      exists s1, g1. split; [exact H1 |].
      intros n B. cbn [binds] in B. apply orb_false_iff in B. apply K1, B.
    + destruct (IH2 _ _ _ _ H) as (s2 & g2 & H2 & K2).
      exists s2, g2. split; [exact H2 |].
      intros n B. cbn [binds] in B. apply orb_false_iff in B. apply K2, B.
  - destruct (rep_continues _ _ _ _ _ _ H) as (s' & H'). eauto.
  - destruct (IH1 _ _ _ _ H) as (s1 & g1 & H1 & K1).
    eexists s1, _. split; [exact H1 |].
    intros n B. cbn [binds] in B. apply orb_false_iff in B. destruct B as [B1 B2].
    cbn [lookup]. rewrite B1. apply K1, B2.
Qed.

Lemma new_year y m d hh mi ss t : new y m d hh mi ss = Some t -> year t = y.
Proof. unfold new. destruct (in_range y m d hh mi ss); [intros [= <-]; reflexivity | discriminate]. Qed.

(** The year of a timestamp parsed after a four-digit year is that year. *)
Lemma strptime_year y g t :
  1000 <= y <= 9999 ->
  strptime (str_int y ++ " " ++ g) (snd time_format1) = Some t -> year t = y.
Proof.
  intros H. unfold strptime. rewrite pattern_format1. unfold match_at.
  rewrite (str_int_year H).
  change (matchk true (Cat year_re after_year_re) ?s ?g ?k)
    with (matchk true year_re s g (fun s' g' => matchk true after_year_re s' g' k)).
  rewrite matchk_year by lia.
  destruct (matchk true after_year_re _ _ _) as [found |] eqn:M; [| discriminate].
  apply matchk_keeps in M. destruct M as (s' & g' & [= <-] & K).
  cbn [post named]. destruct s'; [| discriminate].
  unfold field at 1. rewrite (K "Y"%char) by (vm_compute; reflexivity).
  cbn [lookup Ascii.eqb Bool.eqb]. rewrite int_pad4 by lia.
  destruct (month_of g'); [| discriminate].
  destruct (field "d" 1 g'); [| discriminate].
  destruct (field "H" 0 g'); [| discriminate].
  destruct (field "M" 0 g'); [| discriminate].
  destruct (field "S" 0 g'); [| discriminate].
  apply new_year.
Qed.

Lemma strptime_jan_5 y :
  1000 <= y <= 9999 ->
  strptime (str_int y ++ " " ++ "Jan 5 10:00:00") (snd time_format1)
  = Some (mk y 1 5 10 0 0).
Proof. intros H. strptime_after_year. Qed.

Lemma strptime_nov_22 y :
  1000 <= y <= 9999 ->
  strptime (str_int y ++ " " ++ "Nov 22 00:00:00") (snd time_format1)
  = Some (mk y 11 22 0 0 0).
Proof. intros H. strptime_after_year. Qed.

(** ** Single lines *)

Lemma format_timestamp_kind1 now line m t :
  Re.search (fst time_format1) line = Some m ->
  strptime (str_int now ++ " " ++ group m) (snd time_format1) = Some t ->
  format_timestamp_from_logline now line = Returns (Some (t, 1)).
Proof.
  intros S P. unfold format_timestamp_from_logline. rewrite S, P. reflexivity.
Qed.

Lemma parse_log_line_unfold now line logtype conn :
  parse_log_line now line logtype conn =
  (pattern <- keywords logtype ;;
   match Re.search pattern line with
   | Some _ =>
       let logline := Re.sub1_empty "\[\d*\]" line in
       timestamp <- format_timestamp_from_logline now logline ;;
       match timestamp with
       | Some (t, kind) =>
           record <-
             (if kind =? 1 then
                let newline := Re.split "\s+" logline 5 in
                node <- item newline 3 ;;
                component <- item newline 4 ;;
                payload <- item newline 5 ;;
                Returns (str t, node, strip "/" (strip ":" component), payload)
              else if kind =? 2 then
                let newline := Re.split "\s+" logline 3 in
                node <- item newline 1 ;;
                component <- item newline 2 ;;
                payload <- item newline 3 ;;
                Returns (str t, node, strip "/" (strip ":" component), payload)
              else Raises UnboundLocalError) ;;
           Returns (insert_into conn record)
       | None => Returns conn
       end
   | None => Returns conn
   end).
Proof. reflexivity. Qed.

(** A line of the syslog kind with at least six fields is stored. *)
Lemma parse_log_line_kind1 now line logtype pattern conn found m t node component payload :
  keywords logtype = Returns pattern ->
  Re.search pattern line = Some found ->
  Re.search (fst time_format1) (Re.sub1_empty "\[\d*\]" line) = Some m ->
  strptime (str_int now ++ " " ++ group m) (snd time_format1) = Some t ->
  nth_error (Re.split "\s+" (Re.sub1_empty "\[\d*\]" line) 5) 3 = Some node ->
  nth_error (Re.split "\s+" (Re.sub1_empty "\[\d*\]" line) 5) 4 = Some component ->
  nth_error (Re.split "\s+" (Re.sub1_empty "\[\d*\]" line) 5) 5 = Some payload ->
  parse_log_line now line logtype conn
  = Returns (insert_into conn (str t, node, strip "/" (strip ":" component), payload)).
Proof.
  intros K F S P N3 N4 N5. rewrite parse_log_line_unfold, K. cbn [bind]. rewrite F.
  cbv zeta. rewrite (format_timestamp_kind1 _ _ S P). cbn [bind].
  change (1 =? 1) with true. cbv iota. unfold item. rewrite N3, N4, N5. reflexivity.
Qed.

Lemma parse_remote_op_done now logtype pattern conn :
  1000 <= now <= 9999 ->
  keywords logtype = Returns pattern ->
  Re.search pattern line_remote_op_done <> None ->
  parse_log_line now line_remote_op_done logtype conn
  = Returns (insert_into conn
               (str (mk now 1 5 10 0 0), "node1", "stonith-ng", payload_remote_op_done)%string).
Proof.
  intros H K F.
  destruct (Re.search pattern line_remote_op_done) as [found |] eqn:E; [| congruence].
  change (Returns (insert_into conn
            (str (mk now 1 5 10 0 0), "node1", "stonith-ng", payload_remote_op_done)%string))
    with (Returns (insert_into conn
            (str (mk now 1 5 10 0 0), "node1", strip "/" (strip ":" "stonith-ng:"),
             payload_remote_op_done)%string)).
  eapply parse_log_line_kind1 with
    (m := {| pre := ""; group := "Jan 5 10:00:00";
             post := " node1 stonith-ng: notice: remote_op_done: Operation 'reboot' targeting node2 by node1 for ...: OK";
             named := [] |}).
  - exact K.
  - exact E.
  - vm_compute. reflexivity.
  - apply strptime_jan_5. exact H.
  - vm_compute. reflexivity.
  - vm_compute. reflexivity.
  - vm_compute. reflexivity.
Qed.

Lemma matches_single r :
  critical r = true -> matches None None [r] = [r].
Proof.
  intros C.
  assert (I : forall x, In x (matches None None [r]) <-> x = r).
  { intros x. rewrite In_matches. simpl. split.
    - intros ([E | []] & _). auto.
    - intros ->. auto. }
  pose proof (NoDup_matches None None [r]) as ND.
  destruct (matches None None [r]) as [| a [| b l]].
  - exfalso. apply (I r). reflexivity.
  - f_equal. apply I. left. reflexivity.
  - exfalso. inversion ND as [| ? ? Na _]; subst. apply Na.
    assert (a = r) by (apply I; left; reflexivity).
    assert (b = r) by (apply I; right; left; reflexivity).
    subst. left. reflexivity.
Qed.

Lemma report_of_remote_op_done time :
  sql_query None None [mkrow 1 time "node1" "stonith-ng" payload_remote_op_done]
  = [(time, "node1", "stonith-ng", payload_remote_op_done)%string].
Proof.
  unfold sql_query. rewrite matches_single; [reflexivity |].
  vm_compute. reflexivity.
Qed.

(** C7. The pacemaker line of the scenario, read in any four-digit year and
    queried without a window, gives exactly one record: node [node1],
    component [stonith-ng] (the colon after it stripped), and a payload in
    which [remote_op_done] occurs. *)
Theorem pacemaker_line_one_record :
  forall now_year,
    1000 <= now_year <= 9999 ->
    logparser now_year [] [Some [line_remote_op_done]] None None
    = Returns [(str (mk now_year 1 5 10 0 0), "node1", "stonith-ng",
                payload_remote_op_done)%string]
    /\ contains "remote_op_done" payload_remote_op_done = true.
Proof.
  intros now H. split; [| vm_compute; reflexivity].
  unfold logparser. cbn [logfile_parser parse_lines bind].
  rewrite (@parse_remote_op_done now "p" pacemaker_log_keywords []);
    [ | exact H | reflexivity | vm_compute; discriminate ].
  cbn [bind]. exact (f_equal Returns (report_of_remote_op_done _)).
Qed.

Lemma pacemaker_line_one_record_witness :
  logparser 2026 [] [Some [line_remote_op_done]] None None
  = Returns [("2026-01-05 10:00:00", "node1", "stonith-ng",
              payload_remote_op_done)%string]
  /\ contains "remote_op_done" payload_remote_op_done = true.
Proof.
  apply (@pacemaker_line_one_record 2026). lia.
Defined.

(** C6 (as amended). The same line read with the system tag is not rejected:
    [reboot] is a cue of the system pattern and occurs in the line, so the
    line is stored and the report has exactly one record, the one the
    pacemaker tag gives. *)
Theorem system_line_one_record :
  forall now_year,
    1000 <= now_year <= 9999 ->
    In "reboot"%string (cues system_log_keywords)
    /\ contains "reboot" line_remote_op_done = true
    /\ Re.search system_log_keywords line_remote_op_done <> None
    /\ logparser now_year [Some [line_remote_op_done]] [] None None
       = Returns [(str (mk now_year 1 5 10 0 0), "node1", "stonith-ng",
                   payload_remote_op_done)%string].
Proof.
  intros now H.
  split; [rewrite system_cues; simpl; tauto |].
  split; [vm_compute; reflexivity |].
  split; [vm_compute; discriminate |].
  unfold logparser. cbn [logfile_parser parse_lines bind].
  rewrite (@parse_remote_op_done now "s" system_log_keywords []);
    [ | exact H | reflexivity | vm_compute; discriminate ].
  cbn [bind logfile_parser]. exact (f_equal Returns (report_of_remote_op_done _)).
Qed.

Lemma system_line_one_record_witness :
  In "reboot"%string (cues system_log_keywords)
  /\ contains "reboot" line_remote_op_done = true
  /\ Re.search system_log_keywords line_remote_op_done <> None
  /\ logparser 2026 [Some [line_remote_op_done]] [] None None
     = Returns [("2026-01-05 10:00:00", "node1", "stonith-ng",
                 payload_remote_op_done)%string].
Proof.
  apply (@system_line_one_record 2026). lia.
Defined.

(** The line read with the system tag gives a record, not an empty report. *)
Lemma system_line_counterexample :
  logparser 2026 [Some [line_remote_op_done]] [] None None <> Returns [].
Proof. vm_compute. discriminate. Qed.

(** ** Lines that do not split into enough fields *)

(** C4 (not met by the code). A line that passes the keyword filter and
    whose timestamp parses, but that splits into fewer fields than its kind
    needs, is not skipped: indexing the list of fields raises [IndexError],
    which no handler catches, so the lines after it are not read.  Shown for
    a last line cut short (syslog kind, five fields) and for a short line
    that ends in a newline (ISO kind, three fields). *)
Theorem short_line_raises :
  forall conn rest,
    Re.search pacemaker_log_keywords line_truncated <> None
    /\ format_timestamp_from_logline 2026 line_truncated
       = Returns (Some (mk 2026 1 5 10 0 0, 1))
    /\ List.length (Re.split "\s+" line_truncated 5) = 5%nat
    /\ parse_log_line 2026 line_truncated "p" conn = Raises IndexError
    /\ parse_lines 2026 (line_truncated :: rest) "p" conn = Raises IndexError
    /\ format_timestamp_from_logline 2026 line_short
       = Returns (Some (mk 2021 1 5 10 0 0, 2))
    /\ List.length (Re.split "\s+" line_short 3) = 3%nat
    /\ parse_log_line 2026 line_short "p" conn = Raises IndexError
    /\ parse_lines 2026 (line_short :: rest) "s" conn = Raises IndexError.
Proof.
  intros conn rest.
  repeat split; vm_compute; (reflexivity || discriminate).
Qed.

(** ** Timestamps that match a grammar and do not parse *)

Lemma format_timestamp_unparsed now line :
  grammar_matched_unparsed now line = true ->
  format_timestamp_from_logline now line = SysExit.
Proof.
  unfold grammar_matched_unparsed, format_timestamp_from_logline.
  destruct (Re.search (fst time_format1) line) as [m1 |].
  - destruct (strptime _ _); [discriminate | reflexivity].
  - destruct (Re.search (fst time_format2) line) as [m2 |]; [| discriminate].
    destruct (strptime _ _); [discriminate | reflexivity].
Qed.

(** C5 (as amended). For a line that passes the keyword filter of its tag and
    in which a grammar finds a timestamp that [strptime] rejects (month 13,
    hour 25), the normaliser does not answer "no timestamp": it ends the run
    ([sys.exit()] in the handler of [ValueError]).  No record is made, and
    no later line is read. *)
Theorem unparsed_timestamp_exits :
  forall now_year line logtype pattern conn rest,
    keywords logtype = Returns pattern ->
    Re.search pattern line <> None ->
    grammar_matched_unparsed now_year (Re.sub1_empty "\[\d*\]" line) = true ->
    format_timestamp_from_logline now_year (Re.sub1_empty "\[\d*\]" line) = SysExit
    /\ parse_log_line now_year line logtype conn = SysExit
    /\ parse_lines now_year (line :: rest) logtype conn = SysExit.
Proof.
  intros now line logtype pattern conn rest K F U.
  pose proof (format_timestamp_unparsed _ _ U) as E.
  assert (P : parse_log_line now line logtype conn = SysExit).
  { rewrite parse_log_line_unfold, K. cbn [bind].
    destruct (Re.search pattern line); [| congruence].
    cbv zeta. rewrite E. reflexivity. }
  split; [exact E |]. split; [exact P |].
  cbn [parse_lines]. rewrite P. reflexivity.
Qed.

Lemma unparsed_timestamp_exits_witness :
  format_timestamp_from_logline 2026 (Re.sub1_empty "\[\d*\]" line_hour_25) = SysExit
  /\ parse_log_line 2026 line_hour_25 "p" [] = SysExit
  /\ parse_lines 2026 [line_hour_25; line_good] "p" [] = SysExit.
Proof.
  apply (@unparsed_timestamp_exits 2026 line_hour_25 "p" pacemaker_log_keywords [] [line_good]).
  - reflexivity.
  - vm_compute. discriminate.
  - vm_compute. reflexivity.
Defined.

(** Lines with hour 25 and with month 13 are not dropped: the run ends at
    them and the good line after them is never stored. *)
Lemma unparsed_timestamp_counterexample :
  grammar_matched_unparsed 2026 line_hour_25 = true
  /\ parse_log_line 2026 line_hour_25 "p" [] <> Returns []
  /\ grammar_matched_unparsed 2026 line_month_13 = true
  /\ parse_log_line 2026 line_month_13 "p" [] <> Returns []
  /\ parse_lines 2026 [line_good] "p" [] <> SysExit
  /\ parse_lines 2026 [line_month_13; line_good] "p" [] = SysExit.
Proof.
  repeat split; vm_compute; (reflexivity || discriminate).
Qed.

(** A bound given on the command line with an out-of-range value ends the
    run the same way. *)
Lemma timeinput_out_of_range_exits :
  format_timestamp_from_timeinput "2021-13-01" = SysExit
  /\ format_timestamp_from_timeinput "2021-01-01-25:00" = SysExit
  /\ format_timestamp_from_timeinput "2021-01-01" = Returns t_2021_01_01.
Proof. repeat split; vm_compute; reflexivity. Qed.

(** ** The syslog grammar *)

Lemma compile_format1 : compile (fst time_format1) = Some format1_re.
Proof. vm_compute. reflexivity. Qed.

Lemma search_nov_22 rest :
  Re.search (fst time_format1) ("Nov 22 00:00:00" ++ rest)
  = Some {| pre := ""; group := "Nov 22 00:00:00"; post := rest; named := [] |}.
Proof.
  unfold Re.search. rewrite compile_format1.
  rewrite <- (consumed_app "Nov 22 00:00:00" rest) at 2.
  unfold search_re, format1_re. cbn [append search_from match_at].
  cbn - [consumed]. reflexivity.
Qed.

Lemma append_assoc a b c : ((a ++ b) ++ c)%string = (a ++ b ++ c)%string.
Proof. induction a as [| x a IH]; simpl; congruence. Qed.

(** ** Reading a syslog timestamp field by field *)

Lemma upto_cases (P : Z -> Prop) (n : nat) :
  Forall P (map Z.of_nat (seq 0 n)) -> forall d, 0 <= d < Z.of_nat n -> P d.
Proof.
  intros F d H. rewrite Forall_forall in F. apply F.
  rewrite <- (Z2Nat.id d) by lia. apply in_map. apply in_seq. lia.
Qed.

Lemma after_year_parts :
  after_year_re
  = Cat sp_re (Cat b_re (Cat sp_re (Cat d_re (Cat sp_re (Cat H_re
      (Cat (ch ":") (Cat M_re (Cat (ch ":") (Cat S_re Eps))))))))).
Proof. reflexivity. Qed.

Lemma consumed_1 a s : consumed (String a s) s = String a "".
Proof. exact (consumed_app (String a "") s). Qed.

Lemma consumed_2 a b s : consumed (String a (String b s)) s = String a (String b "").
Proof. exact (consumed_app (String a (String b "")) s). Qed.

Lemma consumed_3 a b c s :
  consumed (String a (String b (String c s))) s = String a (String b (String c "")).
Proof. exact (consumed_app (String a (String b (String c ""))) s). Qed.

Lemma option_eta A (o : option A) : match o with Some x => Some x | None => None end = o.
Proof. destruct o; reflexivity. Qed.

(** [\s+] before a character that is no white space reads the one blank. *)
Lemma rep_space_1 ic A c s (k : string -> option A) :
  is_space c = false ->
  rep ic (Class Space) 1 None (String " " (String c s)) k = k (String c s).
Proof.
  intros H. cbn [rep accepts in_cls]. rewrite H.
  change (is_space " ") with true. cbn [andb more pred dec Nat.eqb].
  apply option_eta.
Qed.

Lemma rep_space_2 ic A c s (k : string -> option A) :
  is_space c = false ->
  rep ic (Class Space) 1 None (String " " (String " " (String c s))) k
  = match k (String c s) with
    | Some x => Some x
    | None => k (String " " (String c s))
    end.
Proof.
  intros H. cbn [rep accepts in_cls]. rewrite H.
  change (is_space " ") with true. cbn [andb more pred dec Nat.eqb].
  destruct (k (String c s)); [reflexivity |]. apply option_eta.
Qed.

Lemma sp_rejects ic A r c s g (k : string -> groups -> option A) :
  is_space c = false -> matchk ic (Cat sp_re r) (String c s) g k = None.
Proof.
  intros H. unfold sp_re. cbn [matchk rep accepts in_cls]. rewrite H. reflexivity.
Qed.

(** A fact about the numbers under [n], proved at each of them. *)
Ltac each_upto n tac :=
  refine (@upto_cases _ n _); cbn [seq map];
  repeat (apply Forall_cons; [cbv beta; tac |]); apply Forall_nil.

Lemma month_not_space m :
  1 <= m <= 12 ->
  exists c t, month_abbr m = String c t /\ is_space c = false.
Proof.
  intros H. assert (B : 0 <= m < Z.of_nat 13) by lia. revert H. revert m B.
  each_upto 13%nat ltac:(intros H; try lia; eexists _, _; split; reflexivity).
Qed.

(** The ten digits. *)
Lemma digit_cases c :
  is_digit c = true ->
  In c ["0"; "1"; "2"; "3"; "4"; "5"; "6"; "7"; "8"; "9"]%char.
Proof.
  destruct c as [[] [] [] [] [] [] [] []]; intros H;
    try discriminate H; vm_compute; tauto.
Qed.

Lemma colon_rejects_digit ic A r c s g (k : string -> groups -> option A) :
  is_digit c = true -> matchk ic (Cat (ch ":") r) (String c s) g k = None.
Proof.
  intros H. apply digit_cases in H. cbn [In] in H.
  destruct ic; decompose [or] H; subst; try contradiction; reflexivity.
Qed.

Lemma step_colon ic A r s g (k : string -> groups -> option A) :
  matchk ic (Cat (ch ":") r) (":" ++ s) g k = matchk ic r s g k.
Proof. destruct ic; reflexivity. Qed.

Lemma step_sp_month ic A r m s g (k : string -> groups -> option A) :
  1 <= m <= 12 ->
  matchk ic (Cat sp_re r) (" " ++ month_abbr m ++ s) g k
  = matchk ic r (month_abbr m ++ s) g k.
Proof.
  intros H. destruct (month_not_space H) as (c & t & -> & N).
  unfold sp_re. cbn [matchk append]. apply rep_space_1. exact N.
Qed.

Lemma step_sp_digits ic A r n s g (k : string -> groups -> option A) :
  0 <= n <= 99 ->
  matchk ic (Cat sp_re r) (" " ++ pad2 n ++ s) g k = matchk ic r (pad2 n ++ s) g k.
Proof.
  intros H. unfold sp_re, pad2. cbn [matchk append]. apply rep_space_1.
  apply digit_not_space, is_digit_digit_char. Z.div_mod_to_equations. lia.
Qed.

(** [%b] reads the name of the month, in any case of its letters. *)
Lemma step_month A r m s g (k : string -> groups -> option A) :
  1 <= m <= 12 ->
  matchk true (Cat b_re r) (month_abbr m ++ s) g k
  = matchk true r s (("b"%char, month_abbr m) :: g) k.
Proof.
  intros H. assert (B : 0 <= m < Z.of_nat 13) by lia. revert H. revert m B.
  each_upto 13%nat
    ltac:(intros H; try lia; cbn - [consumed]; rewrite consumed_3;
          rewrite ?option_eta; reflexivity).
Qed.

(** A directive of two digits read before a continuation that reads no
    digit first: the shorter alternatives of the directive leave a digit
    behind and fail. *)
Ltac two_digit_case Hk :=
  lazy - [consumed]; rewrite ?Hk by reflexivity;
  rewrite ?consumed_2; rewrite ?option_eta; reflexivity.

Lemma day_read A d s g (k : string -> groups -> option A) :
  (forall c s g, is_digit c = true -> k (String c s) g = None) ->
  0 <= d <= 99 ->
  matchk true d_re (pad2 d ++ s) g k
  = if within 1 31 d then k s (("d"%char, pad2 d) :: g) else None.
Proof.
  intros Hk H. assert (B : 0 <= d < Z.of_nat 100) by lia. clear H. revert d B.
  each_upto 100%nat ltac:(two_digit_case Hk).
Qed.

Lemma hour_read A d s g (k : string -> groups -> option A) :
  (forall c s g, is_digit c = true -> k (String c s) g = None) ->
  0 <= d <= 99 ->
  matchk true H_re (pad2 d ++ s) g k
  = if within 0 23 d then k s (("H"%char, pad2 d) :: g) else None.
Proof.
  intros Hk H. assert (B : 0 <= d < Z.of_nat 100) by lia. clear H. revert d B.
  each_upto 100%nat ltac:(two_digit_case Hk).
Qed.

Lemma minute_read A d s g (k : string -> groups -> option A) :
  (forall c s g, is_digit c = true -> k (String c s) g = None) ->
  0 <= d <= 99 ->
  matchk true M_re (pad2 d ++ s) g k
  = if within 0 59 d then k s (("M"%char, pad2 d) :: g) else None.
Proof.
  intros Hk H. assert (B : 0 <= d < Z.of_nat 100) by lia. clear H. revert d B.
  each_upto 100%nat ltac:(two_digit_case Hk).
Qed.

Lemma step_day A r d s g (k : string -> groups -> option A) :
  (forall c s g, is_digit c = true -> matchk true r (String c s) g k = None) ->
  0 <= d <= 99 ->
  matchk true (Cat d_re r) (pad2 d ++ s) g k
  = if within 1 31 d then matchk true r s (("d"%char, pad2 d) :: g) k else None.
Proof.
  intros Hk H.
  exact (@day_read A d s g (fun s' g' => matchk true r s' g' k) Hk H).
Qed.

Lemma step_hour A r d s g (k : string -> groups -> option A) :
  (forall c s g, is_digit c = true -> matchk true r (String c s) g k = None) ->
  0 <= d <= 99 ->
  matchk true (Cat H_re r) (pad2 d ++ s) g k
  = if within 0 23 d then matchk true r s (("H"%char, pad2 d) :: g) k else None.
Proof.
  intros Hk H.
  exact (@hour_read A d s g (fun s' g' => matchk true r s' g' k) Hk H).
Qed.

Lemma step_minute A r d s g (k : string -> groups -> option A) :
  (forall c s g, is_digit c = true -> matchk true r (String c s) g k = None) ->
  0 <= d <= 99 ->
  matchk true (Cat M_re r) (pad2 d ++ s) g k
  = if within 0 59 d then matchk true r s (("M"%char, pad2 d) :: g) k else None.
Proof.
  intros Hk H.
  exact (@minute_read A d s g (fun s' g' => matchk true r s' g' k) Hk H).
Qed.

(** [%S] at the end of the text: [6[0-1]|[0-5]\d|\d] reads both digits up to
    61 and only the first digit after that. *)
Lemma step_second A (f : string -> groups -> A) d g :
  0 <= d <= 99 ->
  matchk true (Cat S_re Eps) (pad2 d) g (fun s' g' => Some (f s' g'))
  = Some (if d <=? 61 then f "" (("S"%char, pad2 d) :: g)
          else f (String (digit_char (d mod 10)) "")
                 (("S"%char, String (digit_char (d / 10 mod 10)) "") :: g)).
Proof.
  intros H. assert (B : 0 <= d < Z.of_nat 100) by lia. clear H. revert d B.
  each_upto 100%nat ltac:(reflexivity).
Qed.

(** A day under 10 after a blank and the padding blank: [\s+] reads both
    blanks and [%d] the digit; when the rest fails, [\s+] gives the second
    blank back and [%d] reads it with the digit. *)
Lemma day_padded_read A d s g (k : string -> groups -> option A) :
  0 <= d <= 9 ->
  matchk true sp_re (" " ++ day_text " " d ++ " " ++ s) g
    (fun s' g' => matchk true d_re s' g' k)
  = if 1 <=? d then
      match k (" " ++ s)%string (("d"%char, String (digit_char d) "") :: g) with
      | Some x => Some x
      | None => k (" " ++ s)%string (("d"%char, day_text " " d) :: g)
      end
    else None.
Proof.
  intros H. assert (B : 0 <= d < Z.of_nat 10) by lia. clear H. revert d B.
  each_upto 10%nat
    ltac:(lazy - [consumed]; rewrite ?consumed_2, ?consumed_1;
          rewrite ?option_eta; reflexivity).
Qed.

Lemma step_day_padded A r d s g (k : string -> groups -> option A) :
  0 <= d <= 9 ->
  matchk true (Cat sp_re (Cat d_re r)) (" " ++ day_text " " d ++ " " ++ s) g k
  = if 1 <=? d then
      match matchk true r (" " ++ s) (("d"%char, String (digit_char d) "") :: g) k with
      | Some x => Some x
      | None => matchk true r (" " ++ s) (("d"%char, day_text " " d) :: g) k
      end
    else None.
Proof.
  intros H.
  exact (@day_padded_read A d s g (fun s' g' => matchk true r s' g' k) H).
Qed.

Lemma int_pad2 n : 0 <= n <= 99 -> int (pad2 n) = Some n.
Proof.
  intros H. assert (B : 0 <= n < Z.of_nat 100) by lia. clear H. revert n B.
  each_upto 100%nat ltac:(reflexivity).
Qed.

Lemma int_day_text n :
  0 <= n <= 9 ->
  int (String (digit_char n) "") = Some n /\ int (day_text " " n) = Some n.
Proof.
  intros H. assert (B : 0 <= n < Z.of_nat 10) by lia. clear H. revert n B.
  each_upto 10%nat ltac:(split; reflexivity).
Qed.

(** The place of a month's name in the table of [%b]. *)
Lemma month_index m :
  1 <= m <= 12 -> index_of (lower_str (month_abbr m)) a_month 1 = Some m.
Proof.
  intros H. assert (B : 0 <= m < Z.of_nat 13) by lia. revert H. revert m B.
  each_upto 13%nat ltac:(intros H; try lia; reflexivity).
Qed.

Lemma day_text_pad2 pad d :
  0 <= d <= 99 -> pad = "0"%char \/ 10 <= d -> day_text pad d = pad2 d.
Proof.
  intros H [-> | G]; unfold day_text.
  - destruct (d <? 10) eqn:E; [| reflexivity]. apply Z.ltb_lt in E.
    assert (B : 0 <= d < Z.of_nat 10) by lia. clear H E. revert d B.
    each_upto 10%nat ltac:(reflexivity).
  - replace (d <? 10) with false by (symmetry; apply Z.ltb_ge; lia). reflexivity.
Qed.

Lemma new_in_range y m d hh mi ss :
  new y m d hh mi ss
  = if in_range y m d hh mi ss then Some (mk y m d hh mi ss) else None.
Proof. reflexivity. Qed.

Lemma in_range_fields y m d hh mi ss :
  in_range y m d hh mi ss = true ->
  within 1 31 d = true /\ within 0 23 hh = true /\ within 0 59 mi = true
  /\ ss <= 59.
Proof.
  unfold in_range. rewrite !andb_true_iff, !within_spec.
  pose proof (days_in_month_le y m). lia.
Qed.

Lemma time_read A (f : string -> groups -> A) hh mi ss g :
  0 <= hh <= 99 -> 0 <= mi <= 99 -> 0 <= ss <= 99 ->
  matchk true time_re (" " ++ pad2 hh ++ ":" ++ pad2 mi ++ ":" ++ pad2 ss) g
    (fun s' g' => Some (f s' g'))
  = if within 0 23 hh then
      if within 0 59 mi then
        Some (if ss <=? 61
              then f "" (("S"%char, pad2 ss) :: ("M"%char, pad2 mi)
                         :: ("H"%char, pad2 hh) :: g)
              else f (String (digit_char (ss mod 10)) "")
                     (("S"%char, String (digit_char (ss / 10 mod 10)) "")
                      :: ("M"%char, pad2 mi) :: ("H"%char, pad2 hh) :: g))
      else None
    else None.
Proof.
  intros Hh Hm Hs. unfold time_re.
  rewrite step_sp_digits by exact Hh.
  rewrite step_hour; [| intros; apply colon_rejects_digit; assumption | exact Hh].
  destruct (within 0 23 hh); [| reflexivity].
  rewrite step_colon.
  rewrite step_minute; [| intros; apply colon_rejects_digit; assumption | exact Hm].
  destruct (within 0 59 mi); [| reflexivity].
  rewrite step_colon.
  apply step_second. exact Hs.
Qed.

Lemma new_out_of_range y m d hh mi ss :
  within 1 31 d = false \/ within 0 23 hh = false \/ within 0 59 mi = false
  \/ 59 < ss ->
  new y m d hh mi ss = None.
Proof.
  intros H. rewrite new_in_range.
  destruct (in_range y m d hh mi ss) eqn:R; [| reflexivity].
  apply in_range_fields in R. destruct R as (R1 & R2 & R3 & R4).
  rewrite R1, R2, R3 in H. decompose [or] H; try discriminate. lia.
Qed.

(** What [strptime] makes of a four-digit year and a syslog timestamp: the
    date with those fields, when there is one. *)
Lemma strptime_syslog y pad m d hh mi ss :
  1000 <= y <= 9999 ->
  pad = " "%char \/ pad = "0"%char ->
  1 <= m <= 12 -> 0 <= d <= 99 -> 0 <= hh <= 99 -> 0 <= mi <= 99 -> 0 <= ss <= 99 ->
  strptime (str_int y ++ " " ++ syslog_stamp pad m d hh mi ss) (snd time_format1)
  = new y m d hh mi ss.
Proof.
  intros Hy Hp Hm Hd Hh Hi Hs.
  unfold strptime. rewrite pattern_format1. unfold match_at.
  rewrite (str_int_year Hy).
  change (matchk true (Cat year_re after_year_re) ?s ?g ?k)
    with (matchk true year_re s g (fun s' g' => matchk true after_year_re s' g' k)).
  rewrite matchk_year by lia. cbv beta.
  rewrite after_year_parts. unfold syslog_stamp.
  rewrite step_sp_month by exact Hm. rewrite step_month by exact Hm.
  fold time_re.
  assert (C : day_text pad d = pad2 d \/ (pad = " "%char /\ 0 <= d <= 9)).
  { destruct Hp as [-> | ->].
    - destruct (Z.lt_ge_cases d 10); [right; split; [reflexivity | lia] |].
      left. apply day_text_pad2; [exact Hd | right; assumption].
    - left. apply day_text_pad2; [exact Hd | left; reflexivity]. }
  destruct C as [-> | [-> D]].
  - rewrite step_sp_digits by exact Hd.
    rewrite step_day;
      [| intros; apply sp_rejects, digit_not_space; assumption | exact Hd].
    destruct (within 1 31 d) eqn:W1;
      [| symmetry; apply new_out_of_range; auto].
    rewrite time_read by assumption.
    destruct (within 0 23 hh) eqn:W2;
      [| symmetry; apply new_out_of_range; auto].
    destruct (within 0 59 mi) eqn:W3;
      [| symmetry; apply new_out_of_range; auto].
    destruct (ss <=? 61) eqn:W4.
    + cbv - [int new pad4 pad2 index_of lower_str month_abbr a_month].
      rewrite int_pad4 by lia. rewrite (month_index Hm).
      rewrite !int_pad2 by assumption. reflexivity.
    + apply Z.leb_gt in W4. cbn [post].
      symmetry. apply new_out_of_range. right. right. right. lia.
  - rewrite step_day_padded by exact D.
    rewrite !time_read by assumption.
    destruct (int_day_text D) as [I1 I2].
    destruct (1 <=? d) eqn:W1.
    2:{ apply Z.leb_gt in W1. symmetry. apply new_out_of_range. left.
        apply not_true_is_false. rewrite within_spec. lia. }
    destruct (within 0 23 hh) eqn:W2;
      [| symmetry; apply new_out_of_range; auto].
    destruct (within 0 59 mi) eqn:W3;
      [| symmetry; apply new_out_of_range; auto].
    destruct (ss <=? 61) eqn:W4.
    + cbv - [int new pad4 pad2 index_of lower_str month_abbr a_month digit_char].
      rewrite int_pad4 by lia. rewrite (month_index Hm).
      rewrite !int_pad2 by assumption. rewrite I1. reflexivity.
    + apply Z.leb_gt in W4. cbn [post].
      symmetry. apply new_out_of_range. right. right. right. lia.
Qed.

(** ** Finding a syslog timestamp at the start of a line *)

Lemma rep_done ic A a s (k : string -> option A) :
  rep ic a 0 (Some 0%nat) s k = k s.
Proof.
  destruct s as [| c t]; cbn [rep Nat.eqb more]; [reflexivity |].
  rewrite andb_false_r. reflexivity.
Qed.

(** [\w{3}] reads the name of the month. *)
Lemma word3_read ic A m s (k : string -> option A) :
  1 <= m <= 12 ->
  rep ic (Class Word) 3 (Some 3%nat) (month_abbr m ++ s) k = k s.
Proof.
  intros H. assert (B : 0 <= m < Z.of_nat 13) by lia. revert H. revert m B.
  each_upto 13%nat
    ltac:(intros H; try lia; cbn [Z.of_nat Pos.of_succ_nat Pos.succ month_abbr append];
          cbn [rep accepts in_cls Nat.eqb pred dec more];
          repeat match goal with
                 | |- context [is_word ?c] => change (is_word c) with true
                 end;
          cbn [andb]; rewrite rep_done; rewrite !option_eta; reflexivity).
Qed.

Lemma step_word3 ic A r m s g (k : string -> groups -> option A) :
  1 <= m <= 12 ->
  matchk ic (Cat (Rep (Class Word) 3 (Some 3%nat)) r) (month_abbr m ++ s) g k
  = matchk ic r s g k.
Proof.
  intros H. exact (@word3_read ic A m s (fun s' => matchk ic r s' g k) H).
Qed.

(** [\s+\d+\s] reads the blank, the day in its two columns and the blank
    after it. *)
Lemma day_columns_read ic A d s g (k : string -> groups -> option A) :
  0 <= d <= 99 ->
  matchk ic sp_re (" " ++ pad2 d ++ " " ++ s) g
    (fun s1 g1 => matchk ic (Rep (Class Digit) 1 None) s1 g1
       (fun s2 g2 => matchk ic (Sym (Class Space)) s2 g2 k))
  = k s g.
Proof.
  intros H. assert (B : 0 <= d < Z.of_nat 100) by lia. clear H. revert d B.
  each_upto 100%nat ltac:(lazy; rewrite ?option_eta; reflexivity).
Qed.

Lemma day_padded_columns_read ic A d s g (k : string -> groups -> option A) :
  0 <= d <= 9 ->
  matchk ic sp_re (" " ++ day_text " " d ++ " " ++ s) g
    (fun s1 g1 => matchk ic (Rep (Class Digit) 1 None) s1 g1
       (fun s2 g2 => matchk ic (Sym (Class Space)) s2 g2 k))
  = k s g.
Proof.
  intros H. assert (B : 0 <= d < Z.of_nat 10) by lia. clear H. revert d B.
  each_upto 10%nat ltac:(lazy; rewrite ?option_eta; reflexivity).
Qed.

Lemma step_day_columns ic A r pad d s g (k : string -> groups -> option A) :
  pad = " "%char \/ pad = "0"%char -> 0 <= d <= 99 ->
  matchk ic (Cat sp_re (Cat (Rep (Class Digit) 1 None) (Cat (Sym (Class Space)) r)))
    (" " ++ day_text pad d ++ " " ++ s) g k
  = matchk ic r s g k.
Proof.
  intros Hp Hd.
  assert (C : day_text pad d = pad2 d \/ (pad = " "%char /\ 0 <= d <= 9)).
  { destruct Hp as [-> | ->].
    - destruct (Z.lt_ge_cases d 10); [right; split; [reflexivity | lia] |].
      left. apply day_text_pad2; [exact Hd | right; assumption].
    - left. apply day_text_pad2; [exact Hd | left; reflexivity]. }
  destruct C as [-> | [-> D]].
  - exact (@day_columns_read ic A d s g (fun s' g' => matchk ic r s' g' k) Hd).
  - exact (@day_padded_columns_read ic A d s g (fun s' g' => matchk ic r s' g' k) D).
Qed.

Lemma step_two_digits ic A r n s g (k : string -> groups -> option A) :
  0 <= n <= 99 ->
  matchk ic (Cat (Sym (Class Digit)) (Cat (Sym (Class Digit)) r)) (pad2 n ++ s) g k
  = matchk ic r s g k.
Proof.
  intros H. unfold pad2. cbn [matchk append accepts in_cls].
  rewrite !is_digit_digit_char by (Z.div_mod_to_equations; lia). reflexivity.
Qed.

Lemma last_two_digits ic A n s g (k : string -> groups -> option A) :
  0 <= n <= 99 ->
  matchk ic (Cat (Sym (Class Digit)) (Sym (Class Digit))) (pad2 n ++ s) g k = k s g.
Proof.
  intros H. unfold pad2. cbn [matchk append accepts in_cls].
  rewrite !is_digit_digit_char by (Z.div_mod_to_equations; lia). reflexivity.
Qed.

Lemma syslog_stamp_app pad m d hh mi ss rest :
  (syslog_stamp pad m d hh mi ss ++ rest
   = month_abbr m ++ " " ++ day_text pad d ++ " " ++
     pad2 hh ++ ":" ++ pad2 mi ++ ":" ++ pad2 ss ++ rest)%string.
Proof. unfold syslog_stamp. rewrite !append_assoc. reflexivity. Qed.

Lemma search_from_here ic r before s m :
  match_at ic r (srev before) s = Some m -> search_from ic r before s = Some m.
Proof. intros H. destruct s; cbn [search_from]; rewrite H; reflexivity. Qed.

(** The syslog grammar reads a timestamp, whatever its numbers. *)
Lemma format1_read A pad m d hh mi ss rest g (k : string -> groups -> option A) :
  pad = " "%char \/ pad = "0"%char ->
  1 <= m <= 12 -> 0 <= d <= 99 -> 0 <= hh <= 99 -> 0 <= mi <= 99 -> 0 <= ss <= 99 ->
  matchk false format1_re (syslog_stamp pad m d hh mi ss ++ rest) g k = k rest g.
Proof.
  intros Hp Hm Hd Hh Hi Hs.
  rewrite syslog_stamp_app. unfold format1_re.
  rewrite step_word3 by exact Hm.
  rewrite (step_day_columns _ _ _ _ _ Hp Hd).
  rewrite step_two_digits by exact Hh. rewrite step_colon.
  rewrite step_two_digits by exact Hi. rewrite step_colon.
  apply last_two_digits. exact Hs.
Qed.

Lemma search_syslog pad m d hh mi ss rest :
  pad = " "%char \/ pad = "0"%char ->
  1 <= m <= 12 -> 0 <= d <= 99 -> 0 <= hh <= 99 -> 0 <= mi <= 99 -> 0 <= ss <= 99 ->
  Re.search (fst time_format1) (syslog_stamp pad m d hh mi ss ++ rest)
  = Some {| pre := ""; group := syslog_stamp pad m d hh mi ss;
            post := rest; named := [] |}.
Proof.
  intros Hp Hm Hd Hh Hi Hs.
  unfold Re.search. rewrite compile_format1. unfold search_re.
  apply search_from_here. unfold match_at.
  rewrite format1_read by assumption.
  rewrite consumed_app. reflexivity.
Qed.

(** C8. The syslog grammar and the clock year.  For a four-digit clock
    year: a line in which the syslog grammar finds a text that [strptime]
    accepts is given that timestamp, tagged kind 1, with the clock year as
    its year; when the text found is [Mmm dd hh:mm:ss] (the name of a month,
    the day in two columns, padded with a blank or a zero, and the time), the
    result is the clock year with the month, day and time written in the
    line when these make a date of that year, and the end of the run when
    they do not; and that is the result for every line that begins with
    such a text. *)
Theorem syslog_timestamp_current_year :
  forall now_year,
    1000 <= now_year <= 9999 ->
    (forall line found t,
       Re.search (fst time_format1) line = Some found ->
       strptime (str_int now_year ++ " " ++ group found) (snd time_format1) = Some t ->
       format_timestamp_from_logline now_year line = Returns (Some (t, 1))
       /\ year t = now_year)
    /\ (forall pad mon d hh mi ss,
          pad = " "%char \/ pad = "0"%char ->
          1 <= mon <= 12 -> 0 <= d <= 99 ->
          0 <= hh <= 99 -> 0 <= mi <= 99 -> 0 <= ss <= 99 ->
          (forall line found,
             Re.search (fst time_format1) line = Some found ->
             group found = syslog_stamp pad mon d hh mi ss ->
             format_timestamp_from_logline now_year line
             = if in_range now_year mon d hh mi ss
               then Returns (Some (mk now_year mon d hh mi ss, 1))
               else SysExit)
          /\ (forall rest,
                format_timestamp_from_logline now_year
                  (syslog_stamp pad mon d hh mi ss ++ rest)
                = if in_range now_year mon d hh mi ss
                  then Returns (Some (mk now_year mon d hh mi ss, 1))
                  else SysExit)).
Proof.
  intros now H. split.
  - intros line m t S P. split.
    + apply (format_timestamp_kind1 _ _ S P).
    + apply (strptime_year _ H P).
  - intros pad mon d hh mi ss Hp Hm Hd Hh Hi Hs.
    assert (F : forall line found,
               Re.search (fst time_format1) line = Some found ->
               group found = syslog_stamp pad mon d hh mi ss ->
               format_timestamp_from_logline now line
               = if in_range now mon d hh mi ss
                 then Returns (Some (mk now mon d hh mi ss, 1))
                 else SysExit).
    { intros line found S G. unfold format_timestamp_from_logline.
      rewrite S, G. rewrite strptime_syslog by assumption.
      rewrite new_in_range.
      destruct (in_range now mon d hh mi ss); reflexivity. }
    split; [exact F |].
    intros rest. eapply F; [apply search_syslog; assumption | reflexivity].
Qed.

Lemma syslog_timestamp_current_year_witness :
  (format_timestamp_from_logline 2026 line_nov_22
   = Returns (Some (mk 2026 11 22 0 0 0, 1))
   /\ year (mk 2026 11 22 0 0 0) = 2026)
  /\ format_timestamp_from_logline 2026 line_jan_5
     = Returns (Some (mk 2026 1 5 10 0 0, 1))
  /\ format_timestamp_from_logline 2026
       ("Nov 22 00:00:00" ++ " node1 corosync[1234]: [TOTEM ] Retransmit List: 1f")
     = Returns (Some (mk 2026 11 22 0 0 0, 1)).
Proof.
  destruct (@syslog_timestamp_current_year 2026 ltac:(lia)) as [G E].
  split.
  - apply (G line_nov_22
             {| pre := ""; group := "Nov 22 00:00:00";
                post := " node1 corosync[1234]: [TOTEM ] Retransmit List: 1f";
                named := [] |}).
    + vm_compute. reflexivity.
    + vm_compute. reflexivity.
  - split.
    + destruct (E " "%char 1 5 10 0 0 (or_introl eq_refl)
                  ltac:(lia) ltac:(lia) ltac:(lia) ltac:(lia) ltac:(lia)) as [F _].
      apply (F line_jan_5
               {| pre := ""; group := "Jan  5 10:00:00";
                  post := " node1 corosync[1234]: [TOTEM ] Retransmit List: 1f";
                  named := [] |}).
      * vm_compute. reflexivity.
      * reflexivity.
    + destruct (E "0"%char 11 22 0 0 0 (or_intror eq_refl)
                  ltac:(lia) ltac:(lia) ltac:(lia) ltac:(lia) ltac:(lia)) as [_ S].
      apply (S " node1 corosync[1234]: [TOTEM ] Retransmit List: 1f").
Defined.

(** A line of 29 February is given no timestamp in a clock year that is no
    leap year: the grammar finds the text and the run ends; in a leap year
    the same line is given its timestamp. *)
Lemma syslog_feb_29_counterexample :
  Re.search (fst time_format1) line_feb_29 <> None
  /\ format_timestamp_from_logline 2026 line_feb_29 = SysExit
  /\ format_timestamp_from_logline 2024 line_feb_29
     = Returns (Some (mk 2024 2 29 0 0 0, 1)).
Proof.
  repeat split; vm_compute; (reflexivity || discriminate).
Qed.

(** ** Rows come from parsed timestamps *)

Lemma new_valid y m d hh mi ss t : new y m d hh mi ss = Some t -> valid t.
Proof.
  unfold new, valid. destruct (in_range y m d hh mi ss) eqn:E; [| discriminate].
  intros [= <-]. exact E.
Qed.

Lemma strptime_valid data fmt t : strptime data fmt = Some t -> valid t.
Proof.
  unfold strptime.
  destruct (pattern fmt); [| discriminate].
  destruct (match_at true _ "" data) as [found |]; [| discriminate].
  destruct (post found); [| discriminate].
  destruct (field "Y" 1900 _); [| discriminate].
  destruct (month_of _); [| discriminate].
  destruct (field "d" 1 _); [| discriminate].
  destruct (field "H" 0 _); [| discriminate].
  destruct (field "M" 0 _); [| discriminate].
  destruct (field "S" 0 _); [| discriminate].
  apply new_valid.
Qed.

(** The normaliser answers with a timestamp the constructor accepted and
    with kind 1 or kind 2. *)
Lemma format_timestamp_valid now line t kind :
  format_timestamp_from_logline now line = Returns (Some (t, kind)) ->
  valid t /\ (kind = 1 \/ kind = 2).
Proof.
  unfold format_timestamp_from_logline.
  destruct (Re.search (fst time_format1) line) as [m1 |].
  - destruct (strptime _ _) as [t1 |] eqn:P; [| discriminate].
    intros [= <- <-]. split; [exact (strptime_valid _ _ P) | auto].
  - destruct (Re.search (fst time_format2) line) as [m2 |]; [| discriminate].
    destruct (strptime _ _) as [t2 |] eqn:P; [| discriminate].
    intros [= <- <-]. split; [exact (strptime_valid _ _ P) | auto].
Qed.

Lemma bind_returns A B (m : outcome A) (f : A -> outcome B) b :
  (x <- m ;; f x) = Returns b -> exists a, m = Returns a /\ f a = Returns b.
Proof. destruct m; simpl; [eauto | discriminate | discriminate]. Qed.

(** A line leaves the table as it was or adds one stamped row to it: no
    partial record is ever stored. *)
Lemma parse_log_line_stored now line logtype conn conn' :
  stored conn -> parse_log_line now line logtype conn = Returns conn' -> stored conn'.
Proof.
  intros St. rewrite parse_log_line_unfold. intros H.
  apply bind_returns in H. destruct H as (pattern & _ & H).
  destruct (Re.search pattern line); [| injection H as <-; exact St].
  cbv zeta in H. apply bind_returns in H. destruct H as (ts & T & H).
  destruct ts as [[t kind] |]; [| injection H as <-; exact St].
  apply format_timestamp_valid in T. destruct T as [V _].
  apply bind_returns in H. destruct H as (record & R & H). injection H as <-.
  assert (E : exists node component payload, record = (str t, node, component, payload)).
  { destruct (kind =? 1); [| destruct (kind =? 2); [| discriminate]];
      apply bind_returns in R; destruct R as (node & _ & R);
      apply bind_returns in R; destruct R as (component & _ & R);
      apply bind_returns in R; destruct R as (payload & _ & R);
      injection R as <-; eauto. }
  destruct E as (node & component & payload & ->).
  apply stored_insert; assumption.
Qed.

Lemma parse_lines_stored now logtype lines : forall conn conn',
  stored conn -> parse_lines now lines logtype conn = Returns conn' -> stored conn'.
Proof.
  induction lines as [| line rest IH]; intros conn conn' St H; cbn [parse_lines] in H.
  - injection H as <-. exact St.
  - apply bind_returns in H. destruct H as (c & P & H).
    eapply IH; [| exact H]. eapply parse_log_line_stored; eassumption.
Qed.

Lemma logfile_parser_stored now logtype files : forall conn conn',
  stored conn -> logfile_parser now files logtype conn = Returns conn' -> stored conn'.
Proof.
  induction files as [| [lines |] rest IH]; intros conn conn' St H;
    cbn [logfile_parser] in H.
  - injection H as <-. exact St.
  - apply bind_returns in H. destruct H as (c & P & H).
    eapply IH; [| exact H]. eapply parse_lines_stored; eassumption.
  - eapply IH; eassumption.
Qed.

(** A bound read from the command line is a timestamp the constructor
    accepted. *)
Lemma timeinput_valid time t :
  format_timestamp_from_timeinput time = Returns t -> valid t.
Proof.
  unfold format_timestamp_from_timeinput.
  destruct (Re.search _ time).
  - destruct (strptime time _) eqn:P; [| discriminate].
    intros [= <-]. exact (strptime_valid _ _ P).
  - destruct (Re.search _ time); [| discriminate].
    destruct (strptime time _) eqn:P; [| discriminate].
    intros [= <-]. exact (strptime_valid _ _ P).
Qed.

(** * Further facts about the code *)

(** ** The keyword filter as a substring test *)

Lemma starts_with_app l rest : starts_with l (l ++ rest) = true.
Proof. induction l as [| c l IH]; simpl; [reflexivity |]. rewrite Ascii.eqb_refl. exact IH. Qed.

Lemma starts_with_split l : forall s, starts_with l s = true -> exists rest, s = (l ++ rest)%string.
Proof.
  induction l as [| c l IH]; intros s H.
  - exists s. reflexivity.
  - apply starts_with_cons in H. destruct H as (t & -> & H).
    destruct (IH _ H) as (rest & ->). exists rest. reflexivity.
Qed.

(** A plain text matches wherever the string begins with it. *)
Lemma lit_of_complete A r : forall l rest g (k : string -> groups -> option A),
  lit_of r = Some l -> matchk false r (l ++ rest) g k = k rest g.
Proof.
  induction r as [| a | r1 IH1 r2 IH2 | | |]; intros l rest g k L; try discriminate.
  - injection L as <-. reflexivity.
  - destruct a as [c | |]; try discriminate. injection L as <-.
    simpl. rewrite Ascii.eqb_refl. reflexivity.
  - simpl in L. destruct r1 as [| [c | |] | | | |]; try discriminate.
    destruct (lit_of r2) as [l2 |] eqn:L2; [| discriminate]. injection L as <-.
    simpl. rewrite Ascii.eqb_refl. apply IH2. reflexivity.
Qed.

Lemma cues_of_complete A r : forall ls l rest g (k : string -> groups -> option A),
  cues_of r = Some ls -> In l ls -> k rest g <> None ->
  (forall s' g', k s' g' <> None) ->
  matchk false r (l ++ rest) g k <> None.
Proof.
  assert (Base : forall r ls l rest g (k : string -> groups -> option A),
             match lit_of r with Some l => Some [l] | None => None end = Some ls ->
             In l ls -> k rest g <> None ->
             matchk false r (l ++ rest) g k <> None).
  { intros r0 ls l rest g k C I K. destruct (lit_of r0) as [l0 |] eqn:L; [| discriminate].
    injection C as <-. destruct I as [<- | []]. rewrite (@lit_of_complete _ r0 l0 rest g k L). exact K. }
  induction r as [| a | q1 _ q2 _ | r1 IH1 r2 IH2 | a lo hi | n q _];
    intros ls l rest g k C I K T.
  1, 2, 3, 5, 6:
    match type of C with cues_of ?r = _ => exact (Base r ls l rest g k C I K) end.
  simpl in C. destruct (lit_of r1) as [l1 |] eqn:L1; [| discriminate].
  destruct (cues_of r2) as [ls2 |] eqn:C2; [| discriminate]. injection C as <-.
  simpl. destruct (matchk false r1 (l ++ rest) g k) as [y |] eqn:M1; [discriminate |].
  destruct I as [<- | I].
  - rewrite (@lit_of_complete _ r1 l1 rest g k L1) in M1. congruence.
  - eapply IH2; eauto.
Qed.

Lemma search_from_found r ls l : cues_of r = Some ls -> In l ls ->
  forall s before, contains l s = true -> search_from false r before s <> None.
Proof.
  intros C I. induction s as [| c t IH]; intros before H; cbn [contains] in H.
  - rewrite orb_false_r in H. apply starts_with_split in H. destruct H as (rest & E).
    cbn [search_from]. rewrite E. unfold match_at.
    destruct (matchk false r (l ++ rest) [] _) eqn:M; [discriminate |].
    exfalso. revert M. eapply cues_of_complete; [exact C | exact I | discriminate | discriminate].
  - cbn [search_from].
    destruct (match_at false r (srev before) (String c t)) as [m |] eqn:M; [discriminate |].
    apply orb_true_iff in H. destruct H as [H | H].
    + exfalso. apply starts_with_split in H. destruct H as (rest & E).
      rewrite E in M. unfold match_at in M. revert M.
      eapply cues_of_complete; [exact C | exact I | discriminate | discriminate].
    + apply IH. exact H.
Qed.

(** For a pattern that is an alternation of plain texts, [re.search] finds
    something exactly in the strings that contain one of the texts. *)
Lemma search_iff_cue pattern s :
  cues pattern <> [] ->
  (search pattern s <> None <-> existsb (fun cue => contains cue s) (cues pattern) = true).
Proof.
  intros NE. split.
  - intros H. destruct (existsb _ _) eqn:E; [reflexivity |].
    exfalso. apply H. apply search_no_cue; assumption.
  - unfold cues, search in *.
    destruct (compile pattern) as [r |]; [| congruence].
    destruct (cues_of r) as [ls |] eqn:C; [| congruence].
    intros H. apply existsb_exists in H. destruct H as (l & I & H).
    unfold search_re. eapply search_from_found; eassumption.
Qed.

(** X1. The keyword pre-filter is a case-sensitive substring test: a
    pacemaker line passes exactly when it contains one of the 17 cues of the
    pacemaker pattern, a system line exactly when it contains one of the 11
    cues of the system pattern. *)
Theorem keyword_filter_is_substring_test :
  forall line,
    (Re.search pacemaker_log_keywords line <> None
     <-> existsb (fun cue => contains cue line)
           ["LogAction"; "LogNodeActions"; "stonith-ng"; "pacemaker-fenced"; "crit:";
            "check_migration_threshold"; "corosync"; "Result of"; "reboot";
            "cannot run anywhere"; "attrd_peer_update"; "High CPU load detected";
            "cli-ban"; "cli-prefercib-bootstrap-options-maintenance-mode";
            "-is-managed"; "-maintenance"; "-standby"]%string = true)
    /\ (Re.search system_log_keywords line <> None
        <-> existsb (fun cue => contains cue line)
              ["SAPHana("; "SAPHanaController("; "SAPHanaTopology("; "SAPInstance(";
               "gcp-vpc-move-vip"; "gcp:alias"; "gcp:stonith"; "fence_gce"; "corosync[";
               "Result of"; "reboot"]%string = true).
Proof.
  intros line. split.
  - rewrite <- pacemaker_cues. apply search_iff_cue. rewrite pacemaker_cues. discriminate.
  - rewrite <- system_cues. apply search_iff_cue. rewrite system_cues. discriminate.
Qed.

(** ** What a line can do to the table *)

Lemma keywords_cases logtype pattern :
  keywords logtype = Returns pattern ->
  pattern = system_log_keywords \/ pattern = pacemaker_log_keywords.
Proof.
  unfold keywords. destruct (String.eqb logtype "s"); [intros [= <-]; auto |].
  destruct (String.eqb logtype "p"); [intros [= <-]; auto | discriminate].
Qed.

(** What [parse_log_line] returns: the table as it was, or the table with one
    row appended, and then the line has a cue and a timestamp. *)
Lemma parse_log_line_cases now line logtype conn conn' :
  parse_log_line now line logtype conn = Returns conn' ->
  conn' = conn
  \/ exists pattern t kind node component payload,
       keywords logtype = Returns pattern
       /\ Re.search pattern line <> None
       /\ format_timestamp_from_logline now (Re.sub1_empty "\[\d*\]" line)
          = Returns (Some (t, kind))
       /\ conn' = insert_into conn (str t, node, component, payload).
Proof.
  rewrite parse_log_line_unfold. intros H.
  apply bind_returns in H. destruct H as (pattern & K & H).
  destruct (Re.search pattern line) eqn:F; [| injection H as <-; auto].
  cbv zeta in H. apply bind_returns in H. destruct H as (ts & T & H).
  destruct ts as [[t kind] |]; [| injection H as <-; auto].
  apply bind_returns in H. destruct H as (record & R & H). injection H as <-.
  right. exists pattern, t, kind.
  assert (E : exists node component payload, record = (str t, node, component, payload)).
  { destruct (kind =? 1); [| destruct (kind =? 2); [| discriminate]];
      apply bind_returns in R; destruct R as (node & _ & R);
      apply bind_returns in R; destruct R as (component & _ & R);
      apply bind_returns in R; destruct R as (payload & _ & R);
      injection R as <-; eauto. }
  destruct E as (node & component & payload & ->).
  exists node, component, payload. repeat split; try assumption. congruence.
Qed.

Lemma insert_into_neq conn v : insert_into conn v <> conn.
Proof.
  destruct v as [[[a b] c] d]. unfold insert_into. intros E.
  apply (f_equal (@List.length row)) in E. rewrite List.length_app in E. simpl in E. lia.
Qed.

(** X2. A record is made only from a line that contains a cue of the pattern
    of its tag and in which one of the two timestamp grammars matches (after
    the first [[digits]] is removed); any other tag than [s] or [p] ends the
    run. *)
Theorem record_needs_cue_and_timestamp :
  forall now_year line logtype conn conn',
    parse_log_line now_year line logtype conn = Returns conn' ->
    conn' <> conn ->
    (logtype = "s" \/ logtype = "p")%string
    /\ (exists pattern,
          keywords logtype = Returns pattern
          /\ existsb (fun cue => contains cue line) (cues pattern) = true)
    /\ (Re.search (fst time_format1) (Re.sub1_empty "\[\d*\]" line) <> None
        \/ Re.search (fst time_format2) (Re.sub1_empty "\[\d*\]" line) <> None).
Proof.
  intros now line logtype conn conn' H N.
  destruct (parse_log_line_cases _ _ _ _ H)
    as [E | (pattern & t & kind & node & component & payload & K & F & T & E)];
    [congruence |].
  split; [| split].
  - unfold keywords in K.
    destruct (String.eqb logtype "s") eqn:Es; [apply String.eqb_eq in Es; auto |].
    destruct (String.eqb logtype "p") eqn:Ep; [apply String.eqb_eq in Ep; auto | discriminate].
  - exists pattern. split; [exact K |].
    apply search_iff_cue; [| exact F].
    destruct (keywords_cases _ K) as [-> | ->];
      [rewrite system_cues | rewrite pacemaker_cues]; discriminate.
  - unfold format_timestamp_from_logline in T.
    destruct (Re.search (fst time_format1) _); [left; discriminate |].
    destruct (Re.search (fst time_format2) _); [right; discriminate | discriminate].
Qed.

Lemma record_needs_cue_and_timestamp_witness :
  (("p" = "s" \/ "p" = "p")%string
   /\ (exists pattern,
         keywords "p" = Returns pattern
         /\ existsb (fun cue => contains cue line_good) (cues pattern) = true)
   /\ (Re.search (fst time_format1) (Re.sub1_empty "\[\d*\]" line_good) <> None
       \/ Re.search (fst time_format2) (Re.sub1_empty "\[\d*\]" line_good) <> None)).
Proof.
  apply (@record_needs_cue_and_timestamp 2026 line_good "p" []
           (insert_into [] (str (mk 2021 1 5 10 0 1), "node1", "pacemaker-fenced",
                            "notice: remote_op_done: Operation reboot")%string)).
  - vm_compute. reflexivity.
  - discriminate.
Defined.

(** ** The table only grows *)

Lemma parse_lines_appends now logtype lines : forall conn conn',
  parse_lines now lines logtype conn = Returns conn' ->
  exists added, conn' = conn ++ added /\ (List.length added <= List.length lines)%nat.
Proof.
  induction lines as [| line rest IH]; intros conn conn' H; cbn [parse_lines] in H.
  - injection H as <-. exists []. split; [symmetry; apply app_nil_r | simpl; lia].
  - apply bind_returns in H. destruct H as (c & P & H).
    destruct (IH _ _ H) as (added & -> & L).
    destruct (parse_log_line_cases _ _ _ _ P)
      as [-> | (pattern & t & kind & node & component & payload & _ & _ & _ & ->)].
    + exists added. split; [reflexivity | simpl; lia].
    + unfold insert_into. eexists (_ :: added). rewrite <- app_assoc. split; [reflexivity |].
      simpl. lia.
Qed.

Lemma ingestion_appends_lemma now files logtype : forall conn conn',
  logfile_parser now files logtype conn = Returns conn' ->
  exists added,
    conn' = conn ++ added
    /\ (List.length added <= List.length (lines_of files))%nat.
Proof.
  induction files as [| [lines |] rest IH];
    intros conn conn' H; cbn [logfile_parser] in H.
  - injection H as <-. exists []. split; [symmetry; apply app_nil_r | simpl; lia].
  - apply bind_returns in H. destruct H as (c & P & H).
    destruct (parse_lines_appends _ _ _ _ P) as (a1 & -> & L1).
    destruct (IH _ _ H) as (a2 & -> & L2).
    exists (a1 ++ a2). rewrite app_assoc. split; [reflexivity |].
    unfold lines_of in *. cbn [map concat]. rewrite !List.length_app. lia.
  - destruct (IH _ _ H) as (a & -> & L). exists a. split; [reflexivity | exact L].
Qed.

(** X3. Ingestion is append-only: after [logfile_parser] the table is the
    table before it followed by the new rows, at most one per line read;
    rows already stored are neither removed nor changed. *)
Theorem ingestion_appends :
  forall now_year files logtype conn conn',
    logfile_parser now_year files logtype conn = Returns conn' ->
    exists added,
      conn' = conn ++ added
      /\ (List.length added <= List.length (lines_of files))%nat.
Proof.
  intros now files logtype conn conn' H.
  exact (ingestion_appends_lemma _ _ _ _ H).
Qed.

Lemma ingestion_appends_witness :
  exists added,
    [row_noon; mkrow 2 "2021-01-05 10:00:01" "node1" "pacemaker-fenced"
                 "notice: remote_op_done: Operation reboot"]
    = [row_noon] ++ added
    /\ (List.length added <= List.length (lines_of [None; Some [line_cli_prefer; line_good]]))%nat.
Proof.
  apply (@ingestion_appends 2026 [None; Some [line_cli_prefer; line_good]] "p" [row_noon]).
  vm_compute. reflexivity.
Defined.

(** ** Rowids count the stored records *)

Lemma stored_max_rowid conn : stored conn -> max_rowid conn = Z.of_nat (List.length conn).
Proof.
  induction 1 as [| conn t n c p St IH Vt]; [reflexivity |].
  unfold insert_into.
  assert (A : forall (l : table) x, max_rowid (l ++ [x]) = Z.max (max_rowid l) (rowid x)).
  { induction l as [| y l IHl]; intros x.
    - cbn [app]. rewrite max_rowid_cons. change (max_rowid []) with 0.
      pose proof I. lia.
    - cbn [app]. rewrite !max_rowid_cons, IHl. lia. }
  rewrite A, List.length_app. cbn [rowid List.length]. lia.
Qed.

(** X4. The rowid is the insertion sequence: in a table built by inserts the
    k-th row (counting from 1) has rowid k. *)
Theorem rowid_is_insertion_sequence :
  forall conn,
    stored conn ->
    map rowid conn = map Z.of_nat (seq 1 (List.length conn)).
Proof.
  induction 1 as [| conn t n c p St IH Vt]; [reflexivity |].
  unfold insert_into. rewrite map_app, List.length_app, IH. cbn [map rowid List.length].
  rewrite (stored_max_rowid St).
  rewrite Nat.add_1_r, seq_S, map_app. cbn [map]. f_equal. f_equal. lia.
Qed.

Lemma rowid_is_insertion_sequence_witness :
  map rowid table_twins = map Z.of_nat (seq 1 (List.length table_twins)).
Proof.
  apply (@rowid_is_insertion_sequence table_twins). exact stored_twins.
Defined.

(** ** Reading in pieces *)

Lemma bind_assoc A B C (m : outcome A) (f : A -> outcome B) (g : B -> outcome C) :
  (y <- (x <- m ;; f x) ;; g y) = (x <- m ;; y <- f x ;; g y).
Proof. destruct m; reflexivity. Qed.

Lemma parse_lines_app now logtype l1 : forall l2 conn,
  parse_lines now (l1 ++ l2) logtype conn
  = (c <- parse_lines now l1 logtype conn ;; parse_lines now l2 logtype c).
Proof.
  induction l1 as [| line rest IH]; intros l2 conn; cbn [app parse_lines bind].
  - reflexivity.
  - rewrite bind_assoc. destruct (parse_log_line now line logtype conn); cbn [bind]; auto.
Qed.

Lemma logfile_parser_app now logtype f1 : forall f2 conn,
  logfile_parser now (f1 ++ f2) logtype conn
  = (c <- logfile_parser now f1 logtype conn ;; logfile_parser now f2 logtype c).
Proof.
  induction f1 as [| [lines |] rest IH]; intros f2 conn; cbn [app logfile_parser bind].
  - reflexivity.
  - rewrite bind_assoc. destruct (parse_lines now lines logtype conn); cbn [bind]; auto.
  - apply IH.
Qed.

(** X5. Reading composes: the lines of a file cut into two files read one
    after the other give the same outcome as the whole file, a file that
    cannot be opened changes nothing, and so the outcome of [logfile_parser]
    is that of reading the lines of the files that open as one file. *)
Theorem reading_in_pieces :
  forall now_year logtype conn,
    (forall l1 l2,
       logfile_parser now_year [Some l1; Some l2] logtype conn
       = logfile_parser now_year [Some (l1 ++ l2)] logtype conn)
    /\ (forall f1 f2,
          logfile_parser now_year (f1 ++ None :: f2) logtype conn
          = logfile_parser now_year (f1 ++ f2) logtype conn)
    /\ (forall files,
          logfile_parser now_year files logtype conn
          = parse_lines now_year (lines_of files) logtype conn).
Proof.
  intros now logtype conn.
  assert (W : forall files c,
             logfile_parser now files logtype c = parse_lines now (lines_of files) logtype c).
  { induction files as [| [lines |] rest IH]; intros c.
    - reflexivity.
    - unfold lines_of. cbn [map concat logfile_parser]. rewrite parse_lines_app.
      destruct (parse_lines now lines logtype c); cbn [bind]; [apply IH | reflexivity | reflexivity].
    - apply IH. }
  split; [| split].
  - intros l1 l2. rewrite !W. unfold lines_of. cbn [map concat].
    rewrite !app_nil_r. reflexivity.
  - intros f1 f2. rewrite !W. unfold lines_of. rewrite !map_app, !concat_app. reflexivity.
  - intros files. apply W.
Qed.

(** ** The compound query as one filter and one sort *)

Lemma sorted_same_members l1 : forall l2,
  StronglySorted row_before l1 -> StronglySorted row_before l2 ->
  (forall x, In x l1 <-> In x l2) -> l1 = l2.
Proof.
  induction l1 as [| a t1 IH]; intros [| b t2] S1 S2 M.
  - reflexivity.
  - exfalso. apply (proj2 (M b)). left. reflexivity.
  - exfalso. apply (proj1 (M a)). left. reflexivity.
  - inversion S1 as [| ? ? S1' F1]; subst. inversion S2 as [| ? ? S2' F2]; subst.
    rewrite Forall_forall in F1, F2.
    assert (E : a = b).
    { destruct (proj1 (M a) (or_introl eq_refl)) as [E | Ha]; [auto |].
      destruct (proj2 (M b) (or_introl eq_refl)) as [E | Hb]; [auto |].
      exfalso. exact (row_before_asym (F1 _ Hb) (F2 _ Ha)). }
    subst b. f_equal. apply IH; try assumption.
    intros x. split; intros H.
    + destruct (proj1 (M x) (or_intror H)) as [E | H']; [| exact H'].
      subst x. exfalso. exact (row_before_irrefl (F1 _ H)).
    + destruct (proj2 (M x) (or_intror H)) as [E | H']; [| exact H'].
      subst x. exfalso. exact (row_before_irrefl (F2 _ H)).
Qed.

Lemma sorted_strictly conn l :
  stored conn -> (forall x, In x l -> In x conn) -> NoDup l ->
  StronglySorted row_le l -> StronglySorted row_before l.
Proof.
  intros St Sub ND Srt.
  apply StronglySorted_weaken with (R := row_le); [exact Srt |].
  intros l1 x l2 y l3 E Hle. apply row_le_before; [exact Hle |].
  intros Hid. rewrite E in *.
  assert (x = y).
  { eapply stored_rowid_inj; [exact St | | | exact Hid]; apply Sub.
    - apply in_or_app. right. left. reflexivity.
    - apply in_or_app. right. right. apply in_or_app. right. left. reflexivity. }
  exact (@NoDup_split_neq _ _ _ _ _ ND H).
Qed.

(** X6. The eight SELECTs joined by UNION and ordered compute the same list
    as one pass over the table that keeps the rows inside the window which
    satisfy at least one rule, sorted by (TIME, rowid). *)
Theorem query_is_filter_then_sort :
  forall date_begin date_end conn,
    stored conn ->
    matches date_begin date_end conn
    = order_by (filter (fun r => in_window date_begin date_end r && critical r) conn)
    /\ sql_query date_begin date_end conn
       = map columns
           (order_by (filter (fun r => in_window date_begin date_end r && critical r) conn)).
Proof.
  intros b e conn St.
  assert (E : matches b e conn
              = order_by (filter (fun r => in_window b e r && critical r) conn)).
  { apply sorted_same_members.
    - apply matches_sorted. exact St.
    - apply sorted_strictly with (conn := conn).
      + exact St.
      + intros x H. apply (Permutation_in _ (order_by_perm _)) in H.
        apply filter_In in H. tauto.
      + eapply Permutation_NoDup; [symmetry; apply order_by_perm |].
        apply NoDup_filter, stored_NoDup, St.
      + apply order_by_sorted.
    - intros x. rewrite In_matches. split.
      + intros (H1 & H2 & H3).
        apply (Permutation_in _ (Permutation_sym (order_by_perm _))).
        apply filter_In. rewrite H2, H3. auto.
      + intros H. apply (Permutation_in _ (order_by_perm _)) in H.
        apply filter_In in H. rewrite andb_true_iff in H. tauto. }
  split; [exact E |]. unfold sql_query. rewrite E. reflexivity.
Qed.

Lemma query_is_filter_then_sort_witness :
  matches None None table_twins
  = order_by (filter (fun r => in_window None None r && critical r) table_twins)
  /\ sql_query None None table_twins
     = map columns
         (order_by (filter (fun r => in_window None None r && critical r) table_twins)).
Proof.
  apply (@query_is_filter_then_sort None None table_twins). exact stored_twins.
Defined.

(** ** Printed timestamps *)

Lemma str_length t : String.length (str t) = 19%nat.
Proof. reflexivity. Qed.

(** X7. Storing timestamps as text is sound: for timestamps the constructor
    accepts, [str] always gives 19 characters, different timestamps print
    differently, and comparing the printed texts byte by byte (what SQLite
    does for [TIME > '...'] and [ORDER BY TIME]) gives the same answer as
    comparing the timestamps. *)
Theorem printed_timestamps_keep_order :
  forall a b,
    valid a -> valid b ->
    String.length (str a) = 19%nat
    /\ str_compare (str a) (str b) = Datetime.compare a b
    /\ (str_ltb (str a) (str b) = true <-> lt a b)
    /\ (str a = str b <-> a = b).
Proof.
  intros a b Va Vb.
  split; [apply str_length |]. split; [apply str_compare_str; assumption |].
  split; [apply str_ltb_str; assumption |].
  split; [apply str_inj; assumption | intros ->; reflexivity].
Qed.

Lemma printed_timestamps_keep_order_witness :
  String.length (str t_2021_01_01) = 19%nat
  /\ str_compare (str t_2021_01_01) (str t_2021_01_01_noon)
     = Datetime.compare t_2021_01_01 t_2021_01_01_noon
  /\ (str_ltb (str t_2021_01_01) (str t_2021_01_01_noon) = true
      <-> lt t_2021_01_01 t_2021_01_01_noon)
  /\ (str t_2021_01_01 = str t_2021_01_01_noon <-> t_2021_01_01 = t_2021_01_01_noon).
Proof.
  apply (@printed_timestamps_keep_order t_2021_01_01 t_2021_01_01_noon); reflexivity.
Defined.

(** ** [LIKE] and the case of letters *)

Lemma lower_idem c : lower (lower c) = lower c.
Proof. destruct c as [[] [] [] [] [] [] [] []]; reflexivity. Qed.

Lemma eqb_nocase_lower c d : eqb_nocase c (lower d) = eqb_nocase c d.
Proof. unfold eqb_nocase. rewrite lower_idem. reflexivity. Qed.

Lemma like_match_lower toks : forall s, like_match toks (lower_str s) = like_match toks s.
Proof.
  induction toks as [| tok ts IH]; intros s.
  - destruct s; reflexivity.
  - destruct tok; cbn [like_match].
    + induction s as [| c s IHs]; cbn [lower_str].
      * rewrite <- (IH ""). reflexivity.
      * rewrite <- (IH (String c s)). cbn [lower_str]. rewrite IHs. reflexivity.
    + destruct s; cbn [lower_str]; [reflexivity | apply IH].
    + destruct s; cbn [lower_str]; [reflexivity |].
      rewrite eqb_nocase_lower, IH. reflexivity.
    + reflexivity.
Qed.

Lemma LIKE_lower x p : LIKE (lower_str x) p = LIKE x p.
Proof. apply like_match_lower. Qed.

Lemma LIKE_ESCAPE_lower x p e : LIKE_ESCAPE (lower_str x) p e = LIKE_ESCAPE x p e.
Proof. apply like_match_lower. Qed.

Lemma LIKE_same_lower x y p : lower_str x = lower_str y -> LIKE x p = LIKE y p.
Proof. intros E. rewrite <- (LIKE_lower x), <- (LIKE_lower y), E. reflexivity. Qed.

Lemma LIKE_ESCAPE_same_lower x y p e :
  lower_str x = lower_str y -> LIKE_ESCAPE x p e = LIKE_ESCAPE y p e.
Proof.
  intros E. rewrite <- (LIKE_ESCAPE_lower x), <- (LIKE_ESCAPE_lower y), E. reflexivity.
Qed.

(** X8. The rules do not see the case of the letters of the payload: two
    rows that differ only in the case of payload letters satisfy the same
    rules, so they are both critical or both not. *)
Theorem rules_ignore_payload_case :
  forall r payload,
    lower_str payload = lower_str (PAYLOAD r) ->
    Forall (fun rule => rule (with_payload r payload) = rule r) rules
    /\ critical (with_payload r payload) = critical r.
Proof.
  intros r payload E.
  assert (L : forall p, LIKE (PAYLOAD (with_payload r payload)) p = LIKE (PAYLOAD r) p).
  { intros p. apply LIKE_same_lower. exact E. }
  assert (LE : forall p e, LIKE_ESCAPE (PAYLOAD (with_payload r payload)) p e
                           = LIKE_ESCAPE (PAYLOAD r) p e).
  { intros p e. apply LIKE_ESCAPE_same_lower. exact E. }
  assert (F : Forall (fun rule => rule (with_payload r payload) = rule r) rules).
  { unfold rules. repeat constructor.
    - unfold R1. rewrite LE, !L. reflexivity.
    - unfold R2. rewrite !L. reflexivity.
    - unfold R3. rewrite !L. reflexivity.
    - unfold R4. rewrite !L. reflexivity.
    - unfold R5. rewrite !L. reflexivity.
    - unfold R6. rewrite !L. reflexivity.
    - unfold R7. rewrite !L. reflexivity.
    - unfold R8. rewrite !L. reflexivity. }
  split; [exact F |].
  unfold critical. induction F as [| rule l H F IH]; [reflexivity |].
  cbn [existsb]. rewrite H, IH. reflexivity.
Qed.

Lemma rules_ignore_payload_case_witness :
  Forall (fun rule => rule (with_payload twin1 "NOTICE: Remote_Op_Done: OPERATION reboot CRIT: failed")
                      = rule twin1) rules
  /\ critical (with_payload twin1 "NOTICE: Remote_Op_Done: OPERATION reboot CRIT: failed")
     = critical twin1.
Proof.
  apply (@rules_ignore_payload_case twin1
           "NOTICE: Remote_Op_Done: OPERATION reboot CRIT: failed").
  reflexivity.
Defined.

(** ** [LIKE '%text%'] as a substring test *)

Lemma like_match_any s : like_match [Any] s = true.
Proof. induction s as [| c s IH]; [reflexivity |]. cbn [like_match] in *. exact IH. Qed.

Lemma like_match_lits l : forall s,
  like_match (map Lit (list_ascii_of_string l) ++ [Any]) s
  = starts_with (lower_str l) (lower_str s).
Proof.
  induction l as [| c l IH]; intros s.
  - cbn [list_ascii_of_string map app lower_str starts_with]. apply like_match_any.
  - cbn [list_ascii_of_string map app like_match lower_str].
    destruct s as [| d s]; [reflexivity |].
    cbn [lower_str starts_with]. rewrite IH. unfold eqb_nocase.
    destruct (Ascii.eqb (lower c) (lower d)); reflexivity.
Qed.

(** A pattern [%text%] whose text has no wildcard finds the text anywhere in
    the value, without regard to the case of letters. *)
Lemma like_match_contains l s :
  like_match (Any :: map Lit (list_ascii_of_string l) ++ [Any]) s
  = contains (lower_str l) (lower_str s).
Proof.
  cbn [like_match].
  induction s as [| d s IH].
  - rewrite like_match_lits. cbn [lower_str contains]. rewrite orb_false_r.
    destruct (starts_with (lower_str l) ""); reflexivity.
  - rewrite like_match_lits. cbn [lower_str contains].
    destruct (starts_with (lower_str l) (String (lower d) (lower_str s))); [reflexivity |].
    cbn [orb]. exact IH.
Qed.

(** X9. R3 and R8 are substring tests on the payload without regard to the
    case of letters, and R4 leaves out every payload in which the letters
    [ok], [cancelled] or [probe] occur anywhere, in any case, also inside a
    longer word. *)
Theorem rules_as_substring_tests :
  forall r,
    R8 r = contains "cli-ban" (lower_str (PAYLOAD r))
           || contains "cli-prefer" (lower_str (PAYLOAD r))
    /\ R3 r = contains "totem" (lower_str (PAYLOAD r))
              && (contains "failed" (lower_str (PAYLOAD r))
                  || contains "membership" (lower_str (PAYLOAD r))
                  || contains "retransmit" (lower_str (PAYLOAD r)))
    /\ R4 r = LIKE (PAYLOAD r) "%Result%of%operation%"
              && negb (contains "ok" (lower_str (PAYLOAD r)))
              && negb (contains "cancelled" (lower_str (PAYLOAD r)))
              && negb (contains "probe" (lower_str (PAYLOAD r))).
Proof.
  intros r.
  assert (L : forall l, LIKE (PAYLOAD r) ("%" ++ l ++ "%")
                        = like_match (like_tokens None ("%" ++ l ++ "%")) (PAYLOAD r))
    by reflexivity.
  unfold R8, R3, R4.
  change (LIKE (PAYLOAD r) "%cli-ban%")
    with (like_match (Any :: map Lit (list_ascii_of_string "cli-ban") ++ [Any]) (PAYLOAD r)).
  change (LIKE (PAYLOAD r) "%cli-prefer%")
    with (like_match (Any :: map Lit (list_ascii_of_string "cli-prefer") ++ [Any]) (PAYLOAD r)).
  change (LIKE (PAYLOAD r) "%TOTEM%")
    with (like_match (Any :: map Lit (list_ascii_of_string "TOTEM") ++ [Any]) (PAYLOAD r)).
  change (LIKE (PAYLOAD r) "%failed%")
    with (like_match (Any :: map Lit (list_ascii_of_string "failed") ++ [Any]) (PAYLOAD r)).
  change (LIKE (PAYLOAD r) "%membership%")
    with (like_match (Any :: map Lit (list_ascii_of_string "membership") ++ [Any]) (PAYLOAD r)).
  change (LIKE (PAYLOAD r) "%Retransmit%")
    with (like_match (Any :: map Lit (list_ascii_of_string "Retransmit") ++ [Any]) (PAYLOAD r)).
  change (LIKE (PAYLOAD r) "%ok%")
    with (like_match (Any :: map Lit (list_ascii_of_string "ok") ++ [Any]) (PAYLOAD r)).
  change (LIKE (PAYLOAD r) "%Cancelled%")
    with (like_match (Any :: map Lit (list_ascii_of_string "Cancelled") ++ [Any]) (PAYLOAD r)).
  change (LIKE (PAYLOAD r) "%probe%")
    with (like_match (Any :: map Lit (list_ascii_of_string "probe") ++ [Any]) (PAYLOAD r)).
  rewrite !like_match_contains. repeat split; reflexivity.
Qed.

(** ** Bounds given on the command line *)

Lemma field_default n d g : lookup n g = None -> field n d g = Some d.
Proof. unfold field. intros ->. reflexivity. Qed.

(** What [strptime] found: the groups of the format, and no others. *)
Lemma strptime_groups data fmt r t :
  pattern fmt = Some r -> strptime data fmt = Some t ->
  exists g,
    (forall n, binds r n = false -> lookup n g = None)
    /\ match field "Y" 1900 g, month_of g, field "d" 1 g,
             field "H" 0 g, field "M" 0 g, field "S" 0 g with
       | Some y, Some m, Some d, Some hh, Some mi, Some ss => new y m d hh mi ss
       | _, _, _, _, _, _ => None
       end = Some t.
Proof.
  intros P. unfold strptime. rewrite P. unfold match_at.
  destruct (matchk true r data [] _) as [found |] eqn:M; [| discriminate].
  apply matchk_keeps in M. destruct M as (s' & g' & [= <-] & K).
  cbn [post named]. destruct s'; [| discriminate].
  intros H. exists g'. split; [| exact H].
  intros n B. rewrite (K n B). reflexivity.
Qed.

Lemma new_fields y m d hh mi ss t :
  new y m d hh mi ss = Some t ->
  year t = y /\ month t = m /\ day t = d /\ hour t = hh /\ minute t = mi /\ second t = ss.
Proof.
  unfold new. destruct (in_range y m d hh mi ss); [| discriminate].
  intros [= <-]. repeat split.
Qed.

Lemma strptime_date_time_seconds data t :
  strptime data "%Y-%m-%d-%H:%M" = Some t -> second t = 0.
Proof.
  intros H.
  destruct (pattern "%Y-%m-%d-%H:%M") as [r |] eqn:P; [| discriminate P].
  destruct (strptime_groups _ _ P H) as (g & K & E).
  assert (B : binds r "S" = false) by (vm_compute in P; injection P as <-; vm_compute; reflexivity).
  rewrite (field_default "S" 0 g (K _ B)) in E.
  destruct (field "Y" 1900 g), (month_of g), (field "d" 1 g), (field "H" 0 g),
    (field "M" 0 g); try discriminate.
  apply new_fields in E. tauto.
Qed.

Lemma strptime_date_midnight data t :
  strptime data "%Y-%m-%d" = Some t -> hour t = 0 /\ minute t = 0 /\ second t = 0.
Proof.
  intros H.
  destruct (pattern "%Y-%m-%d") as [r |] eqn:P; [| discriminate P].
  destruct (strptime_groups _ _ P H) as (g & K & E).
  assert (BH : binds r "H" = false) by (vm_compute in P; injection P as <-; vm_compute; reflexivity).
  assert (BM : binds r "M" = false) by (vm_compute in P; injection P as <-; vm_compute; reflexivity).
  assert (BS : binds r "S" = false) by (vm_compute in P; injection P as <-; vm_compute; reflexivity).
  rewrite (field_default "H" 0 g (K _ BH)), (field_default "M" 0 g (K _ BM)),
    (field_default "S" 0 g (K _ BS)) in E.
  destruct (field "Y" 1900 g), (month_of g), (field "d" 1 g); try discriminate.
  apply new_fields in E. tauto.
Qed.

(** X10. A bound accepted by [format_timestamp_from_timeinput] is a
    timestamp the constructor accepts, with its seconds at 0; when the text
    does not have the shape YYYY-MM-DD-HH:MM anywhere, the bound is midnight
    of its day. *)
Theorem accepted_bound :
  forall time t,
    format_timestamp_from_timeinput time = Returns t ->
    valid t /\ second t = 0
    /\ (Re.search "\d{4}-\d\d-\d\d-\d\d:\d\d" time <> None
        \/ (hour t = 0 /\ minute t = 0)).
Proof.
  intros time t H. split; [exact (timeinput_valid _ H) |].
  revert H. unfold format_timestamp_from_timeinput.
  destruct (Re.search _ time) eqn:S1; cbn [fst] in S1.
  - destruct (strptime time _) eqn:P; [| discriminate]. intros [= <-].
    split; [exact (strptime_date_time_seconds _ P) |]. left. discriminate.
  - clear S1. destruct (Re.search _ time); [| intros [=]].
    destruct (strptime time _) eqn:P; [| intros [=]].
    intros E. injection E as E. subst.
    apply strptime_date_midnight in P. tauto.
Qed.

Lemma accepted_bound_witness :
  valid t_2021_01_02 /\ second t_2021_01_02 = 0
  /\ (Re.search "\d{4}-\d\d-\d\d-\d\d:\d\d" "2021-01-02" <> None
      \/ (hour t_2021_01_02 = 0 /\ minute t_2021_01_02 = 0)).
Proof.
  apply (@accepted_bound "2021-01-02" t_2021_01_02). vm_compute. reflexivity.
Defined.

(** ** What [__init__] lets through *)

Lemma and_then_opp c d : CompOpp (and_then c d) = and_then (CompOpp c) (CompOpp d).
Proof. destruct c; reflexivity. Qed.

Lemma compare_antisym a b : Datetime.compare b a = CompOpp (Datetime.compare a b).
Proof.
  unfold Datetime.compare. rewrite !and_then_opp, <- !Z.compare_antisym. reflexivity.
Qed.

Lemma bound_returns text o :
  Init.bound text = Returns o ->
  bound_valid o /\ (o = None <-> text = None).
Proof.
  unfold Init.bound. destruct text as [x |].
  - intros H. apply bind_returns in H. destruct H as (t & T & [= <-]).
    split; [exact (timeinput_valid _ T) | split; discriminate].
  - intros [= <-]. split; [exact I | tauto].
Qed.

Lemma at_most_two_returns files u :
  Init.at_most_two files = Returns u -> short_list files.
Proof.
  unfold Init.at_most_two, short_list. destruct files as [l |]; [| trivial].
  destruct (2 <? List.length l)%nat eqn:E; [discriminate |].
  intros _. apply Nat.ltb_ge in E. exact E.
Qed.

(** X11. When [__init__] does not end the run, at least one source was
    given, no source has more than two files, each bound given is a
    timestamp the constructor accepts, a begin bound and an end bound are in
    strict order (equal bounds end the run), the sources are kept as given,
    and the table is empty. *)
Theorem init_checks :
  forall v c,
    Init.init v = Returns c ->
    (Init.s v <> None \/ Init.p v <> None \/ Init.hb v <> None \/ Init.sos v <> None)
    /\ bound_valid (Init.date_begin c) /\ bound_valid (Init.date_end c)
    /\ (Init.date_begin c = None <-> Init.b v = None)
    /\ (Init.date_end c = None <-> Init.e v = None)
    /\ in_order (Init.date_begin c) (Init.date_end c)
    /\ short_list (Init.s v) /\ short_list (Init.p v)
    /\ short_list (Init.hb v) /\ short_list (Init.sos v)
    /\ Init.system_log c = Init.s v /\ Init.pacemaker_log c = Init.p v
    /\ Init.hb_report c = Init.hb v /\ Init.SOSREPORT c = Init.sos v
    /\ Init.conn c = [].
Proof.
  intros v c. unfold Init.init.
  destruct (Init.missing (Init.s v) && Init.missing (Init.p v)
            && Init.missing (Init.hb v) && Init.missing (Init.sos v))%bool eqn:M;
    [discriminate |].
  intros H.
  apply bind_returns in H. destruct H as (tb & B & H).
  apply bind_returns in H. destruct H as (te & E & H).
  apply bind_returns in H. destruct H as (u0 & O & H).
  apply bind_returns in H. destruct H as (u1 & S1 & H).
  apply bind_returns in H. destruct H as (u2 & S2 & H).
  apply bind_returns in H. destruct H as (u3 & S3 & H).
  apply bind_returns in H. destruct H as (u4 & S4 & H).
  injection H as <-. cbn [Init.date_begin Init.date_end Init.system_log
    Init.pacemaker_log Init.hb_report Init.SOSREPORT Init.conn].
  apply bound_returns in B. apply bound_returns in E.
  apply at_most_two_returns in S1. apply at_most_two_returns in S2.
  apply at_most_two_returns in S3. apply at_most_two_returns in S4.
  assert (Src : Init.s v <> None \/ Init.p v <> None \/ Init.hb v <> None
                \/ Init.sos v <> None).
  { destruct (Init.s v); [left; discriminate |].
    destruct (Init.p v); [right; left; discriminate |].
    destruct (Init.hb v); [right; right; left; discriminate |].
    destruct (Init.sos v); [right; right; right; discriminate | discriminate M]. }
  assert (Ord : in_order tb te).
  { unfold in_order. destruct tb as [x |], te as [y |]; try exact I.
    unfold lt. rewrite (compare_antisym y x).
    destruct (Datetime.compare y x); try discriminate. reflexivity. }
  repeat split; try tauto; try assumption.
Qed.

Lemma init_checks_witness :
  (Init.s sample_variables <> None \/ Init.p sample_variables <> None
   \/ Init.hb sample_variables <> None \/ Init.sos sample_variables <> None)
  /\ bound_valid (Init.date_begin sample_config) /\ bound_valid (Init.date_end sample_config)
  /\ (Init.date_begin sample_config = None <-> Init.b sample_variables = None)
  /\ (Init.date_end sample_config = None <-> Init.e sample_variables = None)
  /\ in_order (Init.date_begin sample_config) (Init.date_end sample_config)
  /\ short_list (Init.s sample_variables) /\ short_list (Init.p sample_variables)
  /\ short_list (Init.hb sample_variables) /\ short_list (Init.sos sample_variables)
  /\ Init.system_log sample_config = Init.s sample_variables
  /\ Init.pacemaker_log sample_config = Init.p sample_variables
  /\ Init.hb_report sample_config = Init.hb sample_variables
  /\ Init.SOSREPORT sample_config = Init.sos sample_variables
  /\ Init.conn sample_config = [].
Proof.
  apply (@init_checks sample_variables sample_config). vm_compute. reflexivity.
Defined.

(** ** A syslog line of 29 February *)

Lemma search_feb_29 rest :
  Re.search (fst time_format1) ("Feb 29 00:00:00" ++ rest)
  = Some {| pre := ""; group := "Feb 29 00:00:00"; post := rest; named := [] |}.
Proof.
  unfold Re.search. rewrite compile_format1.
  rewrite <- (consumed_app "Feb 29 00:00:00" rest) at 2.
  unfold search_re, format1_re. cbn [append search_from match_at].
  cbn - [consumed]. reflexivity.
Qed.

Lemma strptime_feb_29 y :
  1000 <= y <= 9999 ->
  strptime (str_int y ++ " " ++ "Feb 29 00:00:00") (snd time_format1)
  = new y 2 29 0 0 0.
Proof.
  intros H. unfold strptime. rewrite pattern_format1. unfold match_at.
  rewrite (str_int_year H).
  change (matchk true (Cat year_re after_year_re) ?s ?g ?k)
    with (matchk true year_re s g (fun s' g' => matchk true after_year_re s' g' k)).
  rewrite matchk_year by lia.
  cbv - [int new pad4].
  rewrite int_pad4 by lia.
  cbv - [new]. reflexivity.
Qed.

Lemma new_feb_29 y :
  1000 <= y <= 9999 ->
  new y 2 29 0 0 0 = if is_leap y then Some (mk y 2 29 0 0 0) else None.
Proof.
  intros H. unfold new, in_range, days_in_month.
  rewrite (proj2 (within_spec 1 9999 y)) by lia.
  change (2 =? 2) with true. cbv iota.
  destruct (is_leap y); reflexivity.
Qed.

(** X12. The year put in front of a syslog timestamp decides what becomes of
    29 February: a line that starts with [Feb 29 00:00:00] is given that day
    of the clock year when the clock year is a leap year, and ends the run
    when it is not. *)
Theorem feb_29_needs_leap_clock_year :
  forall now_year rest,
    1000 <= now_year <= 9999 ->
    format_timestamp_from_logline now_year ("Feb 29 00:00:00" ++ rest)
    = if is_leap now_year then Returns (Some (mk now_year 2 29 0 0 0, 1)) else SysExit.
Proof.
  intros now rest H. unfold format_timestamp_from_logline.
  rewrite search_feb_29. cbn [group].
  rewrite (strptime_feb_29 H), (new_feb_29 H).
  destruct (is_leap now); reflexivity.
Qed.

Lemma feb_29_needs_leap_clock_year_witness :
  format_timestamp_from_logline 2024 ("Feb 29 00:00:00" ++ " node1 corosync: reboot")
  = Returns (Some (mk 2024 2 29 0 0 0, 1))
  /\ format_timestamp_from_logline 2026 ("Feb 29 00:00:00" ++ " node1 corosync: reboot")
     = SysExit.
Proof.
  split.
  - apply (@feb_29_needs_leap_clock_year 2024 " node1 corosync: reboot"). lia.
  - apply (@feb_29_needs_leap_clock_year 2026 " node1 corosync: reboot"). lia.
Defined.

(** ** What a match reads *)

Lemma any_char_app f a b : any_char f (a ++ b) = any_char f a || any_char f b.
Proof. induction a as [| c a IH]; simpl; [reflexivity |]. rewrite IH. apply orb_assoc. Qed.

Lemma append_nil_r s : (s ++ "")%string = s.
Proof. induction s as [| c s IH]; simpl; congruence. Qed.

(** A repetition reads a run of accepted characters, at least [lo] of them. *)
Lemma rep_splits ic A a : forall s lo hi (k : string -> option A) x,
  rep ic a lo hi s k = Some x ->
  exists p s', s = (p ++ s')%string /\ k s' = Some x
               /\ (lo <= String.length p)%nat
               /\ (p = ""%string \/ any_char (accepts ic a) p = true).
Proof.
  assert (Stop : forall s lo (k : string -> option A) x,
             (if (lo =? 0)%nat then k s else None) = Some x ->
             exists p s', s = (p ++ s')%string /\ k s' = Some x
                          /\ (lo <= String.length p)%nat
                          /\ (p = ""%string \/ any_char (accepts ic a) p = true)).
  { intros s lo k x H. destruct (lo =? 0)%nat eqn:E; [| discriminate].
    apply Nat.eqb_eq in E. exists ""%string, s. simpl. repeat split; auto; lia. }
  induction s as [| c t IH]; intros lo hi k x H; cbn [rep] in H.
  - apply Stop. exact H.
  - destruct (accepts ic a c && more hi) eqn:Acc; [| apply Stop; exact H].
    destruct (rep ic a (pred lo) (dec hi) t k) as [y |] eqn:E; [| apply Stop; exact H].
    injection H as <-. destruct (IH _ _ _ _ E) as (p & s' & -> & K & L & _).
    exists (String c p), s'. apply andb_true_iff in Acc. destruct Acc as [Acc _].
    cbn [append String.length any_char]. rewrite Acc. repeat split; auto; lia.
Qed.

(** A match reads a prefix of the string and hands the rest to what follows;
    an expression that needs a digit has read one. *)
Lemma matchk_splits ic A r : forall s g (k : string -> groups -> option A) x,
  matchk ic r s g k = Some x ->
  exists p s' g', s = (p ++ s')%string /\ k s' g' = Some x
                  /\ (must_digit r = true -> has_digit p = true).
Proof.
  unfold has_digit.
  induction r as [| a | r1 IH1 r2 IH2 | r1 IH1 r2 IH2 | a lo hi | n r1 IH1];
    intros s g k x H; cbn [matchk] in H.
  - exists ""%string, s, g. repeat split; auto; discriminate.
  - destruct s as [| c t]; [discriminate |].
    destruct (accepts ic a c) eqn:Acc; [| discriminate].
    exists (String c ""), t, g. repeat split; auto.
    intros M. destruct a as [d | [ | | ] | lo hi]; try discriminate.
    cbn [any_char]. cbn [accepts in_cls] in Acc. rewrite Acc. reflexivity.
  - destruct (IH1 _ _ _ _ H) as (p1 & s1 & g1 & -> & H1 & D1).
    destruct (IH2 _ _ _ _ H1) as (p2 & s2 & g2 & -> & H2 & D2).
    exists (p1 ++ p2)%string, s2, g2. rewrite append_assoc. repeat split; auto.
    cbn [must_digit]. rewrite any_char_app. intros M. apply orb_true_iff in M.
    apply orb_true_iff. tauto.
  - cbn [must_digit]. destruct (matchk ic r1 s g k) as [y |] eqn:E.
    + injection H as <-. destruct (IH1 _ _ _ _ E) as (p & s' & g' & -> & H1 & D1).
      exists p, s', g'. repeat split; auto. intros M. apply andb_true_iff in M. tauto.
    + destruct (IH2 _ _ _ _ H) as (p & s' & g' & -> & H2 & D2).
      exists p, s', g'. repeat split; auto. intros M. apply andb_true_iff in M. tauto.
  - destruct (rep_splits _ _ _ _ _ _ H) as (p & s' & -> & K & L & Acc).
    exists p, s', g. repeat split; auto.
    intros M. destruct a as [d | [ | | ] | l h]; try discriminate.
    cbn [must_digit] in M. apply Nat.leb_le in M.
    destruct Acc as [-> | Acc]; [simpl in L; lia |]. exact Acc.
  - destruct (IH1 _ _ _ _ H) as (p & s' & g' & -> & H1 & D1).
    eexists p, s', _. repeat split; eauto.
Qed.

Lemma match_at_splits ic r before s m :
  match_at ic r before s = Some m ->
  pre m = before /\ s = (group m ++ post m)%string
  /\ (must_digit r = true -> has_digit (group m) = true).
Proof.
  unfold match_at. intros H.
  destruct (matchk_splits _ _ _ _ _ H) as (p & s' & g' & -> & [= <-] & D).
  cbn [pre group post]. rewrite consumed_app. auto.
Qed.

Lemma srev_app_spec s : forall acc, srev_app s acc = (srev s ++ acc)%string.
Proof.
  unfold srev. induction s as [| c s IH]; intros acc; cbn [srev_app]; [reflexivity |].
  rewrite IH, (IH (String c "")), append_assoc. reflexivity.
Qed.

Lemma srev_cons c s : srev (String c s) = (srev s ++ String c "")%string.
Proof. unfold srev at 1. cbn [srev_app]. apply srev_app_spec. Qed.

(** The leftmost match: the text before it is what was skipped, and the
    match was tried and failed at every skipped character. *)
Lemma search_from_splits ic r : forall s before m,
  search_from ic r before s = Some m ->
  exists skipped,
    pre m = (srev before ++ skipped)%string
    /\ s = (skipped ++ group m ++ post m)%string
    /\ (must_digit r = true -> has_digit (group m) = true)
    /\ (forall a c b, skipped = (a ++ String c b)%string ->
          exists bf, match_at ic r bf (String c b ++ group m ++ post m) = None).
Proof.
  induction s as [| c t IH]; intros before m H; cbn [search_from] in H.
  - destruct (match_at ic r (srev before) "") as [y |] eqn:M; [| discriminate].
    injection H as <-. apply match_at_splits in M. destruct M as (P & S & D).
    exists ""%string. rewrite append_nil_r. repeat split; auto.
    intros [| ? ?] ? ? E; discriminate E.
  - destruct (match_at ic r (srev before) (String c t)) as [y |] eqn:M.
    + injection H as <-. apply match_at_splits in M. destruct M as (P & S & D).
      exists ""%string. rewrite append_nil_r. repeat split; auto.
      intros [| ? ?] ? ? E; discriminate E.
    + destruct (IH _ _ H) as (sk & P & S & D & F).
      exists (String c sk). rewrite P, srev_cons, append_assoc. cbn [append].
      repeat split; auto; [congruence |].
      intros [| x a] c' b E.
      * cbn [append] in E. injection E as <- <-. rewrite <- S.
        exists (srev before). exact M.
      * cbn [append] in E. injection E as -> E. eapply F. exact E.
Qed.

(** ** Lines without a digit *)

Lemma search_splits pattern s m :
  Re.search pattern s = Some m ->
  s = (pre m ++ group m ++ post m)%string
  /\ (forall r, compile pattern = Some r -> must_digit r = true ->
        has_digit (group m) = true).
Proof.
  unfold Re.search. destruct (compile pattern) as [r |]; [| discriminate].
  unfold search_re. intros H.
  destruct (@search_from_splits _ _ _ _ _ H) as (sk & P & S & D & _).
  cbn [srev srev_app append] in P. change (srev "") with ""%string in P.
  cbn [append] in P. subst sk. split; [exact S |].
  intros r0 [= <-]. exact D.
Qed.

Lemma search_needs_digit pattern r s :
  compile pattern = Some r -> must_digit r = true ->
  has_digit s = false -> Re.search pattern s = None.
Proof.
  intros C M H. destruct (Re.search pattern s) as [m |] eqn:S; [| reflexivity].
  destruct (@search_splits _ _ _ S) as (E & D). specialize (D _ C M).
  rewrite E in H. unfold has_digit in *. rewrite !any_char_app, D in H.
  rewrite orb_true_r in H. discriminate.
Qed.

Lemma sub1_empty_chars f pattern s :
  any_char f s = false -> any_char f (Re.sub1_empty pattern s) = false.
Proof.
  unfold Re.sub1_empty. intros H.
  destruct (Re.search pattern s) as [m |] eqn:S; [| exact H].
  destruct (@search_splits _ _ _ S) as (E & _). rewrite E in H.
  rewrite !any_char_app in H. rewrite any_char_app.
  apply orb_false_iff in H. destruct H as [H1 H2].
  apply orb_false_iff in H2. rewrite H1. tauto.
Qed.

Lemma format_timestamp_no_digit now line :
  has_digit line = false -> format_timestamp_from_logline now line = Returns None.
Proof.
  intros H. unfold format_timestamp_from_logline.
  rewrite (@search_needs_digit (fst time_format1) format1_re line compile_format1
             ltac:(vm_compute; reflexivity) H).
  assert (C2 : exists r, compile (fst time_format2) = Some r /\ must_digit r = true)
    by (eexists; split; vm_compute; reflexivity).
  destruct C2 as (r2 & C2 & M2).
  rewrite (@search_needs_digit _ _ line C2 M2 H). reflexivity.
Qed.

(** X13. A line in which no decimal digit occurs has no timestamp in either
    grammar: whatever cues it contains, it is dropped without a record and
    the lines after it are read as if it were not there. *)
Theorem line_without_digit_is_dropped :
  forall now_year line logtype conn rest,
    has_digit line = false ->
    (logtype = "s" \/ logtype = "p")%string ->
    format_timestamp_from_logline now_year (Re.sub1_empty "\[\d*\]" line) = Returns None
    /\ parse_log_line now_year line logtype conn = Returns conn
    /\ parse_lines now_year (line :: rest) logtype conn
       = parse_lines now_year rest logtype conn.
Proof.
  intros now line logtype conn rest H T.
  assert (F : format_timestamp_from_logline now (Re.sub1_empty "\[\d*\]" line)
              = Returns None).
  { apply format_timestamp_no_digit. apply sub1_empty_chars. exact H. }
  assert (P : parse_log_line now line logtype conn = Returns conn).
  { rewrite parse_log_line_unfold.
    assert (K : exists pattern, keywords logtype = Returns pattern)
      by (destruct T as [-> | ->]; eexists; reflexivity).
    destruct K as (pattern & ->). cbn [bind].
    destruct (Re.search pattern line); [| reflexivity].
    cbv zeta. rewrite F. reflexivity. }
  split; [exact F |]. split; [exact P |].
  cbn [parse_lines]. rewrite P. reflexivity.
Qed.

Lemma line_without_digit_is_dropped_witness :
  Re.search pacemaker_log_keywords line_no_digit <> None
  /\ format_timestamp_from_logline 2026 (Re.sub1_empty "\[\d*\]" line_no_digit)
     = Returns None
  /\ parse_log_line 2026 line_no_digit "p" [] = Returns []
  /\ parse_lines 2026 [line_no_digit; line_good] "p" []
     = parse_lines 2026 [line_good] "p" [].
Proof.
  split; [vm_compute; discriminate |].
  apply (@line_without_digit_is_dropped 2026 line_no_digit "p" [] [line_good]).
  - vm_compute. reflexivity.
  - right. reflexivity.
Defined.

(** ** The fields of a stored row *)

Lemma rep_zero_total ic A a : forall s hi (k : string -> option A),
  (forall s', k s' <> None) -> rep ic a 0 hi s k <> None.
Proof.
  induction s as [| c t IH]; intros hi k T; cbn [rep Nat.eqb pred].
  - apply T.
  - destruct (accepts ic a c && more hi); [| apply T].
    destruct (rep ic a 0 (dec hi) t k) eqn:E; [discriminate | apply T].
Qed.

Lemma match_space_start bf c b :
  is_space c = true -> match_at false (Rep (Class Space) 1 None) bf (String c b) <> None.
Proof.
  intros H. unfold match_at. cbn [matchk rep accepts in_cls more andb pred dec].
  rewrite H. cbn [andb].
  destruct (rep false (Class Space) 0 None b _) eqn:E; [discriminate |].
  exfalso. revert E. apply rep_zero_total. discriminate.
Qed.

Lemma no_space_chars sk :
  (forall a c b, sk = (a ++ String c b)%string -> is_space c = false) ->
  has_space sk = false.
Proof.
  unfold has_space. induction sk as [| c sk IH]; intros H; [reflexivity |].
  cbn [any_char]. rewrite (H ""%string c sk eq_refl). cbn [orb].
  apply IH. intros a c' b E. apply (H (String c a) c' b). rewrite E. reflexivity.
Qed.

(** What [re.split] puts before a separator has no white space in it. *)
Lemma search_space_pre s m :
  Re.search "\s+" s = Some m -> has_space (pre m) = false.
Proof.
  unfold Re.search. change (compile "\s+") with (Some (Rep (Class Space) 1 None)).
  unfold search_re. intros H.
  destruct (@search_from_splits _ _ _ _ _ H) as (sk & P & _ & _ & F).
  change (srev "") with ""%string in P. cbn [append] in P. rewrite P.
  apply no_space_chars. intros a c b E.
  destruct (F _ _ _ E) as (bf & N).
  destruct (is_space c) eqn:Sp; [| reflexivity].
  exfalso. revert N. apply match_space_start. exact Sp.
Qed.

Lemma split_fields n : forall s i x,
  nth_error (Re.split "\s+" s n) i = Some x ->
  nth_error (Re.split "\s+" s n) (S i) <> None ->
  has_space x = false.
Proof.
  induction n as [| n IH]; intros s i x H N; cbn [Re.split] in *.
  - destruct i; [| destruct i; discriminate]. exfalso. apply N. reflexivity.
  - destruct (Re.search "\s+" s) as [m |] eqn:S.
    + destruct i as [| i].
      * injection H as <-. exact (@search_space_pre _ _ S).
      * exact (@IH _ _ _ H N).
    + destruct i; [| destruct i; discriminate]. exfalso. apply N. reflexivity.
Qed.

Lemma srev_app_distr a b : srev (a ++ b) = (srev b ++ srev a)%string.
Proof.
  induction a as [| c a IH]; cbn [append].
  - change (srev "") with ""%string. symmetry. apply append_nil_r.
  - rewrite !srev_cons, IH, append_assoc. reflexivity.
Qed.

Lemma srev_involutive s : srev (srev s) = s.
Proof.
  induction s as [| c s IH]; [reflexivity |].
  rewrite srev_cons, srev_app_distr, IH. reflexivity.
Qed.

Lemma any_char_srev f s : any_char f (srev s) = any_char f s.
Proof.
  induction s as [| c s IH]; [reflexivity |].
  rewrite srev_cons, any_char_app, IH. cbn [any_char]. rewrite orb_false_r. apply orb_comm.
Qed.

Lemma lstrip_suffix chars s : exists a, s = (a ++ lstrip chars s)%string.
Proof.
  induction s as [| c s IH]; [exists ""%string; reflexivity |].
  cbn [lstrip]. destruct (mem c chars); [| exists ""%string; reflexivity].
  destruct IH as (a & E). exists (String c a). cbn [append]. congruence.
Qed.

Lemma lstrip_first chars s c :
  first_char (lstrip chars s) = Some c -> mem c chars = false.
Proof.
  induction s as [| d s IH]; cbn [lstrip]; [discriminate |].
  destruct (mem d chars) eqn:M; [exact IH |]. intros [= <-]. exact M.
Qed.

Lemma lstrip_chars f chars s : any_char f s = false -> any_char f (lstrip chars s) = false.
Proof.
  destruct (lstrip_suffix chars s) as (a & E). intros H. rewrite E, any_char_app in H.
  apply orb_false_iff in H. tauto.
Qed.

(** [strip] keeps a piece of the text, which neither begins nor ends with one
    of the characters to strip. *)
Lemma strip_spec chars s :
  (forall f, any_char f s = false -> any_char f (strip chars s) = false)
  /\ (forall c, first_char (strip chars s) = Some c -> mem c chars = false)
  /\ (forall c, last_char (strip chars s) = Some c -> mem c chars = false).
Proof.
  unfold strip. split; [| split].
  - intros f H. rewrite any_char_srev. apply lstrip_chars.
    rewrite any_char_srev. apply lstrip_chars. exact H.
  - intros c H.
    destruct (lstrip_suffix chars (srev (lstrip chars s))) as (a & E).
    apply (f_equal srev) in E. rewrite srev_involutive, srev_app_distr in E.
    destruct (srev (lstrip chars (srev (lstrip chars s)))) as [| d v]; [discriminate |].
    injection H as ->. cbn [append] in E.
    apply (lstrip_first chars s). rewrite E. reflexivity.
  - intros c H. unfold last_char in H. rewrite srev_involutive in H.
    exact (@lstrip_first _ _ _ H).
Qed.

Lemma item_returns l i x : item l i = Returns x -> nth_error l i = Some x.
Proof. unfold item. destruct (nth_error l i); [intros [= <-]; reflexivity | discriminate]. Qed.

(** X14. The row a line adds is one row at the end of the table with the next
    rowid and the text of an accepted timestamp as TIME; its NODE and its
    COMPONENT have no white space in them, and its COMPONENT neither begins
    nor ends with a slash. *)
Theorem stored_row_shape :
  forall now_year line logtype conn conn',
    parse_log_line now_year line logtype conn = Returns conn' ->
    conn' <> conn ->
    exists r,
      conn' = conn ++ [r]
      /\ rowid r = max_rowid conn + 1
      /\ (exists t, stamped r t)
      /\ has_space (NODE r) = false
      /\ has_space (COMPONENT r) = false
      /\ first_char (COMPONENT r) <> Some "/"%char
      /\ last_char (COMPONENT r) <> Some "/"%char.
Proof.
  intros now line logtype conn conn' H N.
  rewrite parse_log_line_unfold in H.
  apply bind_returns in H. destruct H as (pattern & K & H).
  destruct (Re.search pattern line) eqn:F; [| injection H as <-; congruence].
  cbv zeta in H. apply bind_returns in H. destruct H as (ts & T & H).
  destruct ts as [[t kind] |]; [| injection H as <-; congruence].
  apply format_timestamp_valid in T. destruct T as [V _].
  apply bind_returns in H. destruct H as (record & R & H). injection H as <-.
  assert (E : exists node field payload,
             record = (str t, node, strip "/" (strip ":" field), payload)
             /\ has_space node = false /\ has_space field = false).
  { destruct (kind =? 1); [| destruct (kind =? 2); [| discriminate]];
      apply bind_returns in R; destruct R as (node & I1 & R);
      apply bind_returns in R; destruct R as (field & I2 & R);
      apply bind_returns in R; destruct R as (payload & I3 & R);
      injection R as <-; exists node, field, payload;
      apply item_returns in I1; apply item_returns in I2; apply item_returns in I3;
      (split; [reflexivity |]); split.
    - eapply split_fields; [exact I1 | rewrite I2; discriminate].
    - eapply split_fields; [exact I2 | rewrite I3; discriminate].
    - eapply split_fields; [exact I1 | rewrite I2; discriminate].
    - eapply split_fields; [exact I2 | rewrite I3; discriminate]. }
  destruct E as (node & field & payload & -> & Sn & Sf).
  exists (mkrow (max_rowid conn + 1) (str t) node (strip "/" (strip ":" field)) payload).
  cbn [rowid NODE COMPONENT].
  destruct (strip_spec "/" (strip ":" field)) as (C1 & C2 & C3).
  destruct (strip_spec ":" field) as (D1 & _ & _).
  split; [reflexivity |]. split; [reflexivity |].
  split; [exists t; split; [exact V | reflexivity] |].
  split; [exact Sn |]. split; [apply C1, D1; exact Sf |].
  split; intros Hc.
  - specialize (C2 _ Hc). discriminate C2.
  - specialize (C3 _ Hc). discriminate C3.
Qed.

Lemma stored_row_shape_witness :
  exists r,
    [mkrow 1 "2021-01-05 10:00:01" "node1" "pacemaker-fenced"
       "notice: remote_op_done: Operation reboot"]
    = [] ++ [r]
    /\ rowid r = max_rowid [] + 1
    /\ (exists t, stamped r t)
    /\ has_space (NODE r) = false
    /\ has_space (COMPONENT r) = false
    /\ first_char (COMPONENT r) <> Some "/"%char
    /\ last_char (COMPONENT r) <> Some "/"%char.
Proof.
  apply (@stored_row_shape 2026 line_good "p" []).
  - vm_compute. reflexivity.
  - discriminate.
Defined.

(** ** Narrowing the window *)

Lemma lt_trans a b c : valid a -> valid b -> valid c -> lt a b -> lt b c -> lt a c.
Proof.
  intros Va Vb Vc. unfold lt. rewrite <- !str_compare_str by assumption.
  apply str_compare_trans.
Qed.

Lemma le_lt_trans a b c : valid a -> valid b -> valid c -> le a b -> lt b c -> lt a c.
Proof.
  intros Va Vb Vc L H. unfold le in L.
  destruct (Datetime.compare a b) eqn:E; [| | congruence].
  - apply compare_eq in E. subst. exact H.
  - exact (lt_trans Va Vb Vc E H).
Qed.

Lemma lt_le_trans a b c : valid a -> valid b -> valid c -> lt a b -> le b c -> lt a c.
Proof.
  intros Va Vb Vc H L. unfold le in L.
  destruct (Datetime.compare b c) eqn:E; [| | congruence].
  - apply compare_eq in E. subst. exact H.
  - exact (lt_trans Va Vb Vc H E).
Qed.

Lemma StronglySorted_filter (R : row -> row -> Prop) f l :
  StronglySorted R l -> StronglySorted R (filter f l).
Proof.
  induction 1 as [| x t St IH Hx]; cbn [filter]; [constructor |].
  destruct (f x); [| exact IH]. constructor; [exact IH |].
  rewrite Forall_forall in *. intros y Hy. apply filter_In in Hy. apply Hx. tauto.
Qed.

(** X15. Narrowing the window only leaves records out: the report for a
    window inside another is the report for the wider window without the
    records outside the narrower one, the others in the same order. *)
Theorem narrowing_the_window :
  forall wide_begin wide_end date_begin date_end conn,
    stored conn ->
    bound_valid wide_begin -> bound_valid wide_end ->
    bound_valid date_begin -> bound_valid date_end ->
    begin_le wide_begin date_begin -> end_le date_end wide_end ->
    matches date_begin date_end conn
    = filter (in_window date_begin date_end) (matches wide_begin wide_end conn)
    /\ sql_query date_begin date_end conn
       = map columns
           (filter (in_window date_begin date_end) (matches wide_begin wide_end conn)).
Proof.
  intros b' e' b e conn St Vb' Ve' Vb Ve Lb Le.
  assert (E : matches b e conn = filter (in_window b e) (matches b' e' conn)).
  { apply sorted_same_members.
    - apply matches_sorted. exact St.
    - apply StronglySorted_filter, matches_sorted. exact St.
    - intros x. rewrite filter_In, !In_matches. split; [| tauto].
      intros (Hx & W & C). repeat split; try assumption.
      destruct (stored_stamped St _ Hx) as (t & Ht).
      apply (in_window_spec b' e' Vb' Ve' Ht).
      apply (in_window_spec b e Vb Ve Ht) in W. destruct W as [A B].
      destruct Ht as [Vt _]. split.
      + destruct b' as [x' |]; [| exact I]. destruct b as [y |]; [| contradiction].
        exact (le_lt_trans Vb' Vb Vt Lb A).
      + destruct e' as [x' |]; [| exact I]. destruct e as [y |]; [| contradiction].
        exact (lt_le_trans Vt Ve Ve' B Le). }
  split; [exact E |]. unfold sql_query. rewrite E. reflexivity.
Qed.

Lemma narrowing_the_window_witness :
  matches (Some t_2021_01_01) (Some t_2021_01_02) table_twins
  = filter (in_window (Some t_2021_01_01) (Some t_2021_01_02))
      (matches None None table_twins)
  /\ sql_query (Some t_2021_01_01) (Some t_2021_01_02) table_twins
     = map columns
         (filter (in_window (Some t_2021_01_01) (Some t_2021_01_02))
            (matches None None table_twins)).
Proof.
  apply (@narrowing_the_window None None (Some t_2021_01_01) (Some t_2021_01_02)
           table_twins).
  - exact stored_twins.
  - exact I.
  - exact I.
  - reflexivity.
  - reflexivity.
  - exact I.
  - exact I.
Defined.

(** ** System logs before pacemaker logs *)

(** Without archives the run is the run over the plain files. *)
Lemma logparser_plain_files hb_report_parser sosreport_parser now_year
      system_log pacemaker_log date_begin date_end :
  Run.logparser hb_report_parser sosreport_parser now_year system_log pacemaker_log
    None None date_begin date_end
  = logparser now_year system_log pacemaker_log date_begin date_end.
Proof.
  unfold Run.logparser, logparser.
  destruct system_log as [| f fs].
  - change (logfile_parser now_year [] "s" []) with (Returns (@nil row)).
    cbn [bind].
    destruct pacemaker_log as [| q qs]; [reflexivity |].
    destruct (logfile_parser now_year (q :: qs) "p" []); reflexivity.
  - destruct (logfile_parser now_year (f :: fs) "s" []) as [c1 | |];
      cbn [bind]; [| reflexivity | reflexivity].
    destruct pacemaker_log as [| q qs]; [reflexivity |].
    destruct (logfile_parser now_year (q :: qs) "p" c1); reflexivity.
Qed.

(** X16. In a run without hb_report and sosreport archives, whatever the
    readers of archives are, [logparser] reads the system logs first: every
    row of a system log has a smaller rowid than every row of a pacemaker
    log, so of two records with the same timestamp, one from each, the
    report lists the one from the system log first. *)
Theorem system_rows_come_first :
  forall hb_report_parser sosreport_parser
         now_year system_log pacemaker_log date_begin date_end c1 c2,
    logfile_parser now_year system_log "s" [] = Returns c1 ->
    logfile_parser now_year pacemaker_log "p" c1 = Returns c2 ->
    Run.logparser hb_report_parser sosreport_parser
      now_year system_log pacemaker_log None None date_begin date_end
    = Returns (sql_query date_begin date_end c2)
    /\ exists added,
         c2 = c1 ++ added
         /\ forall x y,
              In x c1 -> In y added ->
              rowid x < rowid y
              /\ (TIME x = TIME y ->
                  In x (matches date_begin date_end c2) ->
                  In y (matches date_begin date_end c2) ->
                  exists m1 m2 m3,
                    matches date_begin date_end c2 = m1 ++ x :: m2 ++ y :: m3).
Proof.
  intros hbp sosp now sys pm b e c1 c2 H1 H2.
  split.
  { rewrite logparser_plain_files. unfold logparser.
    rewrite H1; cbn [bind]; rewrite H2; reflexivity. }
  assert (St : stored c2).
  { eapply logfile_parser_stored; [| exact H2].
    eapply logfile_parser_stored; [apply stored_empty | exact H1]. }
  destruct (ingestion_appends_lemma _ _ _ _ H2) as (added & E & _).
  exists added. split; [exact E |].
  intros x y Hx Hy.
  destruct (in_split _ _ Hx) as (l1 & l2 & E1).
  destruct (in_split _ _ Hy) as (a1 & a2 & E2).
  assert (D : c2 = l1 ++ x :: (l2 ++ a1) ++ y :: a2).
  { rewrite E, E1, E2, <- !app_assoc. reflexivity. }
  pose proof (@inserted_before _ _ _ _ _ _ St D) as L.
  split; [exact L |]. intros ET Ix Iy.
  assert (Nxy : x <> y) by (intros ->; lia).
  pose proof (matches_sorted b e St) as Srt.
  destruct (@in_two_split _ _ _ Ix Iy Nxy) as [(m1 & m2 & m3 & Em) | (m1 & m2 & m3 & Em)].
  - exists m1, m2, m3. exact Em.
  - exfalso. rewrite Em in Srt. apply sorted_split_rel in Srt.
    destruct Srt as [H | [_ H]]; [| lia].
    rewrite ET, str_compare_refl in H. discriminate.
Qed.

Lemma system_rows_come_first_witness :
  Run.logparser (fun _ _ => SysExit) (fun _ _ => SysExit)
    2026 [Some [line_system]] [Some [line_good]] None None None None
  = Returns (sql_query None None [row_system; row_pacemaker])
  /\ rowid row_system < rowid row_pacemaker
  /\ exists m1 m2 m3,
       matches None None [row_system; row_pacemaker]
       = m1 ++ row_system :: m2 ++ row_pacemaker :: m3.
Proof.
  destruct (@system_rows_come_first (fun _ _ => SysExit) (fun _ _ => SysExit)
              2026 [Some [line_system]] [Some [line_good]] None None
              [row_system] [row_system; row_pacemaker])
    as (R & added & E & F).
  - vm_compute. reflexivity.
  - vm_compute. reflexivity.
  - split; [exact R |].
    assert (A : added = [row_pacemaker]) by (injection E as <-; reflexivity).
    destruct (F row_system row_pacemaker) as (L & O).
    + left. reflexivity.
    + rewrite A. left. reflexivity.
    + split; [exact L |]. apply O.
      * reflexivity.
      * vm_compute. left. reflexivity.
      * vm_compute. right. left. reflexivity.
Defined.

(** ** When a line stops the run *)

Lemma bind_raises A B (m : outcome A) (f : A -> outcome B) e :
  (x <- m ;; f x) = Raises e -> m = Raises e \/ exists a, m = Returns a /\ f a = Raises e.
Proof. destruct m; simpl; [eauto | discriminate | intros [= <-]; auto]. Qed.

Lemma bind_exits A B (m : outcome A) (f : A -> outcome B) :
  (x <- m ;; f x) = SysExit -> m = SysExit \/ exists a, m = Returns a /\ f a = SysExit.
Proof. destruct m; simpl; [eauto | auto | discriminate]. Qed.

Lemma keywords_not_raises logtype e : keywords logtype <> Raises e.
Proof.
  unfold keywords. destruct (String.eqb logtype "s"); [discriminate |].
  destruct (String.eqb logtype "p"); discriminate.
Qed.

Lemma format_timestamp_not_raises now line e :
  format_timestamp_from_logline now line <> Raises e.
Proof.
  unfold format_timestamp_from_logline.
  destruct (Re.search (fst time_format1) line).
  - destruct (strptime _ _); discriminate.
  - destruct (Re.search (fst time_format2) line); [| discriminate].
    destruct (strptime _ _); discriminate.
Qed.

Lemma format_timestamp_exits now line :
  format_timestamp_from_logline now line = SysExit
  <-> grammar_matched_unparsed now line = true.
Proof.
  unfold grammar_matched_unparsed, format_timestamp_from_logline.
  destruct (Re.search (fst time_format1) line).
  - destruct (strptime _ _); simpl; split; (discriminate || reflexivity).
  - destruct (Re.search (fst time_format2) line); [| split; discriminate].
    destruct (strptime _ _); simpl; split; (discriminate || reflexivity).
Qed.

Lemma item_cases l i :
  (exists x, item l i = Returns x /\ (i < List.length l)%nat)
  \/ (item l i = Raises IndexError /\ (List.length l <= i)%nat).
Proof.
  unfold item. destruct (nth_error l i) as [x |] eqn:E.
  - left. exists x. split; [reflexivity |]. apply nth_error_Some. congruence.
  - right. split; [reflexivity |]. apply nth_error_None. exact E.
Qed.

Lemma record_of_cases kind t logline :
  kind = 1 \/ kind = 2 ->
  (exists record, record_of kind t logline = Returns record
                  /\ (fields_needed kind <= List.length (fields_of kind logline))%nat)
  \/ (record_of kind t logline = Raises IndexError
      /\ (List.length (fields_of kind logline) < fields_needed kind)%nat).
Proof.
  unfold record_of, fields_of, fields_needed.
  intros [-> | ->]; cbn [Z.eqb Pos.eqb]; cbv zeta.
  - destruct (item_cases (Re.split "\s+" logline 5) 3) as [(x3 & -> & L3) | (-> & L3)];
      cbn [bind]; [| right; split; [reflexivity | lia]].
    destruct (item_cases (Re.split "\s+" logline 5) 4) as [(x4 & -> & L4) | (-> & L4)];
      cbn [bind]; [| right; split; [reflexivity | lia]].
    destruct (item_cases (Re.split "\s+" logline 5) 5) as [(x5 & -> & L5) | (-> & L5)];
      cbn [bind]; [| right; split; [reflexivity | lia]].
    left. eexists. split; [reflexivity | lia].
  - destruct (item_cases (Re.split "\s+" logline 3) 1) as [(x3 & -> & L3) | (-> & L3)];
      cbn [bind]; [| right; split; [reflexivity | lia]].
    destruct (item_cases (Re.split "\s+" logline 3) 2) as [(x4 & -> & L4) | (-> & L4)];
      cbn [bind]; [| right; split; [reflexivity | lia]].
    destruct (item_cases (Re.split "\s+" logline 3) 3) as [(x5 & -> & L5) | (-> & L5)];
      cbn [bind]; [| right; split; [reflexivity | lia]].
    left. eexists. split; [reflexivity | lia].
Qed.

Lemma parse_log_line_record now line logtype conn :
  parse_log_line now line logtype conn =
  (pattern <- keywords logtype ;;
   match Re.search pattern line with
   | Some _ =>
       timestamp <- format_timestamp_from_logline now (Re.sub1_empty "\[\d*\]" line) ;;
       match timestamp with
       | Some (t, kind) =>
           record <- record_of kind t (Re.sub1_empty "\[\d*\]" line) ;;
           Returns (insert_into conn record)
       | None => Returns conn
       end
   | None => Returns conn
   end).
Proof. reflexivity. Qed.

(** X17. The only exception a line can raise is [IndexError], and it is
    raised exactly when the line passes the keyword filter of its tag, its
    timestamp parses, and the split gives fewer fields than the kind needs
    (six for the syslog kind, four for the ISO kind). *)
Theorem index_error_exactly_when_fields_are_missing :
  forall now_year line logtype conn e,
    parse_log_line now_year line logtype conn = Raises e
    <-> e = IndexError
        /\ exists pattern t kind,
             keywords logtype = Returns pattern
             /\ Re.search pattern line <> None
             /\ format_timestamp_from_logline now_year (Re.sub1_empty "\[\d*\]" line)
                = Returns (Some (t, kind))
             /\ (List.length (fields_of kind (Re.sub1_empty "\[\d*\]" line))
                 < fields_needed kind)%nat.
Proof.
  intros now line logtype conn e. rewrite parse_log_line_record. split.
  - intros H. apply bind_raises in H.
    destruct H as [H | (pattern & K & H)]; [exfalso; exact (keywords_not_raises _ H) |].
    destruct (Re.search pattern line) eqn:F; [| discriminate].
    apply bind_raises in H.
    destruct H as [H | (ts & T & H)]; [exfalso; exact (format_timestamp_not_raises _ _ H) |].
    destruct ts as [[t kind] |]; [| discriminate].
    destruct (format_timestamp_valid _ _ T) as [_ Kd].
    destruct (record_of_cases t (Re.sub1_empty "\[\d*\]" line) Kd)
      as [(record & R & _) | (R & L)]; rewrite R in H; cbn [bind] in H; [discriminate |].
    injection H as <-. split; [reflexivity |].
    exists pattern, t, kind. repeat split; try assumption. congruence.
  - intros (-> & pattern & t & kind & K & F & T & L).
    rewrite K. cbn [bind]. destruct (Re.search pattern line); [| congruence].
    rewrite T. cbn [bind].
    destruct (format_timestamp_valid _ _ T) as [_ Kd].
    destruct (record_of_cases t (Re.sub1_empty "\[\d*\]" line) Kd)
      as [(record & R & L') | (R & _)]; [lia |].
    rewrite R. reflexivity.
Qed.

(** X18. A line ends the run exactly when its tag is neither [s] nor [p], or
    it passes the keyword filter of its tag and one of the grammars finds in
    it a timestamp that [strptime] rejects. *)
Theorem run_ends_exactly_when :
  forall now_year line logtype conn,
    parse_log_line now_year line logtype conn = SysExit
    <-> (logtype <> "s" /\ logtype <> "p")%string
        \/ exists pattern,
             keywords logtype = Returns pattern
             /\ Re.search pattern line <> None
             /\ grammar_matched_unparsed now_year (Re.sub1_empty "\[\d*\]" line) = true.
Proof.
  intros now line logtype conn. rewrite parse_log_line_record. split.
  - intros H. apply bind_exits in H. destruct H as [H | (pattern & K & H)].
    + left. unfold keywords in H.
      destruct (String.eqb logtype "s") eqn:Es; [discriminate |].
      destruct (String.eqb logtype "p") eqn:Ep; [discriminate |].
      apply String.eqb_neq in Es. apply String.eqb_neq in Ep. auto.
    + right. exists pattern. split; [exact K |].
      destruct (Re.search pattern line) eqn:F; [| discriminate].
      split; [discriminate |].
      apply bind_exits in H. destruct H as [H | (ts & T & H)].
      * apply format_timestamp_exits. exact H.
      * exfalso. destruct ts as [[t kind] |]; [| discriminate].
        destruct (format_timestamp_valid _ _ T) as [_ Kd].
        destruct (record_of_cases t (Re.sub1_empty "\[\d*\]" line) Kd)
          as [(record & R & _) | (R & _)]; rewrite R in H; discriminate.
  - intros [[Ns Np] | (pattern & K & F & U)].
    + unfold keywords. apply String.eqb_neq in Ns. apply String.eqb_neq in Np.
      rewrite Ns, Np. reflexivity.
    + rewrite K. cbn [bind]. destruct (Re.search pattern line); [| congruence].
      apply format_timestamp_exits in U. rewrite U. reflexivity.
Qed.
